(** * KiirooControlSDK: the OTA transfer engine and the sensor pipeline

    A shallow embedding of the two device facades of the SDK and of the
    properties that their specification states about them: the class
    [KiirooControl] of the React Native package, with its [BleManagerSensor]
    module and its [DeviceSensorEvents] bus, and the class [KiirooControl]
    of the React package, over Web Bluetooth.

    The embedding comes first:
    - [JSNumber]: the arithmetic of JavaScript numbers (IEEE 754 binary64,
      round to nearest, ties to even) on the values the code computes with;
    - the [for] loop that cuts a firmware image into chunks;
    - promises: asynchronous methods are programs in a state-and-outcome
      monad over the facade instance, the module-level tables and a trace;
    - [ReactNative]: the facade over react-native-ble-manager;
    - [Web]: the facade over Web Bluetooth.

    The BLE stack is a parameter of each facade: a record of answers, each a
    function of the history of what was done so far, so that a theorem about
    a method holds for every behaviour of the peripheral.

    The facts and the claims follow. *)

From stdpp Require Import base gmap strings list.
From Stdlib Require Import ZArith QArith Qround Qpower Lia Lqa List Bool Sorted.
From Stdlib Require Floats Uint63.
Import ListNotations.

(** * JavaScript numbers

    A JavaScript number is an IEEE 754 binary64 value.  The code below only
    computes with finite values, so a number is modelled by the rational it
    denotes, and every arithmetic operation is the exact operation followed by
    rounding to the nearest binary64 value, ties to even.  Gradual underflow
    is modelled ([ulp_exponent] never goes below -1074); overflow to Infinity
    is not, no modelled path gets near 2^1024. *)

Module JSNumber.
Local Open Scope Q_scope.

(** [floor_log2 x] is the integer [e] with [2^e <= x < 2^(e+1)], for [0 < x]. *)
Definition floor_log2 (x : Q) : Z :=
  let d := (Z.log2 (Qnum x) - Z.log2 (Z.pos (Qden x)))%Z in
  if Qle_bool (2 ^ d) x then d else (d - 1)%Z.

(** Round to the nearest integer, ties to the even one. *)
Definition rne (x : Q) : Z :=
  let f := Qfloor x in
  match Qcompare (x - inject_Z f) (1 # 2) with
  | Lt => f
  | Gt => (f + 1)%Z
  | Eq => if Z.even f then f else (f + 1)%Z
  end.

(** The exponent of the last place of the binary64 values around [x]:
    53 significant bits, and never below the subnormal spacing 2^-1074. *)
Definition ulp_exponent (x : Q) : Z := Z.max (floor_log2 x - 52) (-1074).

(** Rounding a positive value to 53 significant bits. *)
Definition round_pos (x : Q) : Q :=
  let e := ulp_exponent x in inject_Z (rne (x / 2 ^ e)) * 2 ^ e.

(** The binary64 value nearest to [x]. *)
Definition round_binary64 (x : Q) : Q :=
  match Qcompare x 0 with
  | Eq => 0
  | Gt => round_pos x
  | Lt => - round_pos (- x)
  end.

(** [a / b], [a * b] and [a + b] on numbers. *)
Definition Ndiv (a b : Q) : Q := round_binary64 (a / b).
Definition Nmul (a b : Q) : Q := round_binary64 (a * b).
Definition Nadd (a b : Q) : Q := round_binary64 (a + b).

(** [Math.round]: the nearest integer, ties towards +Infinity. *)
Definition Math_round (x : Q) : Z := Qfloor (x + (1 # 2)).

(** The integer nearest to the square root of [t], ties to even: with
    [s] the integer square root, the root is below [s + 1/2] exactly when
    [t < s^2 + s + 1/4]. *)
Definition rne_sqrt (t : Q) : Z :=
  let s := Z.sqrt (Qfloor t) in
  match Qcompare t (inject_Z (s * s + s) + (1 # 4)) with
  | Lt => s
  | Gt => (s + 1)%Z
  | Eq => if Z.even s then s else (s + 1)%Z
  end.

(** [Math.sqrt]: the correctly rounded square root.  The root of [x] lies in
    [[2^k, 2^(k+1))] for [k = floor_log2 x / 2]; it is rounded to 53 bits. *)
Definition Math_sqrt (x : Q) : Q :=
  match Qcompare x 0 with
  | Gt =>
      let k := (floor_log2 x / 2)%Z in
      let e := (k - 52)%Z in
      let t := x / 4 ^ e in
      inject_Z (rne_sqrt t) * 2 ^ e
  | _ => 0
  end.

End JSNumber.

(** * Chunking a firmware image *)

Local Open Scope Z_scope.

Section Chunking.
Context {A : Type}.

(** [Array.prototype.slice] and [ArrayBuffer.prototype.slice]: a negative
    index counts from the end, and both ends are clamped to the length. *)
Definition relative_index (len k : Z) : Z :=
  if k <? 0 then Z.max (len + k) 0 else Z.min k len.

Definition slice (l : list A) (start end_ : Z) : list A :=
  let len := Z.of_nat (length l) in
  let k := relative_index len start in
  let final := relative_index len end_ in
  take (Z.to_nat (final - k)) (drop (Z.to_nat k) l).

(** The loop [for (let i = 0; i < firmware.length; i += packetSize)
    chunks.push(firmware.slice(i, i + packetSize))].  Nothing bounds the
    number of iterations when [packetSize <= 0]; [None] is a loop that is
    still running when the fuel is spent. *)
Fixpoint chunk_loop (fuel : nat) (firmware : list A) (packetSize i : Z)
    (chunks : list (list A)) : option (list (list A)) :=
  if i <? Z.of_nat (length firmware) then
    match fuel with
    | O => None
    | S fuel' =>
        chunk_loop fuel' firmware packetSize (i + packetSize)
          (chunks ++ [slice firmware i (i + packetSize)])
    end
  else Some chunks.

Definition split_chunks (fuel : nat) (firmware : list A) (packetSize : Z) :=
  chunk_loop fuel firmware packetSize 0 [].

End Chunking.

(** * Promises: outcomes and programs *)

Local Open Scope string_scope.
Local Open Scope list_scope.
Local Open Scope Z_scope.

(** What a promise is rejected with: a string handed to [Promise.reject], or
    an [Error] object that was thrown (by the code or by the BLE stack). *)
Inductive JSError :=
| RejectedWith (reason : string)
| ThrownError (message : string).

(** [`${err}`] *)
Definition error_to_string (err : JSError) : string :=
  match err with
  | RejectedWith reason => reason
  | ThrownError message => "Error: " +:+ message
  end.

(** The answer of the BLE stack to one call. *)
Inductive Result (A : Type) :=
| Ok (a : A)
| Fails (err : JSError).
Arguments Ok {A} a.
Arguments Fails {A} err.

(** The outcome of an asynchronous method.  [OutOfFuel]: a loop of the method
    was still running when the fuel given to it was spent. *)
Inductive Outcome (A : Type) :=
| Resolved (a : A)
| Rejected (err : JSError)
| OutOfFuel.
Arguments Resolved {A} a.
Arguments Rejected {A} err.
Arguments OutOfFuel {A}.

Definition succeeded {A} (r : Result A) : bool :=
  match r with Ok _ => true | Fails _ => false end.

Definition settle {A} (r : Result A) : Outcome A :=
  match r with Ok a => Resolved a | Fails err => Rejected err end.

(** A program over a world [W]: the facade instance, the module-level tables
    and the trace of what was done to the outside. *)
Definition Prog (W A : Type) : Type := W -> Outcome A * W.

Definition ret {W A} (a : A) : Prog W A := fun w => (Resolved a, w).

Definition bind {W A B} (m : Prog W A) (f : A -> Prog W B) : Prog W B := fun w =>
  match m w with
  | (Resolved a, w') => f a w'
  | (Rejected err, w') => (Rejected err, w')
  | (OutOfFuel, w') => (OutOfFuel, w')
  end.

Declare Scope prog_scope.
Delimit Scope prog_scope with prog.
Notation "x ← y ; z" := (bind y (fun x : _ => z))
  (at level 20, y at level 100, z at level 200, only parsing) : prog_scope.
Notation "y ;; z" := (bind y (fun _ => z))
  (at level 100, z at level 200, only parsing, right associativity) : prog_scope.
Local Open Scope prog_scope.

Definition reject {W A} (err : JSError) : Prog W A := fun w => (Rejected err, w).

Definition out_of_fuel {W A} : Prog W A := fun w => (OutOfFuel, w).

Definition get {W} : Prog W W := fun w => (Resolved w, w).

(** [try { m } catch (err) { handler err }] *)
Definition try_catch {W A} (m : Prog W A) (handler : JSError -> Prog W A)
    : Prog W A := fun w =>
  match m w with
  | (Rejected err, w') => handler err w'
  | other => other
  end.

(** A promise that is started and not awaited: its outcome is dropped.  Its
    steps are taken at the point where it is started. *)
Definition not_awaited {W A} (m : Prog W A) : Prog W unit := fun w =>
  (Resolved tt, snd (m w)).

(** Promises that are started one after the other, none of them awaited.  A
    promise is given by its steps: what it does up to its first [await],
    then between each [await] and the next.  Each promise takes its first
    step when it is started; then the promises go on in turns, one step
    each, in the order in which they were started, as what they await
    settles in that order.  A promise whose step fails stops there, and the
    outcomes are dropped. *)
Fixpoint one_turn {W} (tasks : list (list (Prog W unit))) (w : W)
    : list (list (Prog W unit)) * W :=
  match tasks with
  | [] => ([], w)
  | [] :: rest => one_turn rest w
  | (step :: later) :: rest =>
      let (out, w1) := step w in
      let (others, w2) := one_turn rest w1 in
      (match out with Resolved _ => later :: others | _ => others end, w2)
  end.

Fixpoint turns {W} (n : nat) (tasks : list (list (Prog W unit))) (w : W) : W :=
  match n with
  | O => w
  | S n' => let (later, w1) := one_turn tasks w in turns n' later w1
  end.

Definition started_together {W} (tasks : list (list (Prog W unit))) : Prog W unit :=
  fun w => (Resolved tt, turns (foldr Nat.max 0%nat (map length tasks)) tasks w).

(** [IDevice] *)
Record IDevice := { id : string; name : string }.

Global Instance IDevice_eq_dec : EqDecision IDevice.
Proof. solve_decision. Defined.

(** Functions handed in by the caller are known by their identity; calling
    one is recorded in the trace. *)
Definition Listener := nat.
Definition ProgressCallback := nat.

(** [Math.round((i / chunks.length) * 100)] *)
Definition progress_percent (i total : Z) : Z :=
  JSNumber.Math_round
    (JSNumber.Nmul (JSNumber.Ndiv (inject_Z i) (inject_Z total)) 100).

(** [for (let i = 0; i < chunks.length; i++) { const chunk = chunks[i]; body }] *)
Fixpoint for_each_chunk {W} (body : Z -> list Z -> Prog W unit) (i : Z)
    (chunks : list (list Z)) : Prog W unit :=
  match chunks with
  | [] => ret tt
  | chunk :: rest => body i chunk;; for_each_chunk body (i + 1) rest
  end.

(** ** Strings computed from data

    A string that the code builds at run time is the sequence of its UTF-16
    code units. *)
Definition JSString := list Z.

(** The code units of an ASCII literal of the source. *)
Definition literal (s : string) : JSString :=
  map (fun a => Z.of_N (Ascii.N_of_ascii a)) (String.list_ascii_of_string s).

(** [String.fromCharCode(code)]: one code unit, [code] modulo 2^16. *)
Definition String_fromCharCode (code : Z) : JSString := [code mod 65536].

(** [chars.join('')] *)
Definition join (chars : list JSString) : JSString := concat chars.

(** [s.toUpperCase()] on ASCII strings: the letters a..z become A..Z and
    every other ASCII code unit stays.  (From 128 on the Unicode case tables
    apply; they are not modelled, and the facts about names are stated for
    ASCII names.) *)
Definition toUpperCase (s : JSString) : JSString :=
  map (fun c => if (97 <=? c) && (c <=? 122) then c - 32 else c) s.

(** The white space and the line terminators of ECMAScript among the ASCII
    code units: TAB, LF, VT, FF, CR and the space. *)
Definition isWhiteSpace (c : Z) : bool := ((9 <=? c) && (c <=? 13)) || (c =? 32).

Fixpoint trimStart (s : JSString) : JSString :=
  match s with
  | c :: rest => if isWhiteSpace c then trimStart rest else s
  | [] => []
  end.

Definition trimEnd (s : JSString) : JSString := reverse (trimStart (reverse s)).

(** [s.trim()] *)
Definition trim (s : JSString) : JSString := trimEnd (trimStart s).

(** * The React Native facade

    The class [KiirooControl] of the React Native package, with the
    module-level callback table of [BleManagerSensor] and the event bus
    [DeviceSensorEvents]. *)

Module ReactNative.
Import JSNumber.

Definition KIIROO_CONTROL_SERVICE_UUID := "1400".
Definition DISCONNECT_DEVICE_UUID := "1501".
Definition OTA_DATA_UUID := "1701".
Definition OTA_CONTROL_UUID := "1702".
Definition TEST_DEVICE_DEVICE_NAME_SERVICE_UUID := "180A".
Definition BATTERY_LEVEL_UUID := "2A19".
Definition MODEL_NUMBER_UUID := "2A24".
Definition SERIAL_NUMBER_UUID := "2A25".
Definition FIRMWARE_NUMBER_UUID := "2A26".
Definition HARDWARE_NUMBER_UUID := "2A27".
Definition MANUFACTURER_NAME_UUID := "2A29".
Definition READ_NAME_UUID := "2A00".
Definition CHAR_X_UUID := "FFF1".
Definition CHAR_Y_UUID := "FFF2".
Definition CHAR_Z_UUID := "FFF3".

Definition DEFAULT_MTU_SIZE := 23.
Definition IOS_MTU_SIZE := 185.
Definition DESIRED_MTU_SIZE := 252.
Definition DESIRED_MTU_SIZE_V_14 := 512.
Definition SEND_CHUNK_DELAY := 1000.
Definition DEVICE_REBOOT_WAIT_TIME := 5000.

Definition deviceNotInitMsg := "The device should be connected first.".
Definition deviceNotFound := "The device is invalid or not found".

(** ** DeviceData

    The axis values are the bytes of the notifications. *)

Record DeviceData := { _axisX : Z; _axisY : Z; _axisZ : Z }.

Definition new_DeviceData : DeviceData := {| _axisX := 0; _axisY := 0; _axisZ := 0 |}.

(** [v ** 2] *)
Definition square (v : Z) : Q := round_binary64 (inject_Z v * inject_Z v).

Definition calculateTotalAcceleration (d : DeviceData) : Z :=
  let result :=
    Math_sqrt (Nadd (Nadd (square (_axisX d)) (square (_axisY d)))
                    (square (_axisZ d))) in
  Z.min (Math_round result) 5.

(** The [switch] of [set_fffx] compares with [===]; its [default] throws. *)
Definition set_fffx (propName : string) (value : Z) (d : DeviceData)
    : Result DeviceData :=
  if decide (propName = CHAR_X_UUID) then
    Ok {| _axisX := value; _axisY := _axisY d; _axisZ := _axisZ d |}
  else if decide (propName = CHAR_Y_UUID) then
    Ok {| _axisX := _axisX d; _axisY := value; _axisZ := _axisZ d |}
  else if decide (propName = CHAR_Z_UUID) then
    Ok {| _axisX := _axisX d; _axisY := _axisY d; _axisZ := value |}
  else
    Fails (ThrownError
             ("Property " +:+ propName +:+ " does not exist on DeviceData.")).

(** ** The BLE stack as seen by the facade

    The calls of react-native-ble-manager that the code makes.  The trace
    records each call and whether it succeeded, the timed waits, the calls
    of the progress callback and the calls of the listeners of the bus. *)

Inductive BleCall :=
| BleConnect (peripheral : string)
| BleRetrieveServices (peripheral : string)
| BleIsPeripheralConnected (peripheral : string)
| BleStartNotification (peripheral service characteristic : string)
| BleStopNotification (peripheral service characteristic : string)
| BleRead (peripheral service characteristic : string)
| BleWrite (peripheral service characteristic : string) (data : list Z)
           (maxByteSize : option Z)
| BleWriteWithoutResponse (peripheral service characteristic : string)
           (data : list Z) (maxByteSize : option Z)
| BleRequestMTU (peripheral : string) (mtu : Z)
| BleDisconnect (peripheral : string).

Inductive Event :=
| Called (call : BleCall) (ok : bool)
| Waited (msecs : Z)
| Progress (callback : ProgressCallback) (percent : Z)
| Delivered (listener : Listener) (device : IDevice) (percent : Z).

Definition History := list Event.

(** What the stack answers to each call, given the history so far. *)
Record BleManager := {
  connect_answer : History -> string -> Result unit;
  retrieveServices_answer : History -> string -> Result unit;
  isPeripheralConnected_answer : History -> string -> Result bool;
  startNotification_answer : History -> string -> string -> string -> Result unit;
  stopNotification_answer : History -> string -> string -> string -> Result unit;
  read_answer : History -> string -> string -> string -> Result (list Z);
  write_answer :
    History -> string -> string -> string -> list Z -> option Z -> Result unit;
  writeWithoutResponse_answer :
    History -> string -> string -> string -> list Z -> option Z -> Result unit;
  requestMTU_answer : History -> string -> Z -> Result Z;
  disconnect_answer : History -> string -> Result unit
}.

(** [Platform.OS], and [Platform.Version] as a number (after [parseFloat]
    when it is a string). *)
Record Platform := { OS : string; Version : Q }.

(** ** Program state *)

(** The one function that the code registers as a notification callback:
    the arrow function of [connect], which closes over the instance and over
    the [device] it was called with. *)
Inductive Callback := AxisCallback (device : IDevice).

Record CallbackInfo := {
  callback : option Callback;
  service : string;
  characteristic : string
}.

(** The argument of a [BleManagerDidUpdateValueForCharacteristic] event:
    [data_characteristic] is [data.characteristic] (the empty string stands
    for a missing one: both are falsy) and [data_value0] is
    [Number(data.value[0])], one byte. *)
Record NotificationArgs := {
  peripheral : string;
  data_characteristic : string;
  data_value0 : Z
}.

(** The [EventEmitter] of the bus: the listeners of each event name, in the
    order in which they were added. *)
Record DeviceSensorEvents := { ee : gmap string (list Listener) }.

Record KiirooControl := {
  device : option IDevice;
  notificationData : DeviceData;
  acceleration : Z;
  sensor : DeviceSensorEvents
}.

(** The instance, the [callbacks] object of [BleManagerSensor] (keyed by
    device id: a MAC address or a UUID, never the name of a member of
    [Object.prototype]), and the trace. *)
Record World := {
  this : KiirooControl;
  callbacks : gmap string CallbackInfo;
  trace : History
}.

Definition new_DeviceSensorEvents : DeviceSensorEvents := {| ee := ∅ |}.

Definition new_KiirooControl : KiirooControl :=
  {| device := None; notificationData := new_DeviceData; acceleration := 0;
     sensor := new_DeviceSensorEvents |}.

Definition initial_world : World :=
  {| this := new_KiirooControl; callbacks := ∅; trace := [] |}.

Definition M (A : Type) : Type := Prog World A.

Definition record (e : Event) : M unit := fun w =>
  (Resolved tt,
   {| this := this w; callbacks := callbacks w; trace := trace w ++ [e] |}).

Definition set_this (k : KiirooControl) : M unit := fun w =>
  (Resolved tt, {| this := k; callbacks := callbacks w; trace := trace w |}).

Definition set_callbacks (c : gmap string CallbackInfo) : M unit := fun w =>
  (Resolved tt, {| this := this w; callbacks := c; trace := trace w |}).

Definition wait (msecs : Z) : M unit := record (Waited msecs).

Section Facade.
Variable BLE : BleManager.
Variable platform : Platform.

(** One call of the stack: its answer depends on the history, and the call
    is recorded with its success. *)
Definition ask {A} (c : BleCall) (answer : History -> Result A) : M A := fun w =>
  let r := answer (trace w) in
  (settle r,
   {| this := this w; callbacks := callbacks w;
      trace := trace w ++ [Called c (succeeded r)] |}).

Definition BleManager_connect (p : string) : M unit :=
  ask (BleConnect p) (fun h => connect_answer BLE h p).
Definition BleManager_retrieveServices (p : string) : M unit :=
  ask (BleRetrieveServices p) (fun h => retrieveServices_answer BLE h p).
Definition BleManager_isPeripheralConnected (p : string) : M bool :=
  ask (BleIsPeripheralConnected p) (fun h => isPeripheralConnected_answer BLE h p).
Definition BleManager_startNotification (p s c : string) : M unit :=
  ask (BleStartNotification p s c) (fun h => startNotification_answer BLE h p s c).
Definition BleManager_stopNotification (p s c : string) : M unit :=
  ask (BleStopNotification p s c) (fun h => stopNotification_answer BLE h p s c).
Definition BleManager_read (p s c : string) : M (list Z) :=
  ask (BleRead p s c) (fun h => read_answer BLE h p s c).
Definition BleManager_write (p s c : string) (data : list Z) (n : option Z) : M unit :=
  ask (BleWrite p s c data n) (fun h => write_answer BLE h p s c data n).
Definition BleManager_writeWithoutResponse (p s c : string) (data : list Z)
    (n : option Z) : M unit :=
  ask (BleWriteWithoutResponse p s c data n)
      (fun h => writeWithoutResponse_answer BLE h p s c data n).
Definition BleManager_requestMTU (p : string) (mtu : Z) : M Z :=
  ask (BleRequestMTU p mtu) (fun h => requestMTU_answer BLE h p mtu).
Definition BleManager_disconnect (p : string) : M unit :=
  ask (BleDisconnect p) (fun h => disconnect_answer BLE h p).

(** ** DeviceSensorEvents *)

Definition DEVICE_MESSAGE := "DEVICE_MESSAGE".

Definition getMessageFromDeviceId (deviceId : string) : string :=
  DEVICE_MESSAGE +:+ deviceId.

Definition listeners (s : DeviceSensorEvents) (message : string) : list Listener :=
  default [] (ee s !! message).

(** [EventEmitter.emit]: the listeners of the event are called in the order
    in which they were added. *)
Fixpoint call_listeners (ls : list Listener) (d : IDevice) (percent : Z) : M unit :=
  match ls with
  | [] => ret tt
  | l :: rest => record (Delivered l d percent);; call_listeners rest d percent
  end.

Definition emit (dev : option IDevice) (percent : Z) : M unit :=
  match dev with
  | None => ret tt
  | Some d =>
      w ← get;
      call_listeners (listeners (sensor (this w)) (getMessageFromDeviceId (id d)))
                     d percent
  end.

(** [EventEmitter.removeListener] removes one instance of the listener, the
    one added last. *)
Fixpoint remove_last (l : Listener) (ls : list Listener) : list Listener :=
  match ls with
  | [] => []
  | x :: rest =>
      if decide (x = l) then
        if decide (l ∈ rest) then x :: remove_last l rest else rest
      else x :: remove_last l rest
  end.

Definition with_sensor (k : KiirooControl) (s : DeviceSensorEvents) : KiirooControl :=
  {| device := device k; notificationData := notificationData k;
     acceleration := acceleration k; sensor := s |}.

(** [DeviceSensorEvents.subscribe] *)
Definition sensor_subscribe (deviceId : string) (l : Listener) : M unit :=
  w ← get;
  let m := getMessageFromDeviceId deviceId in
  let s := sensor (this w) in
  set_this
    (with_sensor (this w) {| ee := <[m := listeners s m ++ [l]]> (ee s) |}).

(** [DeviceSensorEvents.unsubscribe] *)
Definition sensor_unsubscribe (deviceId : string) (l : Listener) : M unit :=
  w ← get;
  let m := getMessageFromDeviceId deviceId in
  let s := sensor (this w) in
  set_this
    (with_sensor (this w) {| ee := <[m := remove_last l (listeners s m)]> (ee s) |}).

(** ** BleManagerSensor *)

(** The table is written after [startNotification] has been awaited. *)
Definition subscribe (deviceId service characteristic : string)
    (callback : option Callback) : M unit :=
  BleManager_startNotification deviceId service characteristic;;
  w ← get;
  set_callbacks
    (<[deviceId := {| callback := callback; service := service;
                      characteristic := characteristic |}]> (callbacks w)).

Definition unsubscribe (deviceId : string) : M unit :=
  w ← get;
  match callbacks w !! deviceId with
  | None => ret tt
  | Some info =>
      BleManager_stopNotification deviceId (service info) (characteristic info);;
      w' ← get;
      set_callbacks (delete deviceId (callbacks w'))
  end.

(** ** KiirooControl *)

Definition isConnected : M bool :=
  w ← get;
  match device (this w) with
  | Some d => BleManager_isPeripheralConnected (id d)
  | None => ret false
  end.

(** The guard [!this.device || !(await this.isConnected())]. *)
Definition ready : M (option IDevice) :=
  w ← get;
  match device (this w) with
  | None => ret None
  | Some d => c ← isConnected; ret (if c then Some d else None)
  end.

Definition writeChar (serviceChar : string) (data : list Z)
    (maxByteSize : option Z) : M unit :=
  r ← ready;
  match r with
  | None => reject (RejectedWith deviceNotInitMsg)
  | Some d =>
      BleManager_write (id d) KIIROO_CONTROL_SERVICE_UUID serviceChar data maxByteSize
  end.

Definition readChar (serviceChar : string) : M (list Z) :=
  r ← ready;
  match r with
  | None => reject (RejectedWith deviceNotInitMsg)
  | Some d => BleManager_read (id d) KIIROO_CONTROL_SERVICE_UUID serviceChar
  end.

(** The three [stopNotification] calls of the [forEach] are started and not
    awaited. *)
Definition disconnect : M unit :=
  r ← ready;
  match r with
  | None => reject (RejectedWith deviceNotInitMsg)
  | Some d =>
      not_awaited
        (BleManager_stopNotification (id d) KIIROO_CONTROL_SERVICE_UUID CHAR_X_UUID);;
      not_awaited
        (BleManager_stopNotification (id d) KIIROO_CONTROL_SERVICE_UUID CHAR_Y_UUID);;
      not_awaited
        (BleManager_stopNotification (id d) KIIROO_CONTROL_SERVICE_UUID CHAR_Z_UUID);;
      unsubscribe (id d);;
      (if decide (OS platform = "android")
       then writeChar DISCONNECT_DEVICE_UUID [0] None
       else ret tt);;
      BleManager_disconnect (id d)
  end.

Definition with_data (k : KiirooControl) (d : DeviceData) : KiirooControl :=
  {| device := device k; notificationData := d;
     acceleration := acceleration k; sensor := sensor k |}.

Definition with_acceleration (k : KiirooControl) (a : Z) : KiirooControl :=
  {| device := device k; notificationData := notificationData k;
     acceleration := a; sensor := sensor k |}.

(** The arrow function registered with the Z-axis subscription in [connect]. *)
Definition axis_notification (dev : IDevice) (data : NotificationArgs) : M unit :=
  w ← get;
  (if decide (data_characteristic data = "") then ret tt
   else
     match set_fffx (data_characteristic data) (data_value0 data)
                    (notificationData (this w)) with
     | Ok d' => set_this (with_data (this w) d')
     | Fails err => reject err
     end);;
  w ← get;
  let percent := calculateTotalAcceleration (notificationData (this w)) in
  if decide (acceleration (this w) = percent) then ret tt
  else
    set_this (with_acceleration (this w) percent);;
    emit (Some dev) (Z.min (percent * 20) 100).

(** Calling a registered callback. *)
Definition invoke (cb : Callback) (args : NotificationArgs) : M unit :=
  match cb with AxisCallback dev => axis_notification dev args end.

(** The listener on [BleManagerDidUpdateValueForCharacteristic]. *)
Definition didUpdateValueForCharacteristic (args : NotificationArgs) : M unit :=
  w ← get;
  match callbacks w !! peripheral args with
  | None => ret tt
  | Some info =>
      match callback info with
      | None => ret tt
      | Some cb => invoke cb args
      end
  end.

(** [connect(device)]; [None] is a null device.  The [catch] starts
    [this.disconnect()] without awaiting it. *)
Definition connect (dev : option IDevice) : M unit :=
  match dev with
  | None => reject (RejectedWith deviceNotFound)
  | Some d =>
      w ← get;
      set_this {| device := Some d; notificationData := new_DeviceData;
                  acceleration := acceleration (this w); sensor := sensor (this w) |};;
      try_catch
        (BleManager_connect (id d);;
         BleManager_retrieveServices (id d);;
         subscribe (id d) KIIROO_CONTROL_SERVICE_UUID CHAR_X_UUID None;;
         subscribe (id d) KIIROO_CONTROL_SERVICE_UUID CHAR_Y_UUID None;;
         subscribe (id d) KIIROO_CONTROL_SERVICE_UUID CHAR_Z_UUID
                   (Some (AxisCallback d)))
        (fun err =>
           not_awaited disconnect;;
           reject (RejectedWith (deviceNotFound +:+ ": " +:+ error_to_string err)))
  end.

(** [readData[0]]: [None] is [undefined], the first element of an empty
    array. *)
Definition getBattery : M (option Z) :=
  readData ← readChar BATTERY_LEVEL_UUID;
  ret (head readData).

Definition testDevice : M unit :=
  writeChar TEST_DEVICE_DEVICE_NAME_SERVICE_UUID [0] None.

(** [convertToString(data)]; [None] is a missing argument.  An array is
    truthy, the empty one as well. *)
Definition convertToString (data : option (list Z)) : JSString :=
  match data with
  | Some data => join (map String_fromCharCode data)
  | None => literal "N/A"
  end.

Definition nameMatch (deviceName : JSString) : bool :=
  bool_decide (trim (toUpperCase deviceName) = literal "CONTROL").

Definition deviceName : JSString := literal "control".

Definition getFirmwareVersion : M JSString :=
  data ← readChar FIRMWARE_NUMBER_UUID;
  ret (convertToString (Some data)).

Definition getSerialNumber : M JSString :=
  data ← readChar SERIAL_NUMBER_UUID;
  ret (convertToString (Some data)).

Definition getModelNumber : M JSString :=
  data ← readChar MODEL_NUMBER_UUID;
  ret (convertToString (Some data)).

Definition getManufactureName : M JSString :=
  data ← readChar MANUFACTURER_NAME_UUID;
  ret (convertToString (Some data)).

Definition getDeviceName : M JSString :=
  data ← readChar READ_NAME_UUID;
  ret (convertToString (Some data)).

Definition getHardwareVersion : M JSString :=
  data ← readChar HARDWARE_NUMBER_UUID;
  ret (convertToString (Some data)).

(** [onProgress?.(percent)] *)
Definition report (onProgress : option ProgressCallback) (percent : Z) : M unit :=
  match onProgress with
  | Some cb => record (Progress cb percent)
  | None => ret tt
  end.

(** [flashFirmware(firmware, onProgress)]; [firmware] is an array of bytes,
    and [fuel] bounds the turns of the chunking loop. *)
Definition flashFirmware (fuel : nat) (firmware : list Z)
    (onProgress : option ProgressCallback) : M unit :=
  r ← ready;
  match r with
  | None => reject (RejectedWith deviceNotInitMsg)
  | Some d =>
      let versionNumber := Version platform in
      mtuSize ← (if decide (OS platform = "ios") then ret IOS_MTU_SIZE
                 else BleManager_requestMTU (id d)
                        (if Qle_bool 34 versionNumber
                         then DESIRED_MTU_SIZE_V_14 else DESIRED_MTU_SIZE));
      let packetSize := mtuSize - 3 in
      match split_chunks fuel firmware packetSize with
      | None => out_of_fuel
      | Some chunks =>
          writeChar OTA_DATA_UUID
            [packetSize; if Qle_bool 34 versionNumber then 1 else 0] None;;
          wait SEND_CHUNK_DELAY;;
          writeChar OTA_CONTROL_UUID [1] None;;
          wait SEND_CHUNK_DELAY;;
          _ ← readChar OTA_CONTROL_UUID;
          for_each_chunk
            (fun i chunk =>
               writeChar OTA_DATA_UUID chunk (Some (Z.of_nat (length chunk)));;
               report onProgress (progress_percent i (Z.of_nat (length chunks))))
            0 chunks;;
          (if decide (OS platform = "ios")
           then writeChar OTA_CONTROL_UUID [4] (Some 1)
           else BleManager_writeWithoutResponse (id d) KIIROO_CONTROL_SERVICE_UUID
                  OTA_CONTROL_UUID [4] (Some 1));;
          wait DEVICE_REBOOT_WAIT_TIME;;
          c ← isConnected;
          if c then ret tt else connect (Some d)
      end
  end.

End Facade.
End ReactNative.

(** * The Web Bluetooth facade

    The class [KiirooControl] of the React package: the methods that the
    claims are about, and [connect] and [disconnect], which bring the
    instance into the states they are called in. *)

Module Web.

Definition KIIROO_CONTROL_SERVICE_UUID := 0x1400.
Definition OTA_DATA_UUID := 0x1701.
Definition OTA_CONTROL_UUID := 0x1702.
Definition TEST_DEVICE_DEVICE_NAME_SERVICE_UUID := 0x180a.
Definition BATTERY_LEVEL_UUID := 0x2a19.
Definition FIRMWARE_NUMBER_UUID := 0x2a26.
Definition HARDWARE_NUMBER_UUID := 0x2a27.
Definition SERIAL_NUMBER_UUID := 0x2a25.
Definition MODEL_NUMBER_UUID := 0x2a24.
Definition MANUFACTURER_NAME_UUID := 0x2a29.
Definition READ_NAME_UUID := 0x2a00.
Definition CHAR_X_UUID := 0xfff1.
Definition CHAR_Y_UUID := 0xfff2.
Definition CHAR_Z_UUID := 0xfff3.

Definition DEFAULT_MTU_SIZE := 256.
Definition SEND_CHUNK_DELAY := 1000.
Definition DEVICE_REBOOT_WAIT_TIME := 5000.

Definition deviceNotInitMsg := "The device should be connected first.".

(** The promises of the Web Bluetooth API that the code awaits. *)
Inductive GattCall :=
| GattConnect
| GetPrimaryService (uuid : Z)
| GetCharacteristic (uuid : Z)
| StartNotifications (uuid : Z)
| ReadValue (uuid : Z)
| WriteValue (uuid : Z) (data : list Z).

(** The trace: the awaited calls with their success, the calls of
    [addEventListener], [removeEventListener] and [gatt.disconnect()], the
    timed waits and the calls of the progress callback. *)
Inductive Event :=
| Called (call : GattCall) (ok : bool)
| AddEventListener (uuid : Z)
| RemoveEventListener (uuid : Z)
| GattDisconnect
| Waited (msecs : Z)
| Progress (callback : ProgressCallback) (percent : Z).

Definition History := list Event.

(** The browser's Bluetooth stack and the peripheral behind it: what it
    answers to each call, and the value of [device.gatt.connected], given
    the history so far.  Characteristics are known by their UUID. *)
Record WebBluetooth := {
  gatt_connect_answer : History -> Result unit;
  getPrimaryService_answer : History -> Z -> Result unit;
  getCharacteristic_answer : History -> Z -> Result unit;
  startNotifications_answer : History -> Z -> Result unit;
  readValue_answer : History -> Z -> Result (list Z);
  writeValue_answer : History -> Z -> list Z -> Result unit;
  gatt_connected : History -> bool
}.

(** [BluetoothDevice]: [has_gatt] tells whether [device.gatt] is there. *)
Record BluetoothDevice := { has_gatt : bool }.

Inductive BluetoothRemoteGATTService := PrimaryService (uuid : Z).

(** The fields of the instance that the methods below read or write. *)
Record KiirooControl := {
  device : option BluetoothDevice;
  controlService : option BluetoothRemoteGATTService
}.

Record World := { this : KiirooControl; trace : History }.

Definition new_KiirooControl : KiirooControl :=
  {| device := None; controlService := None |}.

Definition initial_world : World := {| this := new_KiirooControl; trace := [] |}.

Definition M (A : Type) : Type := Prog World A.

Definition record (e : Event) : M unit := fun w =>
  (Resolved tt, {| this := this w; trace := trace w ++ [e] |}).

Definition set_this (k : KiirooControl) : M unit := fun w =>
  (Resolved tt, {| this := k; trace := trace w |}).

Definition wait (msecs : Z) : M unit := record (Waited msecs).

(** [tranformArrayToData] on an array of numbers: each is stored into a
    [Uint8Array], that is, modulo 256.  (An [ArrayBuffer] is viewed as it is.) *)
Definition tranformArrayToData (arr : list Z) : list Z :=
  map (fun v => v mod 256) arr.

Section Facade.
Variable GATT : WebBluetooth.

Definition ask {A} (c : GattCall) (answer : History -> Result A) : M A := fun w =>
  let r := answer (trace w) in
  (settle r, {| this := this w; trace := trace w ++ [Called c (succeeded r)] |}).

Definition gatt_connect : M unit :=
  ask GattConnect (gatt_connect_answer GATT).
Definition getPrimaryService (uuid : Z) : M unit :=
  ask (GetPrimaryService uuid) (fun h => getPrimaryService_answer GATT h uuid).
Definition getCharacteristic (uuid : Z) : M unit :=
  ask (GetCharacteristic uuid) (fun h => getCharacteristic_answer GATT h uuid).
Definition startNotifications (uuid : Z) : M unit :=
  ask (StartNotifications uuid) (fun h => startNotifications_answer GATT h uuid).
Definition readValue (uuid : Z) : M (list Z) :=
  ask (ReadValue uuid) (fun h => readValue_answer GATT h uuid).
Definition writeValue (uuid : Z) (data : list Z) : M unit :=
  ask (WriteValue uuid data) (fun h => writeValue_answer GATT h uuid data).

(** [isConnected()]: [!!this.device?.gatt?.connected] *)
Definition isConnected : M bool :=
  w ← get;
  match device (this w) with
  | Some d => ret (has_gatt d && gatt_connected GATT (trace w))
  | None => ret false
  end.

(** The methods test [!this.controlService || !this.isConnected]: the second
    operand names the method and does not call it.  A function object is
    truthy, whatever the state of the link. *)
Definition isConnected_method_truthy : bool := true.

Definition not_initialized (k : KiirooControl) : bool :=
  negb (bool_decide (is_Some (controlService k))) || negb isConnected_method_truthy.

(** [this.controlService!.getCharacteristic(char)] *)
Definition service_getCharacteristic (uuid : Z) : M unit :=
  w ← get;
  match controlService (this w) with
  | None => reject (ThrownError "Cannot read properties of null")
  | Some _ => getCharacteristic uuid
  end.

(** [setUpListener(char, handler)], by its steps: it awaits
    [getCharacteristic], then [startNotifications], and adds the listener. *)
Definition setUpListener_steps (char : Z) : list (M unit) :=
  [service_getCharacteristic char;
   startNotifications char;
   record (AddEventListener char)].

(** [removeListener(char, handler)]; it starts the notifications as
    [setUpListener] does.  [disconnect] awaits it. *)
Definition removeListener (char : Z) : M unit :=
  service_getCharacteristic char;;
  startNotifications char;;
  record (RemoveEventListener char).

(** [disconnect()]: the errors of the [try] block are caught and logged. *)
Definition disconnect : M unit :=
  try_catch (removeListener CHAR_X_UUID;;
             removeListener CHAR_Y_UUID;;
             removeListener CHAR_Z_UUID)
            (fun _ => ret tt);;
  w ← get;
  match device (this w) with
  | Some _ => record GattDisconnect
  | None => ret tt
  end.

(** [connect(device)]: the three [setUpListener] calls are started one
    after the other and not awaited. *)
Definition connect (dev : BluetoothDevice) : M unit :=
  if negb (has_gatt dev) then
    reject (RejectedWith "The device is invalid or not found")
  else
    w ← get;
    set_this {| device := Some dev; controlService := controlService (this w) |};;
    gatt_connect;;
    getPrimaryService KIIROO_CONTROL_SERVICE_UUID;;
    set_this {| device := Some dev;
                controlService := Some (PrimaryService KIIROO_CONTROL_SERVICE_UUID) |};;
    started_together [setUpListener_steps CHAR_X_UUID;
                      setUpListener_steps CHAR_Y_UUID;
                      setUpListener_steps CHAR_Z_UUID].

(** [getBattery()]: [readData.getUint8(0)] throws on an empty value; the
    [catch] logs what the [try] block throws, and -1 is returned. *)
Definition getBattery : M Z :=
  w ← get;
  if not_initialized (this w) then reject (RejectedWith deviceNotInitMsg)
  else
    getCharacteristic BATTERY_LEVEL_UUID;;
    try_catch
      (readData ← readValue BATTERY_LEVEL_UUID;
       match readData with
       | b :: _ => ret b
       | [] => reject (ThrownError "Offset is outside the bounds of the DataView")
       end)
      (fun _ => ret (-1)).

(** The loop of the getters over the bytes of the value read:
    [chars.push(String.fromCharCode(data.getUint8(i)))], then
    [chars.join('')]. *)
Definition chars_of (data : list Z) : JSString :=
  join (map String_fromCharCode data).

Definition getFirmwareVersion : M JSString :=
  w ← get;
  if not_initialized (this w) then reject (RejectedWith deviceNotInitMsg)
  else
    getCharacteristic FIRMWARE_NUMBER_UUID;;
    data ← readValue FIRMWARE_NUMBER_UUID;
    ret (chars_of data).

Definition getSerialNumber : M JSString :=
  w ← get;
  if not_initialized (this w) then reject (RejectedWith deviceNotInitMsg)
  else
    getCharacteristic SERIAL_NUMBER_UUID;;
    data ← readValue SERIAL_NUMBER_UUID;
    ret (chars_of data).

Definition getModelNumber : M JSString :=
  w ← get;
  if not_initialized (this w) then reject (RejectedWith deviceNotInitMsg)
  else
    getCharacteristic MODEL_NUMBER_UUID;;
    data ← readValue MODEL_NUMBER_UUID;
    ret (chars_of data).

Definition getManufactureName : M JSString :=
  w ← get;
  if not_initialized (this w) then reject (RejectedWith deviceNotInitMsg)
  else
    getCharacteristic MANUFACTURER_NAME_UUID;;
    data ← readValue MANUFACTURER_NAME_UUID;
    ret (chars_of data).

Definition getDeviceName : M JSString :=
  w ← get;
  if not_initialized (this w) then reject (RejectedWith deviceNotInitMsg)
  else
    getCharacteristic READ_NAME_UUID;;
    data ← readValue READ_NAME_UUID;
    ret (chars_of data).

Definition getHardwareVersion : M JSString :=
  w ← get;
  if not_initialized (this w) then reject (RejectedWith deviceNotInitMsg)
  else
    getCharacteristic HARDWARE_NUMBER_UUID;;
    data ← readValue HARDWARE_NUMBER_UUID;
    ret (chars_of data).

(** [isDeviceInitialized()]: the message, or the empty string. *)
Definition isDeviceInitialized (k : KiirooControl) : string :=
  if not_initialized k then deviceNotInitMsg else "".

Definition testDevice : M unit :=
  w ← get;
  if not_initialized (this w) then reject (RejectedWith deviceNotInitMsg)
  else
    getCharacteristic TEST_DEVICE_DEVICE_NAME_SERVICE_UUID;;
    writeValue TEST_DEVICE_DEVICE_NAME_SERVICE_UUID (tranformArrayToData [0]).

(** [if (onProgress) { onProgress(percent) }] *)
Definition report (onProgress : option ProgressCallback) (percent : Z) : M unit :=
  match onProgress with
  | Some cb => record (Progress cb percent)
  | None => ret tt
  end.

(** [flashFirmware(firmware, onProgress)]; [firmware] is the bytes of the
    [ArrayBuffer], and [fuel] bounds the turns of the chunking loop. *)
Definition flashFirmware (fuel : nat) (firmware : list Z)
    (onProgress : option ProgressCallback) : M unit :=
  w ← get;
  if not_initialized (this w) then reject (RejectedWith deviceNotInitMsg)
  else
    let packetSize := DEFAULT_MTU_SIZE - 3 in
    match split_chunks fuel firmware packetSize with
    | None => out_of_fuel
    | Some chunks =>
        getCharacteristic OTA_DATA_UUID;;
        getCharacteristic OTA_CONTROL_UUID;;
        writeValue OTA_DATA_UUID (tranformArrayToData [packetSize; 0]);;
        wait SEND_CHUNK_DELAY;;
        writeValue OTA_CONTROL_UUID (tranformArrayToData [1]);;
        wait SEND_CHUNK_DELAY;;
        for_each_chunk
          (fun i chunk =>
             writeValue OTA_DATA_UUID chunk;;
             report onProgress (progress_percent i (Z.of_nat (length chunks))))
          0 chunks;;
        writeValue OTA_CONTROL_UUID (tranformArrayToData [4]);;
        wait DEVICE_REBOOT_WAIT_TIME
    end.

End Facade.

(** ** Names *)

Definition deviceName : JSString := literal "Control".

Definition nameMatch (name : JSString) : bool :=
  bool_decide (trim (toUpperCase name) = toUpperCase deviceName).

Record RequestDeviceOptions := {
  filters : list JSString;
  optionalServices : list Z
}.

(** [filters: [{ name: this.deviceName }]] *)
Definition requestDeviceOptions : RequestDeviceOptions :=
  {| filters := [deviceName]; optionalServices := [KIIROO_CONTROL_SERVICE_UUID] |}.

(** ** The sensor handlers

    The fields of the instance that the three handlers and
    [setEventListenerCallBack] read or write.  An axis holds what
    [uint8Array[0]] gave: a byte, or [undefined] ([None]) when the buffer of
    the value was empty.  The callback is known by its identity, and its
    calls are recorded with their three arguments. *)

Definition EventListenerCallBackFunction := nat.

Record Sensor := {
  _axisX : option Z;
  _axisY : option Z;
  _axisZ : option Z;
  sensorEventListenerCallBack : option EventListenerCallBackFunction
}.

Record SensorCall := {
  call_function : EventListenerCallBackFunction;
  call_x : option Z;
  call_y : option Z;
  call_z : option Z
}.

Record SensorWorld := { sensor_this : Sensor; sensor_calls : list SensorCall }.

(** The constructor. *)
Definition new_Sensor : Sensor :=
  {| _axisX := Some 0; _axisY := Some 0; _axisZ := Some 0;
     sensorEventListenerCallBack := None |}.

(** [if (this.sensorEventListenerCallBack) { this.sensorEventListenerCallBack(
    this._axisX, this._axisY, this._axisZ) }] *)
Definition call_back (w : SensorWorld) : SensorWorld :=
  match sensorEventListenerCallBack (sensor_this w) with
  | Some cb =>
      {| sensor_this := sensor_this w;
         sensor_calls :=
           sensor_calls w ++
           [{| call_function := cb; call_x := _axisX (sensor_this w);
               call_y := _axisY (sensor_this w);
               call_z := _axisZ (sensor_this w) |}] |}
  | None => w
  end.

(** The handlers; [dataView] is [event.currentTarget?.value], given by the
    bytes of its buffer, and [None] when there is no target or no value. *)
Definition xSensorEventListener (dataView : option (list Z)) (w : SensorWorld)
    : SensorWorld :=
  match dataView with
  | Some buffer =>
      let k := sensor_this w in
      call_back
        {| sensor_this :=
             {| _axisX := head buffer; _axisY := _axisY k; _axisZ := _axisZ k;
                sensorEventListenerCallBack := sensorEventListenerCallBack k |};
           sensor_calls := sensor_calls w |}
  | None => w
  end.

Definition ySensorEventListener (dataView : option (list Z)) (w : SensorWorld)
    : SensorWorld :=
  match dataView with
  | Some buffer =>
      let k := sensor_this w in
      call_back
        {| sensor_this :=
             {| _axisX := _axisX k; _axisY := head buffer; _axisZ := _axisZ k;
                sensorEventListenerCallBack := sensorEventListenerCallBack k |};
           sensor_calls := sensor_calls w |}
  | None => w
  end.

Definition zSensorEventListener (dataView : option (list Z)) (w : SensorWorld)
    : SensorWorld :=
  match dataView with
  | Some buffer =>
      let k := sensor_this w in
      call_back
        {| sensor_this :=
             {| _axisX := _axisX k; _axisY := _axisY k; _axisZ := head buffer;
                sensorEventListenerCallBack := sensorEventListenerCallBack k |};
           sensor_calls := sensor_calls w |}
  | None => w
  end.

Definition setEventListenerCallBack (cb : EventListenerCallBackFunction)
    (w : SensorWorld) : SensorWorld :=
  let k := sensor_this w in
  {| sensor_this :=
       {| _axisX := _axisX k; _axisY := _axisY k; _axisZ := _axisZ k;
          sensorEventListenerCallBack := Some cb |};
     sensor_calls := sensor_calls w |}.

(** A [characteristicvaluechanged] event on the characteristic [char] runs
    the handler that [connect] paired with it in [setUpListener]. *)
Definition characteristicvaluechanged (char : Z) (dataView : option (list Z))
    (w : SensorWorld) : SensorWorld :=
  if decide (char = CHAR_X_UUID) then xSensorEventListener dataView w
  else if decide (char = CHAR_Y_UUID) then ySensorEventListener dataView w
  else if decide (char = CHAR_Z_UUID) then zSensorEventListener dataView w
  else w.

End Web.

(** * Facts about JavaScript numbers *)

Module JSNumberFacts.
Import JSNumber.
Local Open Scope Q_scope.

(** ** Powers of two *)

Lemma pow2_pos (e : Z) : 0 < 2 ^ e.
Proof. apply Qpower_0_lt. reflexivity. Qed.

Lemma pow2_add (a b : Z) : 2 ^ (a + b) == 2 ^ a * 2 ^ b.
Proof. apply Qpower_plus. discriminate. Qed.

Lemma pow2_succ (a : Z) : 2 ^ (a + 1) == 2 * 2 ^ a.
Proof. rewrite pow2_add. change (2 ^ 1) with 2. ring. Qed.

Lemma pow2_le (a b : Z) : (a <= b)%Z -> 2 ^ a <= 2 ^ b.
Proof. intros H. apply Qpower_le_compat_l; [exact H | discriminate]. Qed.

Lemma pow2_lt_inv (a b : Z) : 2 ^ a < 2 ^ b -> (a < b)%Z.
Proof. intros H. apply (Qpower_lt_compat_l_inv 2); [exact H | reflexivity]. Qed.

Lemma pow2_inject (n : Z) : (0 <= n)%Z -> inject_Z (2 ^ n) == 2 ^ n.
Proof. intros H. apply (Zpower_Qpower 2 n H). Qed.

Lemma inject_Z_log2_bounds (p : Z) :
  (0 < p)%Z -> 2 ^ Z.log2 p <= inject_Z p /\ inject_Z p < 2 * 2 ^ Z.log2 p.
Proof.
  intros Hp. destruct (Z.log2_spec p Hp) as [Hlo Hhi].
  pose proof (Z.log2_nonneg p) as Hnn.
  split.
  - rewrite <- pow2_inject by exact Hnn. rewrite <- Zle_Qle. exact Hlo.
  - rewrite <- pow2_succ. rewrite <- pow2_inject by lia.
    rewrite <- Zlt_Qlt. exact Hhi.
Qed.

Lemma floor_log2_spec (x : Q) :
  0 < x -> 2 ^ floor_log2 x <= x /\ x < 2 ^ (floor_log2 x + 1).
Proof.
  intros Hx. unfold floor_log2.
  set (a := Z.log2 (Qnum x)). set (b := Z.log2 (Z.pos (Qden x))).
  assert (Hp : (0 < Qnum x)%Z).
  { destruct x as [p q]. unfold Qlt in Hx. simpl in *. lia. }
  destruct (inject_Z_log2_bounds (Qnum x) Hp) as [Ha1 Ha2].
  destruct (inject_Z_log2_bounds (Z.pos (Qden x)) eq_refl) as [Hb1 Hb2].
  fold a in Ha1, Ha2. fold b in Hb1, Hb2.
  assert (Hx' : x * inject_Z (Z.pos (Qden x)) == inject_Z (Qnum x)).
  { destruct x as [p q]. unfold Qeq, Qmult, inject_Z. simpl. lia. }
  assert (Hab : 2 ^ a == 2 ^ (a - b) * 2 ^ b).
  { rewrite <- pow2_add. replace (a - b + b)%Z with a by lia. reflexivity. }
  pose proof (pow2_pos (a - b)) as HD. pose proof (pow2_pos b) as HB.
  assert (Hm : 2 ^ (a - b) == 2 * 2 ^ (a - b - 1)).
  { rewrite <- pow2_succ. replace (a - b - 1 + 1)%Z with (a - b)%Z by lia. reflexivity. }
  revert Ha1 Ha2 Hb1 Hb2 Hx' Hab HD HB Hm.
  generalize (inject_Z (Qnum x)) (inject_Z (Z.pos (Qden x))).
  intros P D Ha1 Ha2 Hb1 Hb2 Hx' Hab HD HB Hm.
  destruct (Qle_bool (2 ^ (a - b)) x) eqn:Hc.
  - apply Qle_bool_iff in Hc. split; [exact Hc |].
    rewrite pow2_succ.
    revert Ha1 Ha2 Hb1 Hb2 Hx' Hab HD HB Hm Hc.
    generalize (2 ^ (a - b)) (2 ^ a) (2 ^ b). intros. nra.
  - assert (Hlt : x < 2 ^ (a - b)).
    { apply Qnot_le_lt. intros H. apply Qle_bool_iff in H. congruence. }
    replace (a - b - 1 + 1)%Z with (a - b)%Z by lia.
    split; [| exact Hlt].
    revert Ha1 Ha2 Hb1 Hb2 Hx' Hab HD HB Hm Hlt.
    generalize (2 ^ (a - b)) (2 ^ a) (2 ^ b) (2 ^ (a - b - 1)). intros. nra.
Qed.

Lemma floor_log2_unique (x : Q) (e : Z) :
  2 ^ e <= x -> x < 2 ^ (e + 1) -> floor_log2 x = e.
Proof.
  intros Hlo Hhi.
  assert (Hx : 0 < x) by (eapply Qlt_le_trans; [apply pow2_pos | exact Hlo]).
  destruct (floor_log2_spec x Hx) as [Hlo' Hhi'].
  assert (floor_log2 x < e + 1)%Z.
  { apply pow2_lt_inv. eapply Qle_lt_trans; eassumption. }
  assert (e < floor_log2 x + 1)%Z.
  { apply pow2_lt_inv. eapply Qle_lt_trans; eassumption. }
  lia.
Qed.

Lemma floor_log2_mono (x y : Q) :
  0 < x -> x <= y -> (floor_log2 x <= floor_log2 y)%Z.
Proof.
  intros Hx Hxy.
  assert (Hy : 0 < y) by (eapply Qlt_le_trans; eassumption).
  destruct (floor_log2_spec x Hx) as [Hlo _].
  destruct (floor_log2_spec y Hy) as [_ Hhi].
  assert (floor_log2 x < floor_log2 y + 1)%Z.
  { apply pow2_lt_inv. eapply Qle_lt_trans; [exact Hlo |].
    eapply Qle_lt_trans; eassumption. }
  lia.
Qed.


(** ** Rounding is monotone *)

Lemma rne_bounds (x : Q) : (Qfloor x <= rne x <= Qfloor x + 1)%Z.
Proof.
  unfold rne. destruct (Qcompare _ _); [destruct (Z.even _) | |]; lia.
Qed.

Lemma rne_Z (k : Z) : rne (inject_Z k) = k.
Proof.
  unfold rne. rewrite Qfloor_Z.
  destruct (Qcompare_spec (inject_Z k - inject_Z k) (1 # 2)) as [H|H|H].
  - exfalso. lra.
  - reflexivity.
  - exfalso. lra.
Qed.

Lemma rne_mono (x y : Q) : x <= y -> (rne x <= rne y)%Z.
Proof.
  intros Hxy. pose proof (Qfloor_resp_le x y Hxy) as Hf.
  pose proof (rne_bounds x) as Bx. pose proof (rne_bounds y) as By.
  destruct (Z.eq_dec (Qfloor x) (Qfloor y)) as [E|NE]; [| lia].
  unfold rne in *. rewrite <- E in *. clear Bx By Hf.
  destruct (Qcompare_spec (x - inject_Z (Qfloor x)) (1 # 2)) as [Hx|Hx|Hx];
    destruct (Qcompare_spec (y - inject_Z (Qfloor x)) (1 # 2)) as [Hy|Hy|Hy];
    try lia; try (destruct (Z.even (Qfloor x)); lia); exfalso; lra.
Qed.

Lemma rne_le_Z (x : Q) (k : Z) : x <= inject_Z k -> (rne x <= k)%Z.
Proof. intros H. rewrite <- (rne_Z k). apply rne_mono, H. Qed.

Lemma rne_ge_Z (x : Q) (k : Z) : inject_Z k <= x -> (k <= rne x)%Z.
Proof. intros H. rewrite <- (rne_Z k). apply rne_mono, H. Qed.

Lemma ulp_exponent_mono (x y : Q) :
  0 < x -> x <= y -> (ulp_exponent x <= ulp_exponent y)%Z.
Proof.
  intros Hx Hxy. unfold ulp_exponent.
  pose proof (floor_log2_mono x y Hx Hxy). lia.
Qed.

Lemma scaled_lt (x : Q) :
  0 < x -> x / 2 ^ ulp_exponent x < inject_Z (2 ^ 53).
Proof.
  intros Hx. destruct (floor_log2_spec x Hx) as [_ Hhi].
  apply Qlt_shift_div_r; [apply pow2_pos |].
  rewrite pow2_inject by lia. rewrite <- pow2_add.
  eapply Qlt_le_trans; [exact Hhi |]. apply pow2_le.
  unfold ulp_exponent. lia.
Qed.

Lemma scaled_ge (x : Q) :
  0 < x -> (-1074 < ulp_exponent x)%Z ->
  inject_Z (2 ^ 52) <= x / 2 ^ ulp_exponent x.
Proof.
  intros Hx He. destruct (floor_log2_spec x Hx) as [Hlo _].
  apply Qle_shift_div_l; [apply pow2_pos |].
  rewrite pow2_inject by lia. rewrite <- pow2_add.
  eapply Qle_trans; [| exact Hlo]. apply pow2_le.
  unfold ulp_exponent in *. lia.
Qed.

Lemma round_pos_mono (x y : Q) :
  0 < x -> x <= y -> round_pos x <= round_pos y.
Proof.
  intros Hx Hxy.
  assert (Hy : 0 < y) by (eapply Qlt_le_trans; eassumption).
  pose proof (ulp_exponent_mono x y Hx Hxy) as He.
  unfold round_pos.
  destruct (Z.eq_dec (ulp_exponent x) (ulp_exponent y)) as [E|NE].
  - rewrite <- E. apply Qmult_le_compat_r; [| apply Qlt_le_weak, pow2_pos].
    rewrite <- Zle_Qle. apply rne_mono.
    apply Qmult_le_compat_r; [exact Hxy |].
    apply Qlt_le_weak, Qinv_lt_0_compat, pow2_pos.
  - assert (Hlt : (ulp_exponent x + 1 <= ulp_exponent y)%Z) by lia.
    assert (Hyl : (-1074 < ulp_exponent y)%Z) by (unfold ulp_exponent in *; lia).
    pose proof (rne_le_Z _ _ (Qlt_le_weak _ _ (scaled_lt x Hx))) as Ux.
    pose proof (rne_ge_Z _ _ (scaled_ge y Hy Hyl)) as Ly.
    rewrite Zle_Qle in Ux. rewrite Zle_Qle in Ly.
    pose proof (pow2_le _ _ Hlt) as Hp. rewrite pow2_succ in Hp.
    pose proof (pow2_pos (ulp_exponent x)) as Px.
    pose proof (pow2_pos (ulp_exponent y)) as Py.
    change (inject_Z (2 ^ 53)) with (2 * inject_Z (2 ^ 52)) in Ux.
    assert (P52 : 0 < inject_Z (2 ^ 52)) by reflexivity.
    revert Ux Ly Hp Px Py P52.
    generalize (inject_Z (rne (x / 2 ^ ulp_exponent x)))
               (inject_Z (rne (y / 2 ^ ulp_exponent y)))
               (2 ^ ulp_exponent x) (2 ^ ulp_exponent y) (inject_Z (2 ^ 52)).
    intros. nra.
Qed.

Lemma round_pos_nonneg (x : Q) : 0 < x -> 0 <= round_pos x.
Proof.
  intros Hx. unfold round_pos.
  apply Qmult_le_0_compat; [| apply Qlt_le_weak, pow2_pos].
  change 0 with (inject_Z 0). rewrite <- Zle_Qle. apply rne_ge_Z.
  apply Qle_shift_div_l; [apply pow2_pos |].
  change (inject_Z 0) with 0. lra.
Qed.

Lemma round_binary64_mono (x y : Q) :
  0 <= x -> x <= y -> round_binary64 x <= round_binary64 y.
Proof.
  intros Hx Hxy. unfold round_binary64.
  destruct (Qcompare_spec x 0) as [Ex|Lx|Gx];
    destruct (Qcompare_spec y 0) as [Ey|Ly|Gy]; try (exfalso; lra).
  - apply Qle_refl.
  - apply round_pos_nonneg, Gy.
  - apply round_pos_mono; assumption.
Qed.

Lemma round_binary64_nonneg (x : Q) : 0 <= x -> 0 <= round_binary64 x.
Proof.
  intros Hx. change 0 with (round_binary64 0) at 1.
  apply round_binary64_mono; [apply Qle_refl | exact Hx].
Qed.

Lemma Math_round_mono (x y : Q) : x <= y -> (Math_round x <= Math_round y)%Z.
Proof. intros H. unfold Math_round. apply Qfloor_resp_le. lra. Qed.


(** ** The operations respect equality of rationals *)

Lemma rne_comp (x y : Q) : x == y -> rne x = rne y.
Proof.
  intros E. apply Z.le_antisymm; apply rne_mono; rewrite E; apply Qle_refl.
Qed.

Lemma floor_log2_comp (x y : Q) : 0 < x -> x == y -> floor_log2 x = floor_log2 y.
Proof.
  intros Hx E. symmetry.
  destruct (floor_log2_spec x Hx) as [Hlo Hhi].
  apply floor_log2_unique; rewrite <- E; assumption.
Qed.

Lemma rne_sqrt_comp (x y : Q) : x == y -> rne_sqrt x = rne_sqrt y.
Proof.
  intros E. unfold rne_sqrt. rewrite (Qfloor_comp _ _ E).
  set (s := Z.sqrt (Qfloor y)).
  rewrite (Qcompare_comp x y E _ _ (Qeq_refl _)). reflexivity.
Qed.

Lemma Math_sqrt_comp (x y : Q) : x == y -> Math_sqrt x == Math_sqrt y.
Proof.
  intros E. unfold Math_sqrt.
  rewrite (Qcompare_comp x y E 0 0 (Qeq_refl 0)).
  destruct (Qcompare_spec y 0) as [H|H|H]; try reflexivity.
  assert (Hx : 0 < x) by (rewrite E; exact H).
  rewrite (floor_log2_comp x y Hx E).
  set (e := (floor_log2 y / 2 - 52)%Z).
  assert (Et : x / 4 ^ e == y / 4 ^ e) by (rewrite E; reflexivity).
  rewrite (rne_sqrt_comp _ _ Et). reflexivity.
Qed.

(** ** Integers below 2^53 are represented exactly *)

Lemma scale_neg_exponent (k e : Z) :
  (e <= 0)%Z -> inject_Z k / 2 ^ e == inject_Z (k * 2 ^ (- e)).
Proof.
  intros He. rewrite inject_Z_mult, pow2_inject by lia.
  unfold Qdiv. rewrite <- Qpower_opp. reflexivity.
Qed.

Lemma round_binary64_Z (k : Z) :
  (0 <= k < 2 ^ 53)%Z -> round_binary64 (inject_Z k) == inject_Z k.
Proof.
  intros [Hk0 Hk]. unfold round_binary64.
  destruct (Qcompare_spec (inject_Z k) 0) as [H|H|H].
  - rewrite H. reflexivity.
  - exfalso. change 0 with (inject_Z 0) in H. rewrite <- Zlt_Qlt in H. lia.
  - destruct (floor_log2_spec _ H) as [Hlo Hhi].
    assert (Hu : (floor_log2 (inject_Z k) < 53)%Z).
    { apply pow2_lt_inv. eapply Qle_lt_trans; [exact Hlo |].
      rewrite <- pow2_inject by lia. rewrite <- Zlt_Qlt. exact Hk. }
    assert (Hl : (0 < floor_log2 (inject_Z k) + 1)%Z).
    { apply pow2_lt_inv. eapply Qle_lt_trans; [| exact Hhi].
      change (2 ^ 0) with (inject_Z 1). rewrite <- Zle_Qle.
      change 0 with (inject_Z 0) in H. rewrite <- Zlt_Qlt in H. lia. }
    unfold round_pos, ulp_exponent.
    set (e := Z.max (floor_log2 (inject_Z k) - 52) (-1074)).
    assert (He : (e <= 0)%Z) by lia.
    rewrite (rne_comp _ _ (scale_neg_exponent k e He)), rne_Z.
    rewrite inject_Z_mult, pow2_inject by lia.
    rewrite <- Qmult_assoc, <- pow2_add.
    replace (- e + e)%Z with 0%Z by lia. change (2 ^ 0) with 1. ring.
Qed.

(** ** Square roots *)

Lemma rne_sqrt_bounds (t : Q) :
  (Z.sqrt (Qfloor t) <= rne_sqrt t <= Z.sqrt (Qfloor t) + 1)%Z.
Proof.
  unfold rne_sqrt. cbv zeta.
  destruct (Qcompare _ _); [destruct (Z.even _) | |]; lia.
Qed.

Lemma pow4_pow2 (e : Z) : 4 ^ e == 2 ^ e * 2 ^ e.
Proof. change 4 with (2 * 2). apply Qmult_power. Qed.

(** Saturation: from 21 upward the computed square root is at least 4.5,
    so Math.round of it is at least 5. *)
Lemma Math_sqrt_saturates (x : Q) : 21 <= x -> 9 # 2 <= Math_sqrt x.
Proof.
  intros H21. assert (Hx : 0 < x) by lra.
  unfold Math_sqrt.
  destruct (Qcompare_spec x 0) as [H|H|_]; [exfalso; lra | exfalso; lra |].
  destruct (floor_log2_spec x Hx) as [Hlo _].
  set (e := (floor_log2 x / 2 - 52)%Z).
  set (t := x / 4 ^ e).
  pose proof (pow2_pos e) as HE.
  assert (H4 : 0 < 4 ^ e) by (apply Qpower_0_lt; reflexivity).
  assert (Hxt : x == t * 4 ^ e).
  { unfold t. field. intros Z0. rewrite Z0 in H4. discriminate H4. }
  assert (Ht : inject_Z (2 ^ 104) <= t).
  { unfold t. apply Qle_shift_div_l; [exact H4 |].
    rewrite pow2_inject by lia. rewrite pow4_pow2, <- !pow2_add.
    eapply Qle_trans; [| exact Hlo]. apply pow2_le.
    pose proof (Z.mul_div_le (floor_log2 x) 2 eq_refl). unfold e. lia. }
  assert (Hf : (2 ^ 104 <= Qfloor t)%Z).
  { rewrite <- (Qfloor_Z (2 ^ 104)). apply Qfloor_resp_le, Ht. }
  assert (Hs : (2 ^ 52 <= Z.sqrt (Qfloor t))%Z).
  { change (2 ^ 52)%Z with (Z.sqrt (2 ^ 104)). apply Z.sqrt_le_mono, Hf. }
  destruct (Z.sqrt_spec (Qfloor t)) as [_ Hup]; [lia |].
  destruct (rne_sqrt_bounds t) as [Hm _].
  assert (Htm : t < inject_Z ((rne_sqrt t + 1) * (rne_sqrt t + 1))).
  { eapply Qlt_le_trans; [apply Qlt_floor |].
    rewrite <- Zle_Qle. unfold Z.succ in Hup. nia. }
  assert (Hm52 : inject_Z (2 ^ 52) <= inject_Z (rne_sqrt t)).
  { rewrite <- Zle_Qle. lia. }
  rewrite inject_Z_mult, inject_Z_plus in Htm.
  rewrite pow4_pow2 in Hxt.
  change (inject_Z 1) with 1 in Htm.
  change (inject_Z (2 ^ 52)) with 4503599627370496 in Hm52.
  revert Hxt Htm Hm52 HE. clear - H21.
  generalize (inject_Z (rne_sqrt t)) (2 ^ e). intros m E Hxt Htm Hm52 HE.
  apply Qnot_lt_le. intros Hc.
  assert (HE1 : E * 4503599627370496 <= m * E) by nra.
  assert (HE2 : E < 1 # 100) by lra.
  assert (HmE : (m + 1) * E < 451 # 100) by lra.
  assert (HmE0 : 0 < (m + 1) * E) by nra.
  assert (Hsq : ((m + 1) * E) * ((m + 1) * E) < 21) by nra.
  assert (Hx2 : x < ((m + 1) * E) * ((m + 1) * E)).
  { rewrite Hxt. nra. }
  lra.
Qed.

(** ** Checking a predicate on a range of integers *)

Fixpoint forall_from (fuel : nat) (n : Z) (P : Z -> bool) : bool :=
  match fuel with
  | O => true
  | S fuel' => P n && forall_from fuel' (n + 1)%Z P
  end.

Lemma forall_from_spec (P : Z -> bool) (fuel : nat) (n : Z) :
  forall_from fuel n P = true ->
  forall k, (n <= k < n + Z.of_nat fuel)%Z -> P k = true.
Proof.
  revert n. induction fuel as [|fuel IH]; intros n H k Hk; [lia |].
  simpl in H. apply andb_true_iff in H. destruct H as [H0 H1].
  destruct (Z.eq_dec k n) as [->|NE]; [exact H0 |].
  apply (IH (n + 1)%Z H1). lia.
Qed.

(** ** The error of rounding *)

Lemma rne_close (y : Q) :
  inject_Z (rne y) - y <= 1 # 2 /\ y - inject_Z (rne y) <= 1 # 2.
Proof.
  pose proof (Qfloor_le y) as Hlo. pose proof (Qlt_floor y) as Hhi.
  rewrite inject_Z_plus in Hhi. change (inject_Z 1) with 1 in Hhi.
  unfold rne.
  destruct (Qcompare_spec (y - inject_Z (Qfloor y)) (1 # 2)) as [H|H|H].
  - destruct (Z.even (Qfloor y));
      [| rewrite inject_Z_plus; change (inject_Z 1) with 1]; lra.
  - lra.
  - rewrite inject_Z_plus. change (inject_Z 1) with 1. lra.
Qed.

(** The relative error of a rounding to 53 bits is at most [2^-53], away
    from the subnormal values. *)
Lemma round_pos_close (x : Q) :
  0 < x -> (-1022 <= floor_log2 x)%Z ->
  x * (1 - (1 # 2 ^ 53)) <= round_pos x <= x * (1 + (1 # 2 ^ 53)).
Proof.
  intros Hx He. unfold round_pos.
  assert (Hu : ulp_exponent x = (floor_log2 x - 52)%Z) by (unfold ulp_exponent; lia).
  rewrite Hu. set (e := (floor_log2 x - 52)%Z).
  destruct (floor_log2_spec x Hx) as [Hlo _].
  assert (Hp : 2 ^ floor_log2 x == inject_Z (2 ^ 52) * 2 ^ e).
  { rewrite pow2_inject by lia. rewrite <- pow2_add.
    replace (52 + e)%Z with (floor_log2 x) by (unfold e; lia). reflexivity. }
  rewrite Hp in Hlo.
  pose proof (pow2_pos e) as HP.
  destruct (rne_close (x / 2 ^ e)) as [H1 H2].
  assert (Hy : x == x / 2 ^ e * 2 ^ e).
  { field. intros E. rewrite E in HP. apply (Qlt_irrefl 0), HP. }
  revert H1 H2 Hy Hlo HP.
  generalize (inject_Z (rne (x / 2 ^ e))) (x / 2 ^ e) (2 ^ e).
  intros r y P H1 H2 Hy Hlo HP.
  change (inject_Z (2 ^ 52)) with (4503599627370496 # 1) in Hlo.
  change (1 # 2 ^ 53) with (1 # 9007199254740992).
  split; nra.
Qed.

Lemma round_binary64_close (x : Q) :
  0 < x -> (-1022 <= floor_log2 x)%Z ->
  x * (1 - (1 # 2 ^ 53)) <= round_binary64 x <= x * (1 + (1 # 2 ^ 53)).
Proof.
  intros Hx He. unfold round_binary64.
  destruct (Qcompare_spec x 0) as [E|L|G]; [exfalso; lra | exfalso; lra |].
  apply round_pos_close; assumption.
Qed.

Lemma floor_log2_lower (x : Q) (e : Z) : 2 ^ e <= x -> (e <= floor_log2 x)%Z.
Proof.
  intros Hx.
  assert (Hpos : 0 < x) by (eapply Qlt_le_trans; [apply pow2_pos | exact Hx]).
  destruct (floor_log2_spec x Hpos) as [_ Hhi].
  assert (H : 2 ^ e < 2 ^ (floor_log2 x + 1)) by (eapply Qle_lt_trans; eassumption).
  apply pow2_lt_inv in H. lia.
Qed.

Lemma Qfloor_between (y : Q) (m : Z) :
  inject_Z m <= y -> y < inject_Z m + 1 -> Qfloor y = m.
Proof.
  intros Hlo Hhi.
  apply Qfloor_resp_le in Hlo. rewrite Qfloor_Z in Hlo.
  assert (Hf : inject_Z (Qfloor y) < inject_Z (m + 1)).
  { rewrite inject_Z_plus. change (inject_Z 1) with 1.
    eapply Qle_lt_trans; [apply Qfloor_le | exact Hhi]. }
  rewrite <- Zlt_Qlt in Hf. lia.
Qed.

Lemma round_binary64_zero (x : Q) : x == 0 -> round_binary64 x = 0.
Proof. intros E. unfold round_binary64. apply Qeq_alt in E. rewrite E. reflexivity. Qed.

End JSNumberFacts.

(** ** The model against the kernel's binary64 floats

    Rocq's primitive floats are the IEEE 754 binary64 operations of the
    machine.  On the inputs below they compute the same values as the rational
    model, among them the cases where rounding shows, such as
    [23 / 40 * 100 = 57.49999999999999]. *)

Module Binary64.
Import Stdlib.Floats.Floats.
Import JSNumber JSNumberFacts.
Local Open Scope Q_scope.

Definition float_value (f : float) : option Q :=
  match Prim2SF f with
  | S754_zero _ => Some 0
  | S754_finite s m e =>
      Some ((if s then - (1) else 1) * inject_Z (Z.pos m) * 2 ^ e)
  | _ => None
  end.

Definition float_of_Z (z : Z) : float := PrimFloat.of_uint63 (Stdlib.Numbers.Cyclic.Int63.Uint63.of_Z z).

Definition same_value (f : float) (q : Q) : bool :=
  match float_value f with
  | Some v => Qeq_bool v q
  | None => false
  end.

Definition percent_agrees (total i : Z) : bool :=
  same_value
    (PrimFloat.mul (PrimFloat.div (float_of_Z i) (float_of_Z total))
                   (float_of_Z 100))
    (Nmul (Ndiv (inject_Z i) (inject_Z total)) 100).

Definition sqrt_agrees (n : Z) : bool :=
  same_value (PrimFloat.sqrt (float_of_Z n)) (Math_sqrt (inject_Z n)).

Lemma percent_matches_floats (total i : Z) :
  (0 <= i < total)%Z -> (total <= 100)%Z -> percent_agrees total i = true.
Proof.
  intros Hi Ht.
  assert (Hall : forall_from 100 1
            (fun n => forall_from (Z.to_nat n) 0 (percent_agrees n)) = true)
    by (vm_compute; reflexivity).
  assert (Hrow : forall_from (Z.to_nat total) 0 (percent_agrees total) = true)
    by (apply (forall_from_spec _ _ _ Hall); lia).
  apply (forall_from_spec _ _ _ Hrow). lia.
Qed.

Lemma sqrt_matches_floats (n : Z) :
  (0 <= n < 2000)%Z -> sqrt_agrees n = true.
Proof.
  intros Hn.
  assert (Hall : forall_from 2000 0 sqrt_agrees = true)
    by (vm_compute; reflexivity).
  apply (forall_from_spec _ _ _ Hall). lia.
Qed.

Example rounding_shows_23_of_40 :
  Math_round (Nmul (Ndiv 23 40) 100) = 57%Z /\ percent_agrees 40 23 = true.
Proof. split; vm_compute; reflexivity. Qed.

End Binary64.

(** * Facts about chunking *)

Lemma Zdiv_between (a b q : Z) :
  0 < b -> b * q <= a < b * (q + 1) -> a / b = q.
Proof.
  intros Hb H. symmetry. apply (Z.div_unique a b q (a - b * q)); lia.
Qed.

Section ChunkingFacts.
Context {A : Type}.
Implicit Types (firmware : list A).

Lemma slice_take_drop (l : list A) (i p : Z) :
  0 <= i -> 0 <= p ->
  slice l i (i + p) = take (Z.to_nat p) (drop (Z.to_nat i) l).
Proof.
  intros Hi Hp. unfold slice, relative_index.
  destruct (Z.ltb_spec i 0); [lia |].
  destruct (Z.ltb_spec (i + p) 0); [lia |].
  destruct (Z_le_gt_dec (Z.of_nat (length l)) i) as [Hge|Hlt].
  - rewrite !drop_ge by lia. by rewrite !take_nil.
  - rewrite (Z.min_l i) by lia.
    destruct (Z_le_gt_dec (i + p) (Z.of_nat (length l))) as [H1|H1].
    + rewrite Z.min_l by lia. f_equal. lia.
    + rewrite Z.min_r by lia.
      rewrite !take_ge; [done | |]; rewrite length_drop; lia.
Qed.

Lemma chunk_loop_spec (firmware : list A) (packetSize : Z) :
  1 <= packetSize ->
  forall (fuel : nat) (i : Z) (chunks : list (list A)),
    0 <= i ->
    Z.of_nat (length firmware) - i <= Z.of_nat fuel * packetSize ->
    exists cs,
      chunk_loop fuel firmware packetSize i chunks = Some (chunks ++ cs) /\
      concat cs = drop (Z.to_nat i) firmware /\
      Z.of_nat (length cs) =
        (Z.max (Z.of_nat (length firmware) - i) 0 + packetSize - 1) / packetSize /\
      forall k : nat, (k < length cs)%nat ->
        cs !! k = Some (take (Z.to_nat packetSize)
                          (drop (Z.to_nat (i + Z.of_nat k * packetSize)) firmware)).
Proof.
  intros HP. induction fuel as [|fuel IH]; intros i chunks Hi Hfuel.
  - exists []. simpl. destruct (Z.ltb_spec i (Z.of_nat (length firmware))); [lia |].
    rewrite app_nil_r. repeat split.
    + rewrite drop_ge; [done | lia].
    + rewrite Z.max_r by lia. symmetry. apply Z.div_small. lia.
    + simpl. lia.
  - simpl. destruct (Z.ltb_spec i (Z.of_nat (length firmware))) as [Hlt|Hge].
    + destruct (IH (i + packetSize)
                  (chunks ++ [slice firmware i (i + packetSize)]))
        as (cs & Hrun & Hcat & Hlen & Hnth); [lia | lia |].
      exists (slice firmware i (i + packetSize) :: cs).
      rewrite Hrun, <- app_assoc. simpl.
      rewrite slice_take_drop by lia.
      repeat split.
      * rewrite Hcat. etrans; [| apply (take_drop (Z.to_nat packetSize))].
        f_equal. rewrite drop_drop. f_equal. lia.
      * rewrite Nat2Z.inj_succ, Hlen.
        rewrite (Z.max_l (Z.of_nat (length firmware) - i)) by lia.
        destruct (Z_le_gt_dec (Z.of_nat (length firmware) - (i + packetSize)) 0).
        -- rewrite Z.max_r by lia. rewrite (Z.div_small (0 + packetSize - 1)) by lia.
           rewrite (Zdiv_between _ _ 1); lia.
        -- rewrite Z.max_l by lia.
           replace (Z.of_nat (length firmware) - i + packetSize - 1)
             with (Z.of_nat (length firmware) - (i + packetSize) + packetSize - 1
                   + 1 * packetSize) by lia.
           rewrite Z.div_add by lia. lia.
      * intros [|k] Hk; simpl.
        -- do 3 f_equal. lia.
        -- rewrite Hnth by (simpl in Hk; lia). do 3 f_equal. lia.
    + exists []. rewrite app_nil_r. repeat split.
      * rewrite drop_ge; [done | lia].
      * rewrite Z.max_r by lia. symmetry. apply Z.div_small. lia.
      * simpl. lia.
Qed.

End ChunkingFacts.

(** * What a transfer shows to the outside

    The part of a trace that the progress claims are about: the payloads
    written with success to the OTA data characteristic, and the percentages
    handed to the progress callback, in the order in which they happen. *)

Inductive OtaStep :=
| Wrote (data : list Z)
| Reported (percent : Z).

(** What streaming the chunks shows when every write succeeds: each chunk,
    followed by the callback's percentage for its index when there is a
    callback. *)
Fixpoint stream_view (reporting : bool) (total i : Z) (chunks : list (list Z))
    : list OtaStep :=
  match chunks with
  | [] => []
  | chunk :: rest =>
      Wrote chunk ::
      (if reporting then [Reported (progress_percent i total)] else []) ++
      stream_view reporting total (i + 1) rest
  end.

Definition reported (steps : list OtaStep) : list Z :=
  omap (fun s => match s with Reported p => Some p | Wrote _ => None end) steps.

Definition written (steps : list OtaStep) : list (list Z) :=
  omap (fun s => match s with Wrote d => Some d | Reported _ => None end) steps.

Section Observed.
Context {W : Type} (view : W -> list OtaStep).

(** Running [m] from [w] adds [steps] to the view, and [R] relates them to
    the outcome. *)
Definition observes {A} (m : Prog W A) (w : W)
    (R : Outcome A -> list OtaStep -> Prop) : Prop :=
  exists steps, view (snd (m w)) = view w ++ steps /\ R (fst (m w)) steps.

(** [m] adds nothing to the view. *)
Definition quiet {A} (m : Prog W A) : Prop :=
  forall w, view (snd (m w)) = view w.

Lemma quiet_ret {A} (a : A) : quiet (ret a).
Proof. intros w. reflexivity. Qed.

Lemma quiet_reject {A} (err : JSError) : quiet (@reject W A err).
Proof. intros w. reflexivity. Qed.

Lemma quiet_get : quiet (@get W).
Proof. intros w. reflexivity. Qed.

Lemma quiet_bind {A B} (m : Prog W A) (f : A -> Prog W B) :
  quiet m -> (forall a, quiet (f a)) -> quiet (bind m f).
Proof.
  intros Hm Hf w. unfold bind. specialize (Hm w).
  destruct (m w) as [[a|err|] w1]; simpl in *; try exact Hm.
  rewrite Hf. exact Hm.
Qed.

Lemma quiet_try_catch {A} (m : Prog W A) (h : JSError -> Prog W A) :
  quiet m -> (forall err, quiet (h err)) -> quiet (try_catch m h).
Proof.
  intros Hm Hh w. unfold try_catch. specialize (Hm w).
  destruct (m w) as [[a|err|] w1]; simpl in *; try exact Hm.
  rewrite Hh. exact Hm.
Qed.

Lemma quiet_not_awaited {A} (m : Prog W A) : quiet m -> quiet (not_awaited m).
Proof. intros Hm w. unfold not_awaited. simpl. apply Hm. Qed.

Lemma observes_weaken {A} (m : Prog W A) w (R R' : Outcome A -> list OtaStep -> Prop) :
  observes m w R -> (forall out steps, R out steps -> R' out steps) ->
  observes m w R'.
Proof. intros (steps & Hv & HR) Himp. exists steps. split; [exact Hv | auto]. Qed.

Lemma observes_bind {A B} (m : Prog W A) (f : A -> Prog W B) w
    (R1 : Outcome A -> list OtaStep -> Prop)
    (R : Outcome B -> list OtaStep -> Prop) :
  observes m w R1 ->
  (forall a w1 s1, R1 (Resolved a) s1 -> view w1 = view w ++ s1 ->
     observes (f a) w1 (fun out s2 => R out (s1 ++ s2))) ->
  (forall err s1, R1 (Rejected err) s1 -> R (Rejected err) s1) ->
  (forall s1, R1 OutOfFuel s1 -> R OutOfFuel s1) ->
  observes (bind m f) w R.
Proof.
  intros (s1 & Hv & HR1) Hf Hrej Hfuel. unfold observes, bind.
  destruct (m w) as [[a|err|] w1]; simpl in *.
  - destruct (Hf a w1 s1 HR1 Hv) as (s2 & Hv2 & HR).
    exists (s1 ++ s2). rewrite Hv2, Hv, <- app_assoc. auto.
  - exists s1. auto.
  - exists s1. auto.
Qed.

Lemma observes_quiet_bind {A B} (m : Prog W A) (f : A -> Prog W B) w
    (R : Outcome B -> list OtaStep -> Prop) :
  quiet m ->
  (forall a w1, m w = (Resolved a, w1) -> view w1 = view w -> observes (f a) w1 R) ->
  (forall err, R (Rejected err) []) ->
  R OutOfFuel [] ->
  observes (bind m f) w R.
Proof.
  intros Hq Hf Hrej Hfuel. unfold observes, bind. specialize (Hq w).
  destruct (m w) as [[a|err|] w1]; simpl in *.
  - destruct (Hf a w1 eq_refl Hq) as (s & Hv & HR). exists s. rewrite Hv, Hq. auto.
  - exists []. rewrite app_nil_r. auto.
  - exists []. rewrite app_nil_r. auto.
Qed.

Lemma observes_quiet {A} (m : Prog W A) w (R : Outcome A -> list OtaStep -> Prop) :
  quiet m -> (forall out, R out []) -> observes m w R.
Proof. intros Hq HR. exists []. rewrite app_nil_r. split; [apply Hq | apply HR]. Qed.

(** The loop over the chunks: when each turn shows its chunk and its report,
    or fails showing nothing, the loop shows a prefix of [stream_view], and
    all of it when it resolves. *)
Lemma observes_for_each_chunk (reporting : bool) (total : Z)
    (body : Z -> list Z -> Prog W unit) :
  (forall i chunk w,
     observes (body i chunk) w (fun out steps =>
       (out = Resolved tt /\ steps = stream_view reporting total i [chunk]) \/
       (out <> Resolved tt /\ steps = []))) ->
  forall chunks i w,
    observes (for_each_chunk body i chunks) w (fun out steps =>
      exists k : nat,
        (k <= length chunks)%nat /\
        steps = stream_view reporting total i (take k chunks) /\
        (out = Resolved tt -> k = length chunks)).
Proof.
  intros Hbody. induction chunks as [|chunk rest IH]; intros i w.
  - exists []. rewrite app_nil_r. split; [reflexivity |].
    exists 0%nat. simpl. auto.
  - simpl. eapply observes_bind; [apply Hbody | | |].
    + intros [] w1 s1 [[_ ->]|[Hne _]] Hv; [| congruence].
      eapply observes_weaken; [apply (IH (i + 1) w1) |].
      intros out steps (k & Hk & -> & Hall).
      exists (S k). split; [simpl; lia |]. split.
      * simpl. rewrite <- app_assoc. reflexivity.
      * intros Hout. rewrite (Hall Hout). reflexivity.
    + intros err s1 [[Habs _]|[_ ->]]; [discriminate |].
      exists 0%nat. split; [lia |]. split; [reflexivity | discriminate].
    + intros s1 [[Habs _]|[_ ->]]; [discriminate |].
      exists 0%nat. split; [lia |]. split; [reflexivity | discriminate].
Qed.

End Observed.

Create HintDb quiet discriminated.

#[global] Hint Resolve quiet_ret quiet_reject quiet_get quiet_not_awaited : quiet.

(** Structural steps of a proof that a program is quiet; [ask_lemma] and
    [record_lemma] are the facade's lemmas for its two trace primitives. *)
Ltac quiet_step_with ask_lemma record_lemma :=
  match goal with
  | |- quiet _ (bind _ _) => apply quiet_bind; [| intros ?]
  | |- quiet _ (try_catch _ _) => apply quiet_try_catch; [| intros ?]
  | |- quiet _ (not_awaited _) => apply quiet_not_awaited
  | |- quiet _ (match ?x with _ => _ end) => destruct x
  | |- quiet _ (if ?x then _ else _) => destruct x
  | |- quiet _ _ => solve [apply ask_lemma; intros ?; reflexivity]
  | |- quiet _ _ => solve [apply record_lemma; reflexivity]
  | |- quiet _ _ => solve [eauto with quiet]
  end.

Ltac quiet_step := fail.
Ltac quiet_auto := repeat quiet_step.

(** What one call of [flashFirmware] shows, whatever the peripheral does:
    nothing, or the header [[packetSize, flag]] followed by a prefix of the
    chunks of that packet size, each with its report; all the chunks when
    the call resolves.  [header_of] tells which headers the facade can
    send. *)
Definition transfer_shown (header_of : Z -> Z -> Prop) (fuel : nat)
    (firmware : list Z) (onProgress : option ProgressCallback)
    (out : Outcome unit) (steps : list OtaStep) : Prop :=
  (out <> Resolved tt /\ steps = []) \/
  exists (packetSize flag : Z) (chunks : list (list Z)) (k : nat),
    header_of packetSize flag /\
    split_chunks fuel firmware packetSize = Some chunks /\
    (k <= length chunks)%nat /\
    steps = Wrote [packetSize; flag] ::
            stream_view (bool_decide (is_Some onProgress))
                        (Z.of_nat (length chunks)) 0 (take k chunks) /\
    (out = Resolved tt -> k = length chunks).

Lemma transfer_shown_prefix header_of fuel firmware onProgress out packetSize flag
    chunks k :
  header_of packetSize flag ->
  split_chunks fuel firmware packetSize = Some chunks ->
  (k <= length chunks)%nat ->
  (out = Resolved tt -> k = length chunks) ->
  transfer_shown header_of fuel firmware onProgress out
    ([Wrote [packetSize; flag]] ++
     stream_view (bool_decide (is_Some onProgress)) (Z.of_nat (length chunks)) 0
                 (take k chunks)).
Proof. intros Hh Hs Hk Hall. right. exists packetSize, flag, chunks, k. auto. Qed.

(** ** The percentages never decrease *)

Lemma progress_percent_mono (total i j : Z) :
  0 < total -> 0 <= i <= j -> progress_percent i total <= progress_percent j total.
Proof.
  intros Ht [Hi Hij]. unfold progress_percent.
  apply JSNumberFacts.Math_round_mono.
  assert (Htq : (0 < inject_Z total)%Q).
  { change 0%Q with (inject_Z 0). rewrite <- Zlt_Qlt. exact Ht. }
  assert (Hiq : (0 <= inject_Z i)%Q).
  { change 0%Q with (inject_Z 0). rewrite <- Zle_Qle. exact Hi. }
  assert (Hijq : (inject_Z i <= inject_Z j)%Q) by (rewrite <- Zle_Qle; exact Hij).
  assert (Hinv : (0 < / inject_Z total)%Q) by (apply Qinv_lt_0_compat; exact Htq).
  assert (Hd0 : (0 <= inject_Z i / inject_Z total)%Q).
  { apply Qmult_le_0_compat; [exact Hiq | apply Qlt_le_weak; exact Hinv]. }
  assert (Hd : (inject_Z i / inject_Z total <= inject_Z j / inject_Z total)%Q).
  { apply Qmult_le_compat_r; [exact Hijq | apply Qlt_le_weak; exact Hinv]. }
  pose proof (JSNumberFacts.round_binary64_nonneg _ Hd0) as Hr0.
  pose proof (JSNumberFacts.round_binary64_mono _ _ Hd0 Hd) as Hr.
  unfold JSNumber.Nmul, JSNumber.Ndiv.
  apply JSNumberFacts.round_binary64_mono.
  - apply Qmult_le_0_compat; [exact Hr0 | discriminate].
  - apply Qmult_le_compat_r; [exact Hr | discriminate].
Qed.

(** ** The percentages against exact arithmetic *)

(** The percentage of the specification, [round(i / total * 100)] in exact
    arithmetic: the integer nearest to [100 * i / total], and the upper one
    of the two when [100 * i / total] is half-way between two integers. *)
Definition exact_percent (i total : Z) : Z := (200 * i + total) / (2 * total).

(** [100 * i / total] is half-way between two integers. *)
Definition half_way (i total : Z) : Prop := (200 * i + total) mod (2 * total) = 0.

(** [exact_percent i total] is the integer [e] nearest to
    [100 * i / total]: [e - 1/2 <= 100 * i / total < e + 1/2]. *)
Lemma exact_percent_nearest (i total : Z) :
  0 < total ->
  2 * total * exact_percent i total - total <= 200 * i <
  2 * total * exact_percent i total + total.
Proof.
  intros Ht. unfold exact_percent.
  pose proof (Z.div_mod (200 * i + total) (2 * total) ltac:(lia)) as Hdm.
  pose proof (Z.mod_pos_bound (200 * i + total) (2 * total) ltac:(lia)) as Hr.
  lia.
Qed.

(** The binary64 value of [(i / total) * 100] is within [2^-45] of the
    exact one. *)
Lemma percent_value_close (i total : Z) :
  1 <= i < total -> total <= 2 ^ 44 ->
  let x := (100 * (inject_Z i / inject_Z total))%Q in
  let p := JSNumber.Nmul (JSNumber.Ndiv (inject_Z i) (inject_Z total)) 100 in
  (x - (1 # 2 ^ 45) < p /\ p < x + (1 # 2 ^ 45))%Q.
Proof.
  intros Hi Ht x p. subst x p. unfold JSNumber.Nmul, JSNumber.Ndiv.
  set (a := (inject_Z i / inject_Z total)%Q).
  assert (HT : (0 < inject_Z total)%Q)
    by (change 0%Q with (inject_Z 0); rewrite <- Zlt_Qlt; lia).
  assert (HI : (1 <= inject_Z i)%Q)
    by (change 1%Q with (inject_Z 1); rewrite <- Zle_Qle; lia).
  assert (HIT : (inject_Z i <= inject_Z total)%Q) by (rewrite <- Zle_Qle; lia).
  assert (HT44 : (inject_Z total <= inject_Z (2 ^ 44))%Q) by (rewrite <- Zle_Qle; exact Ht).
  change (inject_Z (2 ^ 44)) with (17592186044416 # 1)%Q in HT44.
  assert (Hne : ~ (inject_Z total == 0)%Q) by (intros E; rewrite E in HT; lra).
  assert (HaT : (a * inject_Z total == inject_Z i)%Q) by (unfold a; field; exact Hne).
  assert (Ha1 : (a <= 1)%Q) by (apply Qle_shift_div_r; [exact HT | lra]).
  assert (Halo : (1 # 17592186044416 <= a)%Q).
  { apply Qle_shift_div_l; [exact HT |]. nra. }
  assert (E44 : (2 ^ (-44) == 1 # 17592186044416)%Q) by reflexivity.
  assert (Hea : (-1022 <= JSNumber.floor_log2 a)%Z).
  { assert (H : (-44 <= JSNumber.floor_log2 a)%Z) by (apply JSNumberFacts.floor_log2_lower; rewrite E44; exact Halo).
    lia. }
  assert (Hapos : (0 < a)%Q) by lra.
  pose proof (JSNumberFacts.round_binary64_close a Hapos Hea) as Hq.
  change (1 # 2 ^ 53)%Q with (1 # 9007199254740992)%Q in Hq.
  set (q := JSNumber.round_binary64 a) in *.
  assert (Hb : (1 # 17592186044416 <= q * 100)%Q) by lra.
  assert (Heb : (-1022 <= JSNumber.floor_log2 (q * 100))%Z).
  { assert (H : (-44 <= JSNumber.floor_log2 (q * 100))%Z)
      by (apply JSNumberFacts.floor_log2_lower; rewrite E44; exact Hb).
    lia. }
  assert (Hbpos : (0 < q * 100)%Q) by lra.
  pose proof (JSNumberFacts.round_binary64_close (q * 100) Hbpos Heb) as Hp.
  change (1 # 2 ^ 53)%Q with (1 # 9007199254740992)%Q in Hp.
  change (1 # 2 ^ 45)%Q with (1 # 35184372088832)%Q.
  revert Hq Hp Ha1 Hapos. generalize (JSNumber.round_binary64 (q * 100)) q a.
  intros p' q' a' Hq Hp Ha1 Hapos. split; lra.
Qed.

(** What the code computes, against the percentage of the specification:
    the two agree, except that half-way between two integers the rounding
    of the quotient and of the product can bring the code's value to the
    lower one. *)
Lemma progress_percent_exact (i total : Z) :
  0 <= i < total -> total <= 2 ^ 44 ->
  progress_percent i total = exact_percent i total \/
  (half_way i total /\ progress_percent i total = exact_percent i total - 1).
Proof.
  intros Hi Ht. unfold exact_percent, half_way.
  destruct (Z.eq_dec i 0) as [-> | Hi0].
  { left. rewrite Z.mul_0_r, Z.add_0_l, Z.div_small by lia.
    unfold progress_percent, JSNumber.Nmul, JSNumber.Ndiv.
    rewrite (JSNumberFacts.round_binary64_zero (inject_Z 0 / inject_Z total))
      by (unfold Qdiv; change (inject_Z 0) with 0%Q; apply Qmult_0_l).
    rewrite (JSNumberFacts.round_binary64_zero (0 * 100)) by reflexivity. reflexivity. }
  destruct (percent_value_close i total ltac:(lia) Ht) as [Hlo Hhi].
  unfold progress_percent, JSNumber.Math_round.
  set (p := JSNumber.Nmul (JSNumber.Ndiv (inject_Z i) (inject_Z total)) 100) in *.
  set (x := (100 * (inject_Z i / inject_Z total))%Q) in *.
  change (1 # 2 ^ 45)%Q with (1 # 35184372088832)%Q in Hlo, Hhi.
  set (N := 200 * i + total). set (D := 2 * total).
  pose proof (Z.div_mod N D ltac:(unfold D; lia)) as Hdm.
  pose proof (Z.mod_pos_bound N D ltac:(unfold D; lia)) as Hr.
  set (m := N / D) in *. set (r := N mod D) in *.
  assert (HT : (0 < inject_Z total)%Q)
    by (change 0%Q with (inject_Z 0); rewrite <- Zlt_Qlt; lia).
  assert (HT44 : (inject_Z total <= inject_Z (2 ^ 44))%Q) by (rewrite <- Zle_Qle; exact Ht).
  change (inject_Z (2 ^ 44)) with (17592186044416 # 1)%Q in HT44.
  assert (Hne : ~ (inject_Z total == 0)%Q) by (intros E; rewrite E in HT; lra).
  assert (HxT : (x * inject_Z total == 100 * inject_Z i)%Q) by (unfold x; field; exact Hne).
  assert (HN : (200 * inject_Z i + inject_Z total ==
                2 * inject_Z total * inject_Z m + inject_Z r)%Q).
  { change 200%Q with (inject_Z 200). change 2%Q with (inject_Z 2).
    rewrite <- !inject_Z_mult, <- !inject_Z_plus. unfold N, D in Hdm. rewrite Hdm.
    reflexivity. }
  assert (Hr0 : (0 <= inject_Z r)%Q)
    by (change 0%Q with (inject_Z 0); rewrite <- Zle_Qle; lia).
  assert (Hr1 : (inject_Z r + 1 <= 2 * inject_Z total)%Q).
  { change 2%Q with (inject_Z 2). change 1%Q with (inject_Z 1).
    rewrite <- inject_Z_mult, <- inject_Z_plus, <- Zle_Qle. unfold D in Hr. lia. }
  destruct (Z.eq_dec r 0) as [Er | Er].
  - (* half-way *)
    rewrite Er in HN. change (inject_Z 0) with 0%Q in HN.
    assert (Hx : (x + (1 # 2) == inject_Z m)%Q).
    { assert (H : ((x + (1 # 2)) * (2 * inject_Z total) ==
                   inject_Z m * (2 * inject_Z total))%Q) by nra.
      apply Qmult_inj_r in H; [exact H | lra]. }
    destruct (Qlt_le_dec (p + (1 # 2)) (inject_Z m)) as [Hlt | Hge].
    + right. split; [exact Er |].
      replace (m - 1) with (m + -1) by lia.
      apply JSNumberFacts.Qfloor_between; rewrite inject_Z_plus;
        change (inject_Z (-1)) with (-1)%Q; lra.
    + left. apply JSNumberFacts.Qfloor_between; lra.
  - left.
    assert (Hr2 : (1 <= inject_Z r)%Q)
      by (change 1%Q with (inject_Z 1); rewrite <- Zle_Qle; lia).
    assert (Hx : (inject_Z m + (1 # 35184372088832) <= x + (1 # 2) /\
                  x + (1 # 2) + (1 # 35184372088832) <= inject_Z m + 1)%Q).
    { revert HxT HN Hr1 Hr2 HT HT44.
      generalize (inject_Z total) (inject_Z i) (inject_Z m) (inject_Z r) x.
      intros T I M R X HxT HN Hr1 Hr2 HT HT44. split; nra. }
    apply JSNumberFacts.Qfloor_between; lra.
Qed.

Lemma reported_stream_view (total i : Z) (chunks : list (list Z)) :
  reported (stream_view true total i chunks) =
  map (fun k => progress_percent (i + Z.of_nat k) total) (seq 0 (length chunks)).
Proof.
  revert i. induction chunks as [|chunk rest IH]; intros i; [reflexivity |].
  simpl. rewrite IH. f_equal; [f_equal; lia |].
  rewrite <- seq_shift, map_map. apply map_ext. intros k. f_equal. lia.
Qed.

Lemma written_stream_view (reporting : bool) (total i : Z) (chunks : list (list Z)) :
  written (stream_view reporting total i chunks) = chunks.
Proof.
  revert i. induction chunks as [|chunk rest IH]; intros i; [reflexivity |].
  simpl. destruct reporting; simpl; rewrite IH; reflexivity.
Qed.

Lemma reported_stream_view_sorted (total i : Z) (chunks : list (list Z)) :
  0 < total -> 0 <= i ->
  StronglySorted Z.le (reported (stream_view true total i chunks)).
Proof.
  intros Ht. revert i. induction chunks as [|chunk rest IH]; intros i Hi.
  - constructor.
  - simpl. constructor; [apply IH; lia |].
    rewrite reported_stream_view. apply Forall_forall. intros p Hp.
    apply in_map_iff in Hp. destruct Hp as (k & <- & _).
    apply progress_percent_mono; lia.
Qed.

(** * The React Native facade: what its methods show *)

Module ReactNativeFacts.
Import ReactNative.

Definition ota_step (e : Event) : option OtaStep :=
  match e with
  | Called (BleWrite _ _ c data _) true =>
      if decide (c = OTA_DATA_UUID) then Some (Wrote data) else None
  | Progress _ p => Some (Reported p)
  | _ => None
  end.

Definition ota_view (h : History) : list OtaStep := omap ota_step h.

Definition view (w : World) : list OtaStep := ota_view (trace w).

(** The characteristic writes of a trace, whether they succeeded or not. *)
Definition is_write (e : Event) : bool :=
  match e with
  | Called (BleWrite _ _ _ _ _) _ => true
  | Called (BleWriteWithoutResponse _ _ _ _ _) _ => true
  | _ => false
  end.

Lemma rn_view_snoc (h : History) (e : Event) :
  ota_view (h ++ [e]) = ota_view h ++ from_option (fun s => [s]) [] (ota_step e).
Proof.
  unfold ota_view. rewrite omap_app. simpl. destruct (ota_step e); reflexivity.
Qed.

Lemma rn_quiet_record (e : Event) : ota_step e = None -> quiet view (record e).
Proof.
  intros He w. unfold view, record. simpl. rewrite rn_view_snoc, He. simpl.
  apply app_nil_r.
Qed.

Lemma rn_quiet_set_this (k : KiirooControl) : quiet view (set_this k).
Proof. intros w. reflexivity. Qed.

Lemma rn_quiet_set_callbacks c : quiet view (set_callbacks c).
Proof. intros w. reflexivity. Qed.

Lemma rn_quiet_ask {A} (c : BleCall) (answer : History -> Result A) :
  (forall ok, ota_step (Called c ok) = None) -> quiet view (ask c answer).
Proof.
  intros Hc w. unfold view, ask. simpl. rewrite rn_view_snoc, Hc. simpl.
  apply app_nil_r.
Qed.

#[local] Hint Resolve rn_quiet_set_this rn_quiet_set_callbacks : quiet.

Ltac quiet_step ::= quiet_step_with rn_quiet_ask rn_quiet_record.

Section Facts.
Variable BLE : BleManager.
Variable platform : Platform.

Lemma rn_quiet_isConnected : quiet view (isConnected BLE).
Proof. unfold isConnected, BleManager_isPeripheralConnected. quiet_auto. Qed.
#[local] Hint Resolve rn_quiet_isConnected : quiet.

Lemma rn_quiet_ready : quiet view (ready BLE).
Proof. unfold ready. quiet_auto. Qed.
#[local] Hint Resolve rn_quiet_ready : quiet.

Lemma rn_quiet_readChar c : quiet view (readChar BLE c).
Proof. unfold readChar, BleManager_read. quiet_auto. Qed.
#[local] Hint Resolve rn_quiet_readChar : quiet.

Lemma rn_quiet_writeChar c data n :
  c <> OTA_DATA_UUID -> quiet view (writeChar BLE c data n).
Proof.
  intros Hc. unfold writeChar, BleManager_write. quiet_auto.
  apply rn_quiet_ask. intros [|]; simpl; [| reflexivity].
  destruct (decide (c = OTA_DATA_UUID)); [contradiction | reflexivity].
Qed.

Lemma rn_quiet_wait ms : quiet view (wait ms).
Proof. unfold wait. quiet_auto. Qed.
#[local] Hint Resolve rn_quiet_wait : quiet.

Lemma rn_quiet_subscribe d s c cb : quiet view (subscribe BLE d s c cb).
Proof. unfold subscribe, BleManager_startNotification. quiet_auto. Qed.
#[local] Hint Resolve rn_quiet_subscribe : quiet.

Lemma rn_quiet_unsubscribe d : quiet view (unsubscribe BLE d).
Proof. unfold unsubscribe, BleManager_stopNotification. quiet_auto. Qed.
#[local] Hint Resolve rn_quiet_unsubscribe : quiet.

Lemma rn_quiet_disconnect : quiet view (disconnect BLE platform).
Proof.
  unfold disconnect, BleManager_stopNotification, BleManager_disconnect.
  quiet_auto. apply rn_quiet_writeChar. discriminate.
Qed.
#[local] Hint Resolve rn_quiet_disconnect : quiet.

Lemma rn_quiet_connect dev : quiet view (connect BLE platform dev).
Proof.
  unfold connect, BleManager_connect, BleManager_retrieveServices. quiet_auto.
Qed.
#[local] Hint Resolve rn_quiet_connect : quiet.

(** A write to the OTA data characteristic shows its payload when it
    succeeds, and nothing when it fails. *)
Lemma rn_observes_writeChar_data data n w :
  observes view (writeChar BLE OTA_DATA_UUID data n) w (fun out steps =>
    (out = Resolved tt /\ steps = [Wrote data]) \/
    (out <> Resolved tt /\ steps = [])).
Proof.
  unfold writeChar. apply observes_quiet_bind; [apply rn_quiet_ready | | |].
  - intros [d|] w1 _ Hv.
    + unfold BleManager_write, observes, ask, view. simpl.
      destruct (write_answer BLE (trace w1) (id d) KIIROO_CONTROL_SERVICE_UUID
                  OTA_DATA_UUID data n) as [[]|err]; simpl.
      * exists [Wrote data]. rewrite rn_view_snoc. simpl. auto.
      * exists []. rewrite rn_view_snoc. simpl. split; [reflexivity |].
        right. split; [discriminate | reflexivity].
    + exists []. rewrite app_nil_r. split; [reflexivity |].
      right. split; [discriminate | reflexivity].
  - intros err. right. split; [discriminate | reflexivity].
  - right. split; [discriminate | reflexivity].
Qed.

Lemma rn_observes_report onProgress percent w :
  observes view (report onProgress percent) w (fun out steps =>
    out = Resolved tt /\
    steps = if bool_decide (is_Some onProgress) then [Reported percent] else []).
Proof.
  unfold report, observes, view. destruct onProgress as [cb|]; simpl.
  - exists [Reported percent]. rewrite rn_view_snoc. simpl. auto.
  - exists []. rewrite app_nil_r. auto.
Qed.

Lemma rn_observes_chunk_turn onProgress total i chunk w :
  observes view
    (writeChar BLE OTA_DATA_UUID chunk (Some (Z.of_nat (length chunk)));;
     report onProgress (progress_percent i total)) w
    (fun out steps =>
       (out = Resolved tt /\
        steps = stream_view (bool_decide (is_Some onProgress)) total i [chunk]) \/
       (out <> Resolved tt /\ steps = [])).
Proof.
  eapply observes_bind; [apply rn_observes_writeChar_data | | |].
  - intros [] w1 s1 [[_ ->]|[Hne _]] Hv; [| congruence].
    eapply observes_weaken; [apply rn_observes_report |].
    intros out steps [-> ->]. left. split; [reflexivity |].
    simpl. rewrite app_nil_r. reflexivity.
  - intros err s1 [[Habs _]|[_ ->]]; [discriminate |].
    right. split; [discriminate | reflexivity].
  - intros s1 [[Habs _]|[_ ->]]; [discriminate |].
    right. split; [discriminate | reflexivity].
Qed.

(** The guard that lets a method pass: the device is stored, and the stack
    was asked once and reported it connected. *)
Lemma rn_ready_resolved (w w1 : World) (d : IDevice) :
  ready BLE w = (Resolved (Some d), w1) ->
  device (this w) = Some d /\
  trace w1 = trace w ++ [Called (BleIsPeripheralConnected (id d)) true].
Proof.
  unfold ready, isConnected, BleManager_isPeripheralConnected, ask, bind, get. simpl.
  destruct (device (this w)) as [d'|] eqn:Hd; [| discriminate]. simpl. rewrite Hd.
  destruct (isPeripheralConnected_answer BLE (trace w) (id d')) as [[|]|err];
    simpl; intros [= <- <-]. auto.
Qed.

(** The MTU that [flashFirmware] asks the stack for. *)
Definition requested_mtu : Z :=
  if Qle_bool 34 (Version platform) then DESIRED_MTU_SIZE_V_14 else DESIRED_MTU_SIZE.

(** The MTU that a transfer started in [w] works with: the constant on iOS;
    elsewhere the answer of the stack to the request of that transfer, which
    it makes for the stored device right after the query of the guard. *)
Definition negotiated (w : World) (mtuSize : Z) : Prop :=
  if decide (OS platform = "ios") then mtuSize = IOS_MTU_SIZE
  else exists d,
    device (this w) = Some d /\
    requestMTU_answer BLE
      (trace w ++ [Called (BleIsPeripheralConnected (id d)) true]) (id d)
      requested_mtu = Ok mtuSize.

(** The header of a transfer started in [w]: the MTU less 3, and the
    fast-mode flag. *)
Definition header_of (w : World) (packetSize flag : Z) : Prop :=
  negotiated w (packetSize + 3) /\
  flag = if Qle_bool 34 (Version platform) then 1 else 0.

Lemma rn_observes_flashFirmware fuel firmware onProgress w :
  observes view (flashFirmware BLE platform fuel firmware onProgress) w
           (transfer_shown (header_of w) fuel firmware onProgress).
Proof.
  unfold flashFirmware.
  apply observes_quiet_bind; [apply rn_quiet_ready | |
    intros err; left; split; [discriminate | reflexivity] |
    left; split; [discriminate | reflexivity]].
  intros [d|] w1 Hready Hv1.
  2: { exists []. rewrite app_nil_r. split; [reflexivity |].
       left. split; [discriminate | reflexivity]. }
  destruct (rn_ready_resolved w w1 d Hready) as [Hd Hw1].
  apply observes_quiet_bind;
    [unfold BleManager_requestMTU; quiet_auto | |
     intros err; left; split; [discriminate | reflexivity] |
     left; split; [discriminate | reflexivity]].
  intros mtuSize w2 Hmtu Hv2.
  assert (Hneg : negotiated w mtuSize).
  { unfold negotiated. destruct (decide (OS platform = "ios")).
    - injection Hmtu as <- _. reflexivity.
    - unfold BleManager_requestMTU, ask in Hmtu. fold requested_mtu in Hmtu.
      rewrite Hw1 in Hmtu.
      destruct (requestMTU_answer BLE _ (id d) requested_mtu) as [m|err] eqn:E;
        simpl in Hmtu; [| discriminate].
      injection Hmtu as <- _. exists d. auto. }
  destruct (split_chunks fuel firmware (mtuSize - 3)) as [chunks|] eqn:Hsplit.
  2: { exists []. rewrite app_nil_r. split; [reflexivity |].
       left. split; [discriminate | reflexivity]. }
  set (flag := if Qle_bool 34 (Version platform) then 1 else 0).
  assert (Hhdr : header_of w (mtuSize - 3) flag).
  { split; [| reflexivity]. replace (mtuSize - 3 + 3) with mtuSize by lia. exact Hneg. }
  assert (Hnone : forall out : Outcome unit, out <> Resolved tt ->
            transfer_shown (header_of w) fuel firmware onProgress out
              ([Wrote [mtuSize - 3; flag]] ++ [])).
  { intros out Hout.
    apply (transfer_shown_prefix _ _ _ _ _ _ _ chunks 0%nat Hhdr Hsplit); [lia |].
    intros ->. contradiction. }
  eapply observes_bind; [apply rn_observes_writeChar_data | | |].
  - intros [] w3 s1 [[_ ->]|[Hne _]] Hv3; [| congruence].
    do 4 (apply observes_quiet_bind;
          [first [apply rn_quiet_wait | apply rn_quiet_readChar
                 | apply rn_quiet_writeChar; discriminate]
          | intros ? ? ? ?
          | intros err; apply Hnone; discriminate
          | apply Hnone; discriminate]).
    eapply observes_bind;
      [apply (observes_for_each_chunk view (bool_decide (is_Some onProgress))
                (Z.of_nat (length chunks)));
       intros i chunk w'; apply rn_observes_chunk_turn | | |].
    + intros [] wz s2 (k & Hk & -> & Hall) Hvz.
      apply observes_quiet.
      * unfold BleManager_writeWithoutResponse. quiet_auto.
        apply rn_quiet_writeChar. discriminate.
      * intros out. rewrite app_nil_r.
        apply (transfer_shown_prefix _ _ _ _ _ _ _ chunks k Hhdr Hsplit Hk).
        intros _. apply Hall. reflexivity.
    + intros err s2 (k & Hk & -> & Hall).
      apply (transfer_shown_prefix _ _ _ _ _ _ _ chunks k Hhdr Hsplit Hk). discriminate.
    + intros s2 (k & Hk & -> & Hall).
      apply (transfer_shown_prefix _ _ _ _ _ _ _ chunks k Hhdr Hsplit Hk). discriminate.
  - intros err s1 [[Habs _]|[_ ->]]; [discriminate |].
    left. split; [discriminate | reflexivity].
  - intros s1 [[Habs _]|[_ ->]]; [discriminate |].
    left. split; [discriminate | reflexivity].
Qed.

End Facts.
End ReactNativeFacts.

(** * The Web Bluetooth facade: what its methods show *)

Module WebFacts.
Import Web.

Definition ota_step (e : Event) : option OtaStep :=
  match e with
  | Called (WriteValue u data) true =>
      if decide (u = OTA_DATA_UUID) then Some (Wrote data) else None
  | Progress _ p => Some (Reported p)
  | _ => None
  end.

Definition ota_view (h : History) : list OtaStep := omap ota_step h.

Definition view (w : World) : list OtaStep := ota_view (trace w).

Definition is_write (e : Event) : bool :=
  match e with
  | Called (WriteValue _ _) _ => true
  | _ => false
  end.

Lemma web_view_snoc (h : History) (e : Event) :
  ota_view (h ++ [e]) = ota_view h ++ from_option (fun s => [s]) [] (ota_step e).
Proof.
  unfold ota_view. rewrite omap_app. simpl. destruct (ota_step e); reflexivity.
Qed.

Lemma web_quiet_record (e : Event) : ota_step e = None -> quiet view (record e).
Proof.
  intros He w. unfold view, record. simpl. rewrite web_view_snoc, He. simpl.
  apply app_nil_r.
Qed.

Lemma web_quiet_ask {A} (c : GattCall) (answer : History -> Result A) :
  (forall ok, ota_step (Called c ok) = None) -> quiet view (ask c answer).
Proof.
  intros Hc w. unfold view, ask. simpl. rewrite web_view_snoc, Hc. simpl.
  apply app_nil_r.
Qed.

Ltac quiet_step ::= quiet_step_with web_quiet_ask web_quiet_record.

Section Facts.
Variable GATT : WebBluetooth.

Lemma web_quiet_wait ms : quiet view (wait ms).
Proof. unfold wait. quiet_auto. Qed.

Lemma web_quiet_getCharacteristic u : quiet view (getCharacteristic GATT u).
Proof. unfold getCharacteristic. quiet_auto. Qed.

Lemma web_quiet_writeValue u data :
  u <> OTA_DATA_UUID -> quiet view (writeValue GATT u data).
Proof.
  intros Hu. unfold writeValue. apply web_quiet_ask. intros [|]; simpl; [| reflexivity].
  destruct (decide (u = OTA_DATA_UUID)); [contradiction | reflexivity].
Qed.

Lemma web_observes_writeValue_data data w :
  observes view (writeValue GATT OTA_DATA_UUID data) w (fun out steps =>
    (out = Resolved tt /\ steps = [Wrote data]) \/
    (out <> Resolved tt /\ steps = [])).
Proof.
  unfold writeValue, observes, ask, view. simpl.
  destruct (writeValue_answer GATT (trace w) OTA_DATA_UUID data) as [[]|err]; simpl.
  - exists [Wrote data]. rewrite web_view_snoc. simpl. auto.
  - exists []. rewrite web_view_snoc. simpl. split; [reflexivity |].
    right. split; [discriminate | reflexivity].
Qed.

Lemma web_observes_report onProgress percent w :
  observes view (report onProgress percent) w (fun out steps =>
    out = Resolved tt /\
    steps = if bool_decide (is_Some onProgress) then [Reported percent] else []).
Proof.
  unfold report, observes, view. destruct onProgress as [cb|]; simpl.
  - exists [Reported percent]. rewrite web_view_snoc. simpl. auto.
  - exists []. rewrite app_nil_r. auto.
Qed.

Lemma web_observes_chunk_turn onProgress total i chunk w :
  observes view
    (writeValue GATT OTA_DATA_UUID chunk;;
     report onProgress (progress_percent i total)) w
    (fun out steps =>
       (out = Resolved tt /\
        steps = stream_view (bool_decide (is_Some onProgress)) total i [chunk]) \/
       (out <> Resolved tt /\ steps = [])).
Proof.
  eapply observes_bind; [apply web_observes_writeValue_data | | |].
  - intros [] w1 s1 [[_ ->]|[Hne _]] Hv; [| congruence].
    eapply observes_weaken; [apply web_observes_report |].
    intros out steps [-> ->]. left. split; [reflexivity |].
    simpl. rewrite app_nil_r. reflexivity.
  - intros err s1 [[Habs _]|[_ ->]]; [discriminate |].
    right. split; [discriminate | reflexivity].
  - intros s1 [[Habs _]|[_ ->]]; [discriminate |].
    right. split; [discriminate | reflexivity].
Qed.

(** The header of a transfer: the packet size is a constant, and the flag
    is 0. *)
Definition header_of (packetSize flag : Z) : Prop :=
  packetSize = DEFAULT_MTU_SIZE - 3 /\ flag = 0.

Lemma web_observes_flashFirmware fuel firmware onProgress w :
  observes view (flashFirmware GATT fuel firmware onProgress) w
           (transfer_shown header_of fuel firmware onProgress).
Proof.
  unfold flashFirmware.
  apply observes_quiet_bind; [apply quiet_get | |
    intros err; left; split; [discriminate | reflexivity] |
    left; split; [discriminate | reflexivity]].
  intros w0 w1 _ Hv1. destruct (not_initialized (this w0)).
  { exists []. rewrite app_nil_r. split; [reflexivity |].
    left. split; [discriminate | reflexivity]. }
  destruct (split_chunks fuel firmware (DEFAULT_MTU_SIZE - 3)) as [chunks|] eqn:Hsplit.
  2: { exists []. rewrite app_nil_r. split; [reflexivity |].
       left. split; [discriminate | reflexivity]. }
  do 2 (apply observes_quiet_bind; [apply web_quiet_getCharacteristic | intros ? ? ? ?
    | intros err; left; split; [discriminate | reflexivity]
    | left; split; [discriminate | reflexivity]]).
  assert (Hhdr : header_of (DEFAULT_MTU_SIZE - 3) 0) by (split; reflexivity).
  assert (Hnone : forall out : Outcome unit, out <> Resolved tt ->
            transfer_shown header_of fuel firmware onProgress out
              ([Wrote [DEFAULT_MTU_SIZE - 3; 0]] ++ [])).
  { intros out Hout.
    apply (transfer_shown_prefix _ _ _ _ _ _ _ chunks 0%nat Hhdr Hsplit); [lia |].
    intros ->. contradiction. }
  eapply observes_bind; [apply web_observes_writeValue_data | | |].
  - intros [] wh s1 [[_ ->]|[Hne _]] Hvh; [| congruence].
    do 3 (apply observes_quiet_bind;
          [first [apply web_quiet_wait | apply web_quiet_writeValue; discriminate]
          | intros ? ? ? ?
          | intros err; apply Hnone; discriminate
          | apply Hnone; discriminate]).
    eapply observes_bind;
      [apply (observes_for_each_chunk view (bool_decide (is_Some onProgress))
                (Z.of_nat (length chunks)));
       intros i chunk w'; apply web_observes_chunk_turn | | |].
    + intros [] wz s2 (k & Hk & -> & Hall) Hvz.
      apply observes_quiet.
      * quiet_auto; first [apply web_quiet_writeValue; discriminate | apply web_quiet_wait].
      * intros out. rewrite app_nil_r.
        apply (transfer_shown_prefix _ _ _ _ _ _ _ chunks k Hhdr Hsplit Hk).
        intros _. apply Hall. reflexivity.
    + intros err s2 (k & Hk & -> & Hall).
      apply (transfer_shown_prefix _ _ _ _ _ _ _ chunks k Hhdr Hsplit Hk). discriminate.
    + intros s2 (k & Hk & -> & Hall).
      apply (transfer_shown_prefix _ _ _ _ _ _ _ chunks k Hhdr Hsplit Hk). discriminate.
  - intros err s1 [[Habs _]|[_ ->]]; [discriminate |].
    left. split; [discriminate | reflexivity].
  - intros s1 [[Habs _]|[_ ->]]; [discriminate |].
    left. split; [discriminate | reflexivity].
Qed.

End Facts.
End WebFacts.

(** * Programs that settle

    A program settles when it resolves or rejects: no loop of it is left
    running by the fuel.  Every method settles but [flashFirmware], whose
    chunking loop needs a positive packet size to end. *)

Section Settling.
Context {W : Type}.

Definition settles {A} (m : Prog W A) : Prop :=
  forall w, fst (m w) <> OutOfFuel.

Lemma settles_ret {A} (a : A) : settles (@ret W A a).
Proof. intros w. discriminate. Qed.

Lemma settles_reject {A} (err : JSError) : settles (@reject W A err).
Proof. intros w. discriminate. Qed.

Lemma settles_get : settles (@get W).
Proof. intros w. discriminate. Qed.

Lemma settles_not_awaited {A} (m : Prog W A) : settles (not_awaited m).
Proof. intros w. discriminate. Qed.

Lemma settles_bind {A B} (m : Prog W A) (f : A -> Prog W B) :
  settles m -> (forall a, settles (f a)) -> settles (bind m f).
Proof.
  intros Hm Hf w. unfold bind. specialize (Hm w).
  destruct (m w) as [[a|err|] w1]; simpl in *;
    [apply Hf | discriminate | contradiction].
Qed.

Lemma settles_try_catch {A} (m : Prog W A) (h : JSError -> Prog W A) :
  settles m -> (forall err, settles (h err)) -> settles (try_catch m h).
Proof.
  intros Hm Hh w. unfold try_catch. specialize (Hm w).
  destruct (m w) as [[a|err|] w1]; simpl in *;
    [discriminate | apply Hh | contradiction].
Qed.

Lemma settles_for_each_chunk (body : Z -> list Z -> Prog W unit) :
  (forall i chunk, settles (body i chunk)) ->
  forall chunks i, settles (for_each_chunk body i chunks).
Proof.
  intros Hbody. induction chunks as [|chunk rest IH]; intros i; simpl.
  - apply settles_ret.
  - apply settles_bind; [apply Hbody | intros _; apply IH].
Qed.

End Settling.

Create HintDb settles discriminated.

#[global] Hint Resolve settles_ret settles_reject settles_get settles_not_awaited
  : settles.

(** Reads a goal about every world as a goal about the program. *)
Ltac as_settles :=
  match goal with
  | |- forall w, fst (?m w) <> OutOfFuel => change (settles m)
  end.

Ltac settles_step :=
  match goal with
  | |- settles (bind _ _) => apply settles_bind; [| intros ?]
  | |- settles (try_catch _ _) => apply settles_try_catch; [| intros ?]
  | |- settles (for_each_chunk _ _ _) => apply settles_for_each_chunk; intros ? ?
  | |- settles (match ?x with _ => _ end) => destruct x
  | |- settles (if ?x then _ else _) => destruct x
  | |- settles _ => solve [eauto with settles]
  | |- settles _ => solve [intros ?; simpl; discriminate]
  | |- settles _ =>
      solve [intros ?; simpl;
             match goal with |- context [settle ?r] => destruct r end;
             simpl; discriminate]
  end.

Ltac settles_auto := repeat settles_step.

Lemma split_chunks_ends {A : Type} (firmware : list A) (packetSize : Z) (fuel : nat) :
  1 <= packetSize -> (length firmware <= fuel)%nat ->
  split_chunks fuel firmware packetSize <> None.
Proof.
  intros HP Hfuel.
  destruct (chunk_loop_spec firmware packetSize HP fuel 0 []) as (cs & Hrun & _);
    [lia | nia |].
  unfold split_chunks. rewrite Hrun. discriminate.
Qed.

Section ReactNativeSettles.
Import ReactNative.
Variable BLE : BleManager.
Variable platform : Platform.

Lemma rn_settles_ready : settles (ready BLE).
Proof.
  unfold ready, isConnected, BleManager_isPeripheralConnected, ask. settles_auto.
Qed.
#[local] Hint Resolve rn_settles_ready : settles.

Lemma rn_settles_isConnected : settles (isConnected BLE).
Proof. unfold isConnected, BleManager_isPeripheralConnected, ask. settles_auto. Qed.
#[local] Hint Resolve rn_settles_isConnected : settles.

Lemma rn_settles_writeChar c data n : settles (writeChar BLE c data n).
Proof. unfold writeChar, BleManager_write, ask. settles_auto. Qed.
#[local] Hint Resolve rn_settles_writeChar : settles.

Lemma rn_settles_readChar c : settles (readChar BLE c).
Proof. unfold readChar, BleManager_read, ask. settles_auto. Qed.
#[local] Hint Resolve rn_settles_readChar : settles.

Lemma rn_settles_subscribe d s c cb : settles (subscribe BLE d s c cb).
Proof. unfold subscribe, BleManager_startNotification, ask. settles_auto. Qed.
#[local] Hint Resolve rn_settles_subscribe : settles.

Lemma rn_settles_connect dev : settles (connect BLE platform dev).
Proof.
  unfold connect, BleManager_connect, BleManager_retrieveServices, ask.
  settles_auto.
Qed.
#[local] Hint Resolve rn_settles_connect : settles.

(** Within fuel for one turn per byte, [flashFirmware] settles when the MTU
    it works with is above 3: on iOS, and elsewhere when the stack never
    answers [requestMTU] with 3 or less. *)
Lemma rn_flashFirmware_settles fuel firmware onProgress w :
  (length firmware <= fuel)%nat ->
  (OS platform = "ios" \/
   forall h p desired mtu, requestMTU_answer BLE h p desired = Ok mtu -> 3 < mtu) ->
  fst (flashFirmware BLE platform fuel firmware onProgress w) <> OutOfFuel.
Proof.
  intros Hfuel Hmtu. unfold flashFirmware. unfold bind at 1.
  pose proof (rn_settles_ready w) as Hready.
  destruct (ready BLE w) as [[[d|]|err|] w1]; simpl in *;
    [| discriminate | discriminate | contradiction].
  unfold bind at 1.
  destruct (decide (OS platform = "ios")) as [Hios|Hnot].
  - simpl.
    pose proof (split_chunks_ends firmware (IOS_MTU_SIZE - 3) fuel
                  ltac:(unfold IOS_MTU_SIZE; lia) Hfuel) as Hsplit.
    destruct (split_chunks fuel firmware (IOS_MTU_SIZE - 3)) as [chunks|];
      [| contradiction].
    revert w1. as_settles.
    unfold BleManager_writeWithoutResponse, ask, report, wait. settles_auto.
  - destruct Hmtu as [Hios|Hmtu]; [contradiction |].
    unfold BleManager_requestMTU, ask. simpl.
    destruct (requestMTU_answer BLE (trace w1) (id d) _) as [mtu|err] eqn:E; simpl;
      [| discriminate].
    pose proof (Hmtu _ _ _ _ E) as Hgt.
    pose proof (split_chunks_ends firmware (mtu - 3) fuel ltac:(lia) Hfuel) as Hsplit.
    destruct (split_chunks fuel firmware (mtu - 3)) as [chunks|]; [| contradiction].
    generalize ({| this := this w1; callbacks := callbacks w1;
                   trace := trace w1 ++ [Called (BleRequestMTU (id d)
                     (if Qle_bool 34 (Version platform)
                      then DESIRED_MTU_SIZE_V_14 else DESIRED_MTU_SIZE)) true] |}).
    as_settles.
    unfold BleManager_writeWithoutResponse, ask, report, wait. settles_auto.
Qed.

End ReactNativeSettles.

Section WebSettles.
Import Web.
Variable GATT : WebBluetooth.

(** The packet size of the web facade is 253: within fuel for one turn per
    byte, [flashFirmware] settles. *)
Lemma web_flashFirmware_settles fuel firmware onProgress w :
  (length firmware <= fuel)%nat ->
  fst (flashFirmware GATT fuel firmware onProgress w) <> OutOfFuel.
Proof.
  intros Hfuel. unfold flashFirmware. unfold bind at 1. simpl.
  destruct (not_initialized (this w)); [discriminate |].
  pose proof (split_chunks_ends firmware (DEFAULT_MTU_SIZE - 3) fuel
                ltac:(unfold DEFAULT_MTU_SIZE; lia) Hfuel) as Hsplit.
  destruct (split_chunks fuel firmware (DEFAULT_MTU_SIZE - 3)) as [chunks|];
    [| contradiction].
  revert w. as_settles.
  unfold getCharacteristic, writeValue, ask, report, wait. settles_auto.
Qed.

End WebSettles.

(** * Programs that resolve *)

Section Resolving.
Context {W : Type}.

Definition resolves {A} (m : Prog W A) : Prop :=
  forall w, exists a, fst (m w) = Resolved a.

Lemma resolves_ret {A} (a : A) : resolves (@ret W A a).
Proof. intros w. exists a. reflexivity. Qed.

Lemma resolves_bind {A B} (m : Prog W A) (f : A -> Prog W B) :
  resolves m -> (forall a, resolves (f a)) -> resolves (bind m f).
Proof.
  intros Hm Hf w. unfold bind. destruct (Hm w) as [a Ha].
  destruct (m w) as [out w1]. simpl in Ha. subst out. apply Hf.
Qed.

Lemma resolves_for_each_chunk (body : Z -> list Z -> Prog W unit) :
  (forall i chunk, resolves (body i chunk)) ->
  forall chunks i, resolves (for_each_chunk body i chunks).
Proof.
  intros Hbody. induction chunks as [|chunk rest IH]; intros i; simpl.
  - apply resolves_ret.
  - apply resolves_bind; [apply Hbody | intros _; apply IH].
Qed.

End Resolving.

Section WebResolves.
Import Web.
Variable GATT : WebBluetooth.

Lemma web_resolves_ask {A} (c : GattCall) (answer : History -> Result A) :
  (forall h, exists a, answer h = Ok a) -> resolves (ask c answer).
Proof.
  intros Hok w. destruct (Hok (trace w)) as [a Ha]. exists a.
  unfold ask. simpl. rewrite Ha. reflexivity.
Qed.

Lemma web_resolves_record (e : Event) : resolves (record e).
Proof. intros w. exists tt. reflexivity. Qed.

(** On a stack that accepts every request for a characteristic and every
    write, a transfer of the connected facade resolves. *)
Lemma web_flashFirmware_resolves fuel firmware onProgress w :
  controlService (this w) <> None ->
  (forall h u, getCharacteristic_answer GATT h u = Ok tt) ->
  (forall h u data, writeValue_answer GATT h u data = Ok tt) ->
  (length firmware <= fuel)%nat ->
  fst (flashFirmware GATT fuel firmware onProgress w) = Resolved tt.
Proof.
  intros Hs Hget Hwrite Hfuel. unfold flashFirmware. unfold bind at 1. simpl.
  assert (Hinit : not_initialized (this w) = false).
  { unfold not_initialized, isConnected_method_truthy.
    destruct (controlService (this w)) as [s|]; [| contradiction].
    rewrite bool_decide_eq_true_2 by eauto. reflexivity. }
  rewrite Hinit.
  pose proof (split_chunks_ends firmware (DEFAULT_MTU_SIZE - 3) fuel
                ltac:(unfold DEFAULT_MTU_SIZE; lia) Hfuel) as Hsplit.
  destruct (split_chunks fuel firmware (DEFAULT_MTU_SIZE - 3)) as [chunks|];
    [| contradiction].
  match goal with |- fst (?m w) = _ =>
    enough (R : resolves m) by (destruct (R w) as [[] E]; exact E) end.
  unfold getCharacteristic, writeValue, report, wait.
  repeat first
    [ apply resolves_bind; [| intros ?]
    | apply resolves_for_each_chunk; intros ? ?
    | apply web_resolves_record
    | apply resolves_ret
    | apply web_resolves_ask; intros h; exists tt; auto
    | match goal with |- resolves (match ?x with _ => _ end) => destruct x end ].
Qed.

End WebResolves.

(** * The claims *)

(** ** Chunking *)

Lemma ceil_div_bounds (L P : Z) :
  1 <= P -> ((L + P - 1) / P - 1) * P < L <= (L + P - 1) / P * P.
Proof.
  intros HP.
  pose proof (Z.div_mod (L + P - 1) P ltac:(lia)) as Hdm.
  pose proof (Z.mod_pos_bound (L + P - 1) P ltac:(lia)) as Hmod.
  nia.
Qed.

(** C1.  For an image of length L > 0 and a packet size P >= 1 the chunking
    loop of [flashFirmware] (both facades run the same loop) ends, within
    any fuel of at least L turns, with exactly ceil(L/P) chunks: [count] is
    the least number with [L <= count * P].  Every chunk but the last has
    length P, the last has length L - P * (count - 1), the concatenation of
    the chunks in order is the image, and chunk k is the slice of the image
    that starts at offset k * P: the chunks partition the image, without gap
    or overlap, by ascending offset. *)
Theorem chunks_partition_image {A : Type} (firmware : list A) (packetSize : Z)
    (fuel : nat) :
  (0 < length firmware)%nat -> 1 <= packetSize -> (length firmware <= fuel)%nat ->
  exists chunks : list (list A),
    split_chunks fuel firmware packetSize = Some chunks /\
    let L := Z.of_nat (length firmware) in
    let count := Z.of_nat (length chunks) in
    count = (L + packetSize - 1) / packetSize /\
    (count - 1) * packetSize < L <= count * packetSize /\
    (forall (k : nat) (c : list A), chunks !! k = Some c ->
       Z.of_nat k < count - 1 -> Z.of_nat (length c) = packetSize) /\
    (exists c : list A, chunks !! pred (length chunks) = Some c /\
       Z.of_nat (length c) = L - packetSize * (count - 1)) /\
    concat chunks = firmware /\
    (forall (k : nat) (c : list A), chunks !! k = Some c ->
       c = take (Z.to_nat packetSize) (drop (k * Z.to_nat packetSize) firmware)).
Proof.
  intros HL HP Hfuel.
  destruct (chunk_loop_spec firmware packetSize HP fuel 0 []) as
    (cs & Hrun & Hcat & Hlen & Hnth); [lia | nia |].
  exists cs. simpl in Hrun. split; [exact Hrun |]. cbv zeta.
  rewrite Z.sub_0_r, Z.max_l in Hlen by lia.
  pose proof (ceil_div_bounds (Z.of_nat (length firmware)) packetSize HP) as Hceil.
  rewrite <- Hlen in Hceil.
  assert (Hslice : forall (k : nat) (c : list A), cs !! k = Some c ->
            c = take (Z.to_nat packetSize) (drop (k * Z.to_nat packetSize) firmware)).
  { intros k c Hk. pose proof (lookup_lt_Some _ _ _ Hk) as Hlt.
    rewrite (Hnth k Hlt) in Hk. injection Hk as <-. do 2 f_equal. nia. }
  split; [exact Hlen |]. split; [exact Hceil |].
  split; [| split; [| split; [exact Hcat | exact Hslice]]].
  - intros k c Hk Hbound. rewrite (Hslice k c Hk).
    rewrite length_take, length_drop. nia.
  - assert (Hne : (0 < length cs)%nat) by nia.
    destruct (lookup_lt_is_Some_2 cs (pred (length cs)) ltac:(lia)) as [c Hc].
    exists c. split; [exact Hc |].
    rewrite (Hslice _ c Hc), length_take, length_drop. nia.
Qed.

Lemma chunks_partition_image_witness :
  exists chunks : list (list Z),
    split_chunks 5 [1; 2; 3; 4; 5] 2 = Some chunks /\
    Z.of_nat (length chunks) = (5 + 2 - 1) / 2 /\
    (Z.of_nat (length chunks) - 1) * 2 < 5 <= Z.of_nat (length chunks) * 2 /\
    (forall (k : nat) (c : list Z), chunks !! k = Some c ->
       Z.of_nat k < Z.of_nat (length chunks) - 1 -> Z.of_nat (length c) = 2) /\
    (exists c : list Z, chunks !! pred (length chunks) = Some c /\
       Z.of_nat (length c) = 5 - 2 * (Z.of_nat (length chunks) - 1)) /\
    concat chunks = [1; 2; 3; 4; 5] /\
    (forall (k : nat) (c : list Z), chunks !! k = Some c ->
       c = take (Z.to_nat 2) (drop (k * Z.to_nat 2) [1; 2; 3; 4; 5])).
Proof.
  apply (chunks_partition_image [1; 2; 3; 4; 5] 2 5); simpl; lia.
Defined.

Example chunking_five_by_two :
  split_chunks 5 [1; 2; 3; 4; 5] 2 = Some [[1; 2]; [3; 4]; [5]].
Proof. reflexivity. Qed.

(** With a packet size that is not positive the loop never ends on a
    non-empty image: no fuel is enough. *)
Lemma chunk_loop_diverges {A : Type} (firmware : list A) (packetSize : Z)
    (fuel : nat) (i : Z) (chunks : list (list A)) :
  packetSize <= 0 -> i < Z.of_nat (length firmware) ->
  chunk_loop fuel firmware packetSize i chunks = None.
Proof.
  intros HP. revert i chunks. induction fuel as [|fuel IH]; intros i chunks Hi; simpl.
  - destruct (Z.ltb_spec i (Z.of_nat (length firmware))); [reflexivity | lia].
  - destruct (Z.ltb_spec i (Z.of_nat (length firmware))); [| lia].
    apply IH. lia.
Qed.

(** A loop that ends has cut no more chunks than the image has bytes. *)
Lemma chunk_loop_length {A : Type} (firmware : list A) (packetSize : Z) :
  1 <= packetSize ->
  forall (fuel : nat) (i : Z) (chunks result : list (list A)),
    chunk_loop fuel firmware packetSize i chunks = Some result ->
    Z.of_nat (length result) <=
      Z.of_nat (length chunks) + Z.max 0 (Z.of_nat (length firmware) - i).
Proof.
  intros HP. induction fuel as [|fuel IH]; intros i chunks result; simpl;
    destruct (Z.ltb_spec i (Z.of_nat (length firmware))) as [Hlt|Hge];
    try discriminate.
  - intros [= <-]. lia.
  - intros Hrun. apply IH in Hrun. rewrite length_app in Hrun. simpl in Hrun. lia.
  - intros [= <-]. lia.
Qed.

Lemma split_chunks_length {A : Type} (firmware : list A) (packetSize : Z)
    (fuel : nat) (chunks : list (list A)) :
  split_chunks fuel firmware packetSize = Some chunks ->
  (length chunks <= length firmware)%nat.
Proof.
  unfold split_chunks. intros Hrun.
  destruct (Z_le_gt_dec packetSize 0) as [Hle|Hgt].
  - destruct firmware as [|b rest].
    + destruct fuel; simpl in Hrun; injection Hrun as <-; simpl; lia.
    + rewrite chunk_loop_diverges in Hrun; [discriminate | exact Hle | simpl; lia].
  - apply chunk_loop_length in Hrun; [| lia]. simpl in Hrun. lia.
Qed.

(** ** The axis decoder *)

Module AxisClaims.
Import JSNumber JSNumberFacts ReactNative.

(** The integer nearest to the square root of [n], halves upwards:
    [round(sqrt(n))] in the words of the specification. *)
Definition nearest_sqrt (n : Z) : Z :=
  let s := Z.sqrt n in if n <=? s * s + s then s else s + 1.

(** [r = nearest_sqrt n] is the integer with [r - 1/2 <= sqrt n < r + 1/2]. *)
Lemma nearest_sqrt_spec (n : Z) :
  0 <= n ->
  let r := nearest_sqrt n in
  0 <= r /\ 4 * n < (2 * r + 1) * (2 * r + 1) /\
  (0 < r -> (2 * r - 1) * (2 * r - 1) <= 4 * n).
Proof.
  intros Hn. unfold nearest_sqrt. cbv zeta.
  destruct (Z.sqrt_spec n Hn) as [Hlo Hhi].
  pose proof (Z.sqrt_nonneg n) as Hs. unfold Z.succ in Hhi.
  destruct (Z.leb_spec n (Z.sqrt n * Z.sqrt n + Z.sqrt n)); nia.
Qed.

Definition magnitude_of_sum (n : Z) : Z :=
  Z.min (Math_round (Math_sqrt (inject_Z n))) 5.

Lemma magnitude_of_sum_nearest (n : Z) :
  0 <= n -> magnitude_of_sum n = Z.min (nearest_sqrt n) 5.
Proof.
  intros Hn. destruct (Z_lt_le_dec n 21) as [Hs|Hb].
  - assert (Ht : forall_from 21 0
             (fun k => magnitude_of_sum k =? Z.min (nearest_sqrt k) 5) = true)
      by (vm_compute; reflexivity).
    apply Z.eqb_eq. apply (forall_from_spec _ _ _ Ht). simpl. lia.
  - assert (H5 : 5 <= Math_round (Math_sqrt (inject_Z n))).
    { change 5 with (Math_round (9 # 2)). apply Math_round_mono.
      apply Math_sqrt_saturates. change 21%Q with (inject_Z 21).
      rewrite <- Zle_Qle. exact Hb. }
    destruct (nearest_sqrt_spec n Hn) as (Hr0 & Hr1 & _).
    unfold magnitude_of_sum. nia.
Qed.

Lemma round_binary64_comp (x y : Q) :
  (0 <= x)%Q -> (x == y)%Q -> (round_binary64 x == round_binary64 y)%Q.
Proof.
  intros Hx E. apply Qle_antisym; apply round_binary64_mono;
    rewrite ?E; try apply Qle_refl; rewrite <- ?E; exact Hx.
Qed.

Lemma round_binary64_exact (x : Q) (k : Z) :
  0 <= k < 2 ^ 53 -> (x == inject_Z k)%Q -> (round_binary64 x == inject_Z k)%Q.
Proof.
  intros Hk E. rewrite <- (round_binary64_Z k Hk).
  apply round_binary64_comp; [| exact E].
  rewrite E. change 0%Q with (inject_Z 0). rewrite <- Zle_Qle. lia.
Qed.

Lemma square_exact (v : Z) : 0 <= v <= 255 -> (square v == inject_Z (v * v))%Q.
Proof.
  intros Hv. unfold square. apply round_binary64_exact; [nia |].
  rewrite inject_Z_mult. reflexivity.
Qed.

Lemma sum_of_squares_exact (d : DeviceData) :
  0 <= _axisX d <= 255 -> 0 <= _axisY d <= 255 -> 0 <= _axisZ d <= 255 ->
  (Nadd (Nadd (square (_axisX d)) (square (_axisY d))) (square (_axisZ d)) ==
   inject_Z (_axisX d * _axisX d + _axisY d * _axisY d + _axisZ d * _axisZ d))%Q.
Proof.
  intros Hx Hy Hz. unfold Nadd.
  apply round_binary64_exact; [nia |].
  rewrite (round_binary64_exact _ (_axisX d * _axisX d + _axisY d * _axisY d)).
  - rewrite (square_exact _ Hz), <- inject_Z_plus. reflexivity.
  - nia.
  - rewrite (square_exact _ Hx), (square_exact _ Hy), <- inject_Z_plus. reflexivity.
Qed.

Lemma call_listeners_run (ls : list Listener) (d : IDevice) (percent : Z) (w : World) :
  call_listeners ls d percent w =
  (Resolved tt,
   {| this := this w; callbacks := callbacks w;
      trace := trace w ++ map (fun l => Delivered l d percent) ls |}).
Proof.
  revert w. induction ls as [|l ls IH]; intros w; simpl.
  - rewrite app_nil_r. destruct w; reflexivity.
  - unfold bind, record. simpl. rewrite IH. simpl. rewrite <- app_assoc. reflexivity.
Qed.

Lemma emit_run (d : IDevice) (percent : Z) (w : World) :
  emit (Some d) percent w =
  (Resolved tt,
   {| this := this w; callbacks := callbacks w;
      trace := trace w ++
               map (fun l => Delivered l d percent)
                   (listeners (sensor (this w)) (getMessageFromDeviceId (id d))) |}).
Proof. unfold emit, bind, get. apply call_listeners_run. Qed.

(** The sample after decoding a notification: untouched when the
    notification names no characteristic. *)
Definition decoded (args : NotificationArgs) (d : DeviceData) : Result DeviceData :=
  if decide (data_characteristic args = "") then Ok d
  else set_fffx (data_characteristic args) (data_value0 args) d.

(** The callback in one step: it throws and changes nothing, or it stores
    the sample and its magnitude, and calls the listeners of the device when
    the magnitude is not the stored one. *)
Lemma axis_notification_run (dev : IDevice) (args : NotificationArgs) (w : World) :
  axis_notification dev args w =
  match decoded args (notificationData (this w)) with
  | Fails err => (Rejected err, w)
  | Ok d' =>
      let m := calculateTotalAcceleration d' in
      (Resolved tt,
       {| this := {| device := device (this w); notificationData := d';
                     acceleration := m; sensor := sensor (this w) |};
          callbacks := callbacks w;
          trace := trace w ++
                   if decide (acceleration (this w) = m) then []
                   else map (fun l => Delivered l dev (Z.min (m * 20) 100))
                            (listeners (sensor (this w))
                                       (getMessageFromDeviceId (id dev))) |})
  end.
Proof.
  destruct w as [[dv nd acc sn] cbs tr].
  unfold axis_notification, decoded, bind, get. simpl.
  destruct (decide (data_characteristic args = "")) as [E|NE]; simpl.
  - destruct (decide (acc = calculateTotalAcceleration nd)) as [->|Hne]; simpl.
    + rewrite app_nil_r. reflexivity.
    + unfold bind, get. simpl. rewrite call_listeners_run. reflexivity.
  - destruct (set_fffx (data_characteristic args) (data_value0 args) nd) as [d'|err];
      simpl; [| reflexivity].
    destruct (decide (acc = calculateTotalAcceleration d')) as [->|Hne]; simpl.
    + rewrite app_nil_r. reflexivity.
    + unfold bind, get. simpl. rewrite call_listeners_run. reflexivity.
Qed.

(** After a notification that was handled, the stored magnitude is the
    magnitude of the sample as it now is. *)
Lemma axis_notification_stores_magnitude (dev : IDevice) (args : NotificationArgs)
    (w : World) :
  fst (axis_notification dev args w) = Resolved tt ->
  acceleration (this (snd (axis_notification dev args w))) =
  calculateTotalAcceleration (notificationData (this (snd (axis_notification dev args w)))).
Proof.
  rewrite axis_notification_run.
  destruct (decoded args (notificationData (this w))); simpl; [reflexivity | discriminate].
Qed.

(** C2.  For an axis sample with each component in 0..255, the magnitude
    that [calculateTotalAcceleration] returns is min(round(sqrt(x^2 + y^2 +
    z^2)), 5), where [r = round(sqrt n)] is the integer with
    [r - 1/2 <= sqrt n < r + 1/2]: the binary64 computation of the code
    agrees with the exact value.  The magnitude is a function of the current
    sample alone: whatever came before, the value the facade holds after a
    handled notification is the magnitude of the sample as it is then. *)
Theorem magnitude_of_axis_sample (d : DeviceData) :
  0 <= _axisX d <= 255 -> 0 <= _axisY d <= 255 -> 0 <= _axisZ d <= 255 ->
  let n := _axisX d * _axisX d + _axisY d * _axisY d + _axisZ d * _axisZ d in
  let r := nearest_sqrt n in
  (calculateTotalAcceleration d = Z.min r 5 /\
   0 <= r /\ 4 * n < (2 * r + 1) * (2 * r + 1) /\
   (0 < r -> (2 * r - 1) * (2 * r - 1) <= 4 * n)) /\
  (forall (dev : IDevice) (args : NotificationArgs) (w : World),
     fst (axis_notification dev args w) = Resolved tt ->
     acceleration (this (snd (axis_notification dev args w))) =
     calculateTotalAcceleration
       (notificationData (this (snd (axis_notification dev args w))))).
Proof.
  intros Hx Hy Hz n r. split; [| apply axis_notification_stores_magnitude].
  assert (Hn : 0 <= n) by (unfold n; nia).
  split; [| apply (nearest_sqrt_spec n Hn)].
  unfold calculateTotalAcceleration.
  pose proof (Math_sqrt_comp _ _ (sum_of_squares_exact d Hx Hy Hz)) as E.
  unfold Math_round. rewrite (Qfloor_comp _ _ (Qplus_comp _ _ E _ _ (Qeq_refl _))).
  apply (magnitude_of_sum_nearest n Hn).
Qed.

Lemma magnitude_of_axis_sample_witness :
  let control := {| id := "C0:FF:EE:00:00:01"; name := "Control" |} in
  let x3 := {| peripheral := "C0:FF:EE:00:00:01"; data_characteristic := "FFF1";
               data_value0 := 3 |} in
  let w := snd (axis_notification control x3 initial_world) in
  (calculateTotalAcceleration {| _axisX := 3; _axisY := 4; _axisZ := 0 |} =
     Z.min (nearest_sqrt 25) 5 /\
   4 * 25 < (2 * nearest_sqrt 25 + 1) * (2 * nearest_sqrt 25 + 1) /\
   (2 * nearest_sqrt 25 - 1) * (2 * nearest_sqrt 25 - 1) <= 4 * 25) /\
  acceleration (this w) = calculateTotalAcceleration (notificationData (this w)).
Proof.
  intros control x3 w.
  pose proof (magnitude_of_axis_sample {| _axisX := 3; _axisY := 4; _axisZ := 0 |}
                ltac:(simpl; lia) ltac:(simpl; lia) ltac:(simpl; lia)) as H.
  cbv zeta in H. destruct H as [(Hm & _ & Hhi & Hlo) Hstored].
  split; [split; [exact Hm | split; [exact Hhi | apply Hlo; reflexivity]] |].
  apply Hstored. reflexivity.
Defined.

Example magnitude_3_4_0 :
  calculateTotalAcceleration {| _axisX := 3; _axisY := 4; _axisZ := 0 |} = 5.
Proof. vm_compute. reflexivity. Qed.

Example magnitude_1_1_0 :
  calculateTotalAcceleration {| _axisX := 1; _axisY := 1; _axisZ := 0 |} = 1.
Proof. vm_compute. reflexivity. Qed.

(** C7.  [set_fffx] writes the value to the field of the sample that the
    tag names and leaves the two others as they were, for each of the three
    tags; for every other tag it throws (the error that names the tag), and
    the notification callback throws with it, the sample staying as it
    was. *)
Theorem set_fffx_updates_one_axis (propName : string) (value : Z) (d : DeviceData) :
  (propName = CHAR_X_UUID ->
   set_fffx propName value d =
   Ok {| _axisX := value; _axisY := _axisY d; _axisZ := _axisZ d |}) /\
  (propName = CHAR_Y_UUID ->
   set_fffx propName value d =
   Ok {| _axisX := _axisX d; _axisY := value; _axisZ := _axisZ d |}) /\
  (propName = CHAR_Z_UUID ->
   set_fffx propName value d =
   Ok {| _axisX := _axisX d; _axisY := _axisY d; _axisZ := value |}) /\
  (propName <> CHAR_X_UUID -> propName <> CHAR_Y_UUID -> propName <> CHAR_Z_UUID ->
   set_fffx propName value d =
   Fails (ThrownError ("Property " +:+ propName +:+ " does not exist on DeviceData.")) /\
   forall (dev : IDevice) (from : string) (w : World),
     notificationData (this w) = d -> propName <> "" ->
     axis_notification dev
       {| peripheral := from; data_characteristic := propName; data_value0 := value |} w =
     (Rejected (ThrownError
                  ("Property " +:+ propName +:+ " does not exist on DeviceData.")), w)).
Proof.
  unfold set_fffx. repeat split.
  - intros ->. reflexivity.
  - intros ->. reflexivity.
  - intros ->. reflexivity.
  - repeat (destruct (decide _); [contradiction |]). reflexivity.
  - intros dev from w Hd Hne. rewrite axis_notification_run. unfold decoded. simpl.
    destruct (decide (propName = "")); [contradiction |].
    rewrite Hd. unfold set_fffx.
    repeat (destruct (decide _); [contradiction |]). reflexivity.
Qed.

Lemma set_fffx_updates_one_axis_witness :
  set_fffx "FFF2" 9 {| _axisX := 1; _axisY := 2; _axisZ := 3 |} =
    Ok {| _axisX := 1; _axisY := 9; _axisZ := 3 |} /\
  set_fffx "FFF4" 9 {| _axisX := 1; _axisY := 2; _axisZ := 3 |} =
    Fails (ThrownError "Property FFF4 does not exist on DeviceData.").
Proof.
  split.
  - apply (proj1 (proj2 (set_fffx_updates_one_axis "FFF2" 9
                           {| _axisX := 1; _axisY := 2; _axisZ := 3 |}))).
    reflexivity.
  - apply (proj2 (proj2 (proj2 (set_fffx_updates_one_axis "FFF4" 9
                                  {| _axisX := 1; _axisY := 2; _axisZ := 3 |}))));
      discriminate.
Defined.

End AxisClaims.

(** ** Peripherals to run the facades against *)

Module Fixtures.

(** A BLE stack whose every call succeeds: the link is up, reads return one
    zero byte, and the MTU negotiated is [mtu]. *)
Definition dependable (mtu : Z) : ReactNative.BleManager :=
  {| ReactNative.connect_answer := fun _ _ => Ok tt;
     ReactNative.retrieveServices_answer := fun _ _ => Ok tt;
     ReactNative.isPeripheralConnected_answer := fun _ _ => Ok true;
     ReactNative.startNotification_answer := fun _ _ _ _ => Ok tt;
     ReactNative.stopNotification_answer := fun _ _ _ _ => Ok tt;
     ReactNative.read_answer := fun _ _ _ _ => Ok [0];
     ReactNative.write_answer := fun _ _ _ _ _ _ => Ok tt;
     ReactNative.writeWithoutResponse_answer := fun _ _ _ _ _ _ => Ok tt;
     ReactNative.requestMTU_answer := fun _ _ _ => Ok mtu;
     ReactNative.disconnect_answer := fun _ _ => Ok tt |}.

(** The same stack with every read failing with [err]. *)
Definition unreadable (err : JSError) : ReactNative.BleManager :=
  {| ReactNative.connect_answer := fun _ _ => Ok tt;
     ReactNative.retrieveServices_answer := fun _ _ => Ok tt;
     ReactNative.isPeripheralConnected_answer := fun _ _ => Ok true;
     ReactNative.startNotification_answer := fun _ _ _ _ => Ok tt;
     ReactNative.stopNotification_answer := fun _ _ _ _ => Ok tt;
     ReactNative.read_answer := fun _ _ _ _ => Fails err;
     ReactNative.write_answer := fun _ _ _ _ _ _ => Ok tt;
     ReactNative.writeWithoutResponse_answer := fun _ _ _ _ _ _ => Ok tt;
     ReactNative.requestMTU_answer := fun _ _ _ => Ok 253;
     ReactNative.disconnect_answer := fun _ _ => Ok tt |}.

(** A stack that reports the peripheral as not connected. *)
Definition out_of_reach : ReactNative.BleManager :=
  {| ReactNative.connect_answer := fun _ _ => Ok tt;
     ReactNative.retrieveServices_answer := fun _ _ => Ok tt;
     ReactNative.isPeripheralConnected_answer := fun _ _ => Ok false;
     ReactNative.startNotification_answer := fun _ _ _ _ => Ok tt;
     ReactNative.stopNotification_answer := fun _ _ _ _ => Ok tt;
     ReactNative.read_answer := fun _ _ _ _ => Ok [0];
     ReactNative.write_answer := fun _ _ _ _ _ _ => Ok tt;
     ReactNative.writeWithoutResponse_answer := fun _ _ _ _ _ _ => Ok tt;
     ReactNative.requestMTU_answer := fun _ _ _ => Ok 253;
     ReactNative.disconnect_answer := fun _ _ => Ok tt |}.

Definition android : ReactNative.Platform :=
  {| ReactNative.OS := "android"; ReactNative.Version := 33%Q |}.

Definition ios : ReactNative.Platform :=
  {| ReactNative.OS := "ios"; ReactNative.Version := (174 # 10)%Q |}.

Definition control : IDevice := {| id := "C0:FF:EE:00:00:01"; name := "Control" |}.

(** A new facade after [connect(control)]. *)
Definition connected : ReactNative.World :=
  snd (ReactNative.connect (dependable 253) android (Some control)
         ReactNative.initial_world).

(** The events that [m] adds to the trace of [w]. *)
Definition added {A} (m : ReactNative.M A) (w : ReactNative.World)
    : ReactNative.History :=
  drop (length (ReactNative.trace w)) (ReactNative.trace (snd (m w))).

(** The browser's stack: every call succeeds as long as the link is up;
    the link is up from [gatt.connect()] until [gatt.disconnect()], and with
    the link down every GATT operation fails with a [NetworkError]. *)
Fixpoint link_up (h : Web.History) (up : bool) : bool :=
  match h with
  | [] => up
  | Web.Called Web.GattConnect true :: rest => link_up rest true
  | Web.GattDisconnect :: rest => link_up rest false
  | _ :: rest => link_up rest up
  end.

Definition network_error : JSError :=
  ThrownError "NetworkError: GATT Server is disconnected.".

Definition while_up {A} (h : Web.History) (a : A) : Result A :=
  if link_up h false then Ok a else Fails network_error.

Definition browser : Web.WebBluetooth :=
  {| Web.gatt_connect_answer := fun _ => Ok tt;
     Web.getPrimaryService_answer := fun h _ => while_up h tt;
     Web.getCharacteristic_answer := fun h _ => while_up h tt;
     Web.startNotifications_answer := fun h _ => while_up h tt;
     Web.readValue_answer := fun h _ => while_up h [87];
     Web.writeValue_answer := fun h _ _ => while_up h tt;
     Web.gatt_connected := fun h => link_up h false |}.

(** A browser stack on which reading a characteristic value fails. *)
Definition browser_unreadable (err : JSError) : Web.WebBluetooth :=
  {| Web.gatt_connect_answer := fun _ => Ok tt;
     Web.getPrimaryService_answer := fun _ _ => Ok tt;
     Web.getCharacteristic_answer := fun _ _ => Ok tt;
     Web.startNotifications_answer := fun _ _ => Ok tt;
     Web.readValue_answer := fun _ _ => Fails err;
     Web.writeValue_answer := fun _ _ _ => Ok tt;
     Web.gatt_connected := fun _ => true |}.

(** A stack that keeps track of the link like [browser], and goes on
    accepting GATT operations after the link went down. *)
Definition browser_lenient : Web.WebBluetooth :=
  {| Web.gatt_connect_answer := fun _ => Ok tt;
     Web.getPrimaryService_answer := fun _ _ => Ok tt;
     Web.getCharacteristic_answer := fun _ _ => Ok tt;
     Web.startNotifications_answer := fun _ _ => Ok tt;
     Web.readValue_answer := fun _ _ => Ok [87];
     Web.writeValue_answer := fun _ _ _ => Ok tt;
     Web.gatt_connected := fun h => link_up h false |}.

Definition web_device : Web.BluetoothDevice := {| Web.has_gatt := true |}.

(** A new web facade after [connect(web_device)]. *)
Definition web_connected : Web.World :=
  snd (Web.connect browser web_device Web.initial_world).

(** The same facade after [disconnect()]. *)
Definition web_disconnected : Web.World :=
  snd (Web.disconnect browser web_connected).

Definition web_added {A} (m : Web.M A) (w : Web.World) : Web.History :=
  drop (length (Web.trace w)) (Web.trace (snd (m w))).

End Fixtures.
(** ** Progress reports *)

Module TransferClaims.
Import Fixtures.

(** What the code reports for the chunk of index [i] out of [total]:
    the percentage of the specification, the integer nearest to
    [100 * i / total]; half-way between two integers, where the
    specification takes the upper one, the binary64 arithmetic of the code
    gives the upper or the lower one. *)
Definition reports_percent (i total p : Z) : Prop :=
  p = exact_percent i total \/
  (half_way i total /\ p = exact_percent i total - 1).

(** Chunks written, each followed by the report of its percentage. *)
Fixpoint chunk_reports (chunks : list (list Z)) (percents : list Z)
    : list OtaStep :=
  match chunks, percents with
  | chunk :: chunks', p :: percents' =>
      Wrote chunk :: Reported p :: chunk_reports chunks' percents'
  | _, _ => []
  end.

(** What a transfer with a progress callback shows: nothing when it fails
    before the header is written; otherwise the header, then the first [k]
    chunks in order, each followed by one call of the callback with the
    percentage for its index; all the chunks when the transfer resolves.
    The percentages never decrease. *)
Definition progress_law (fuel : nat) (firmware : list Z) (out : Outcome unit)
    (steps : list OtaStep) : Prop :=
  StronglySorted Z.le (reported steps) /\
  ((out <> Resolved tt /\ steps = []) \/
   exists (packetSize flag : Z) (chunks : list (list Z)) (k : nat)
          (percents : list Z),
     split_chunks fuel firmware packetSize = Some chunks /\
     (k <= length chunks)%nat /\
     (out = Resolved tt -> k = length chunks) /\
     length percents = k /\
     steps = Wrote [packetSize; flag] :: chunk_reports (take k chunks) percents /\
     written steps = [packetSize; flag] :: take k chunks /\
     reported steps = percents /\
     forall (i : nat) (p : Z), percents !! i = Some p ->
       reports_percent (Z.of_nat i) (Z.of_nat (length chunks)) p).

Lemma stream_view_chunk_reports (total i : Z) (chunks : list (list Z)) :
  stream_view true total i chunks =
  chunk_reports chunks
    (map (fun j : nat => progress_percent (i + Z.of_nat j) total)
         (seq 0 (length chunks))).
Proof.
  revert i. induction chunks as [|chunk rest IH]; intros i; [reflexivity |].
  simpl. rewrite IH. f_equal.
  replace (i + Z.of_nat 0) with i by lia. f_equal. f_equal.
  rewrite <- seq_shift, map_map. apply map_ext. intros j. f_equal. lia.
Qed.

Lemma transfer_shown_progress_law header_of fuel firmware cb out steps :
  Z.of_nat (length firmware) <= 2 ^ 44 ->
  transfer_shown header_of fuel firmware (Some cb) out steps ->
  progress_law fuel firmware out steps.
Proof.
  intros Hsize
    [[Hout ->]|(packetSize & flag & chunks & k & _ & Hsplit & Hk & -> & Hall)].
  - split; [constructor | left; auto].
  - assert (Hb : bool_decide (is_Some (Some cb)) = true)
      by (apply bool_decide_eq_true; eauto).
    rewrite Hb.
    pose proof (split_chunks_length _ _ _ _ Hsplit) as Hlen.
    assert (Hlk : length (take k chunks) = k)
      by (rewrite length_take; lia).
    split.
    + simpl. destruct (take k chunks) as [|c cs] eqn:E; [constructor |].
      apply reported_stream_view_sorted; [| lia].
      destruct chunks; [rewrite take_nil in E; discriminate | simpl; lia].
    + right.
      exists packetSize, flag, chunks, k,
        (map (fun j : nat => progress_percent (Z.of_nat j) (Z.of_nat (length chunks)))
             (seq 0 k)).
      split; [exact Hsplit |]. split; [exact Hk |]. split; [exact Hall |].
      split; [rewrite length_map, length_seq; reflexivity |].
      split; [rewrite stream_view_chunk_reports, Hlk; reflexivity |].
      split; [simpl; rewrite written_stream_view; reflexivity |].
      split; [simpl; rewrite reported_stream_view, Hlk; reflexivity |].
      intros i p Hp. rewrite list_lookup_fmap in Hp.
      destruct (seq 0 k !! i) as [j|] eqn:Hj; [| discriminate].
      apply lookup_seq in Hj as [-> Hik]. injection Hp as <-.
      apply progress_percent_exact; lia.
Qed.




Example progress_values_of_three_chunks :
  map (fun i => progress_percent i 3) [0; 1; 2] = [0; 33; 67] /\
  map (fun i => exact_percent i 3) [0; 1; 2] = [0; 33; 67].
Proof. vm_compute. split; reflexivity. Qed.

(** Half-way the code can also agree with the specification: 12.5 is
    computed exactly, and rounded to 13. *)
Example progress_1_of_8 : progress_percent 1 8 = 13 /\ exact_percent 1 8 = 13.
Proof. vm_compute. split; reflexivity. Qed.

(** The last report can be 100 although a chunk is still to be sent. *)
Example progress_199_of_200 : progress_percent 199 200 = 100.
Proof. vm_compute. reflexivity. Qed.


(** ** The packet size *)

(** What a transfer shows of its packet size: whenever anything reaches the
    OTA data characteristic, the first payload is the header
    [[packetSize, flag]] that [header_of] admits, and the payloads after it
    are the first chunks of the image cut with that packet size. *)
Definition packet_size_law (header_of : Z -> Z -> Prop) (fuel : nat)
    (firmware : list Z) (out : Outcome unit) (steps : list OtaStep) : Prop :=
  (out <> Resolved tt /\ steps = []) \/
  exists (packetSize flag : Z) (chunks : list (list Z)) (k : nat),
    header_of packetSize flag /\
    split_chunks fuel firmware packetSize = Some chunks /\
    (k <= length chunks)%nat /\
    (out = Resolved tt -> k = length chunks) /\
    written steps = [packetSize; flag] :: take k chunks.

Lemma transfer_shown_packet_size_law header_of fuel firmware onProgress out steps :
  transfer_shown header_of fuel firmware onProgress out steps ->
  packet_size_law header_of fuel firmware out steps.
Proof.
  intros [[Hout ->]|(packetSize & flag & chunks & k & Hh & Hsplit & Hk & -> & Hall)].
  - left. auto.
  - right. exists packetSize, flag, chunks, k. repeat split; try assumption.
    simpl. rewrite written_stream_view. reflexivity.
Qed.

(** C4, as the code has it.  The packet size of a transfer, announced in the
    header and used to cut the image, is the MTU less 3: the MTU that the
    stack answers to the [requestMTU] of that transfer (made for the stored
    device, right after the query of the guard), 185 on iOS where nothing
    is negotiated, and the constant 256 in the web facade.  The value is not
    checked: with any MTU, 3 or less included, an empty image is announced
    with the header [[MTU - 3, flag]] and the call resolves. *)
Theorem packet_size_is_mtu_less_3 :
  (forall BLE platform fuel firmware onProgress w,
     let run := ReactNative.flashFirmware BLE platform fuel firmware onProgress w in
     exists steps,
       ReactNativeFacts.view (snd run) = ReactNativeFacts.view w ++ steps /\
       packet_size_law (ReactNativeFacts.header_of BLE platform w) fuel firmware
                       (fst run) steps) /\
  (forall GATT fuel firmware onProgress w,
     let run := Web.flashFirmware GATT fuel firmware onProgress w in
     exists steps,
       WebFacts.view (snd run) = WebFacts.view w ++ steps /\
       packet_size_law WebFacts.header_of fuel firmware (fst run) steps) /\
  (forall mtu : Z,
     let transfer := ReactNative.flashFirmware (dependable mtu) android 0 [] None in
     fst (transfer connected) = Resolved tt /\
     written (ReactNativeFacts.ota_view (added transfer connected)) = [[mtu - 3; 0]]).
Proof.
  split; [| split].
  - intros BLE platform fuel firmware onProgress w run.
    destruct (ReactNativeFacts.rn_observes_flashFirmware BLE platform fuel firmware
                onProgress w) as (steps & Hv & Hshown).
    exists steps. split; [exact Hv |].
    apply (transfer_shown_packet_size_law _ _ _ onProgress _ _ Hshown).
  - intros GATT fuel firmware onProgress w run.
    destruct (WebFacts.web_observes_flashFirmware GATT fuel firmware onProgress w)
      as (steps & Hv & Hshown).
    exists steps. split; [exact Hv |].
    apply (transfer_shown_packet_size_law _ _ _ onProgress _ _ Hshown).
  - intros mtu. vm_compute. split; reflexivity.
Qed.

(** A stack that answers the request of an MTU with 23 as long as nothing
    has been asked of it, and with 253 afterwards. *)
Definition slow_starter : ReactNative.BleManager :=
  {| ReactNative.connect_answer := fun _ _ => Ok tt;
     ReactNative.retrieveServices_answer := fun _ _ => Ok tt;
     ReactNative.isPeripheralConnected_answer := fun _ _ => Ok true;
     ReactNative.startNotification_answer := fun _ _ _ _ => Ok tt;
     ReactNative.stopNotification_answer := fun _ _ _ _ => Ok tt;
     ReactNative.read_answer := fun _ _ _ _ => Ok [0];
     ReactNative.write_answer := fun _ _ _ _ _ _ => Ok tt;
     ReactNative.writeWithoutResponse_answer := fun _ _ _ _ _ _ => Ok tt;
     ReactNative.requestMTU_answer :=
       fun h _ _ => match h with [] => Ok 23 | _ => Ok 253 end;
     ReactNative.disconnect_answer := fun _ _ => Ok tt |}.

(** The header carries the answer to the request of the transfer itself. *)
Example header_follows_the_answer_to_the_request :
  let transfer := ReactNative.flashFirmware slow_starter android 3 [1; 2; 3] None in
  written (ReactNativeFacts.ota_view (added transfer connected)) =
    [[250; 0]; [1; 2; 3]].
Proof. vm_compute. reflexivity. Qed.

(** With an MTU of 3 the packet size is 0, and nothing is rejected: an empty
    image is transferred, header [[0, 0]] and all, and on an image of three
    bytes the chunking loop is still running after a thousand turns. *)
Lemma mtu_3_is_not_rejected :
  let empty := ReactNative.flashFirmware (dependable 3) android 8 [] None in
  let three := ReactNative.flashFirmware (dependable 3) android 1000 [1; 2; 3] None in
  fst (empty connected) = Resolved tt /\
  List.filter ReactNativeFacts.is_write (added empty connected) =
    [ReactNative.Called
       (ReactNative.BleWrite (id control) "1400" "1701" [0; 0] None) true;
     ReactNative.Called
       (ReactNative.BleWrite (id control) "1400" "1702" [1] None) true;
     ReactNative.Called
       (ReactNative.BleWriteWithoutResponse (id control) "1400" "1702" [4] (Some 1))
       true] /\
  fst (three connected) = OutOfFuel.
Proof. vm_compute. repeat split. Qed.

(** On a non-empty image a packet size of 0 or less keeps [flashFirmware]
    in its chunking loop for ever: whatever the fuel, it has not settled. *)
Lemma nonpositive_packet_size_never_settles (mtu : Z) (fuel : nat)
    (firmware : list Z) :
  mtu <= 3 -> firmware <> [] ->
  fst (ReactNative.flashFirmware (dependable mtu) android fuel firmware None
         connected) = OutOfFuel.
Proof.
  intros Hmtu Hne.
  assert (Hloop : split_chunks fuel firmware (mtu - 3) = None).
  { apply chunk_loop_diverges; [lia |]. destruct firmware; [contradiction | simpl; lia]. }
  unfold ReactNative.flashFirmware, bind. simpl.
  rewrite Hloop. reflexivity.
Qed.

(** ** The connection guard *)

(** C5, as the code has it.  Without an active, verified connection
    [flashFirmware] is rejected with the not-connected message before any
    write, whatever the image.  On the React Native facade: when no device
    was ever given to [connect] nothing at all is asked of the stack, and
    when the stack reports the peripheral as not connected that query is all
    that was asked; the facade and the callback table stay as they were.  On
    the web facade: when the control service was never obtained, nothing
    happens at all.  (An empty image is no reason for a rejection.) *)
Theorem flash_needs_connection :
  (forall BLE platform fuel firmware onProgress w,
     let run := ReactNative.flashFirmware BLE platform fuel firmware onProgress w in
     (ReactNative.device (ReactNative.this w) = None ->
      run = (Rejected (RejectedWith ReactNative.deviceNotInitMsg), w)) /\
     (forall d,
        ReactNative.device (ReactNative.this w) = Some d ->
        ReactNative.isPeripheralConnected_answer BLE (ReactNative.trace w) (id d) =
          Ok false ->
        fst run = Rejected (RejectedWith ReactNative.deviceNotInitMsg) /\
        ReactNative.this (snd run) = ReactNative.this w /\
        ReactNative.callbacks (snd run) = ReactNative.callbacks w /\
        ReactNative.trace (snd run) =
          ReactNative.trace w ++
          [ReactNative.Called (ReactNative.BleIsPeripheralConnected (id d)) true])) /\
  (forall GATT fuel firmware onProgress w,
     Web.controlService (Web.this w) = None ->
     Web.flashFirmware GATT fuel firmware onProgress w =
     (Rejected (RejectedWith Web.deviceNotInitMsg), w)).
Proof.
  split.
  - intros BLE platform fuel firmware onProgress w run. subst run. split.
    + intros Hnone. unfold ReactNative.flashFirmware, ReactNative.ready, bind, get.
      simpl. rewrite Hnone. reflexivity.
    + intros d Hd Hanswer.
      unfold ReactNative.flashFirmware, ReactNative.ready, ReactNative.isConnected,
        ReactNative.BleManager_isPeripheralConnected, ReactNative.ask, bind, get.
      simpl. rewrite Hd. simpl. rewrite Hd. rewrite Hanswer. simpl. auto.
  - intros GATT fuel firmware onProgress w Hnone.
    unfold Web.flashFirmware, Web.not_initialized, bind, get. simpl.
    rewrite Hnone. reflexivity.
Qed.

Lemma flash_needs_connection_witness :
  (let run := ReactNative.flashFirmware out_of_reach android 8 [1; 2; 3] None
                connected in
   fst run = Rejected (RejectedWith ReactNative.deviceNotInitMsg) /\
   ReactNative.this (snd run) = ReactNative.this connected /\
   ReactNative.callbacks (snd run) = ReactNative.callbacks connected /\
   ReactNative.trace (snd run) =
     ReactNative.trace connected ++
     [ReactNative.Called (ReactNative.BleIsPeripheralConnected (id control)) true]) /\
  ReactNative.flashFirmware out_of_reach android 8 [1; 2; 3] None
    ReactNative.initial_world =
    (Rejected (RejectedWith ReactNative.deviceNotInitMsg), ReactNative.initial_world) /\
  Web.flashFirmware browser 8 [1; 2; 3] None Web.initial_world =
    (Rejected (RejectedWith Web.deviceNotInitMsg), Web.initial_world).
Proof.
  split; [| split].
  - apply (proj2 (proj1 flash_needs_connection out_of_reach android 8%nat [1; 2; 3]
                    None connected) control); reflexivity.
  - apply (proj1 (proj1 flash_needs_connection out_of_reach android 8%nat [1; 2; 3]
                    None ReactNative.initial_world)); reflexivity.
  - apply (proj2 flash_needs_connection browser 8%nat [1; 2; 3] None
             Web.initial_world); reflexivity.
Defined.

(** On a connected facade an empty image is transferred like any other:
    header, start command and done command are written, and the call
    resolves. *)
Lemma empty_image_is_transferred :
  let transfer := ReactNative.flashFirmware (dependable 185) ios 0 [] None in
  fst (transfer connected) = Resolved tt /\
  List.filter ReactNativeFacts.is_write (added transfer connected) =
    [ReactNative.Called
       (ReactNative.BleWrite (id control) "1400" "1701" [182; 0] None) true;
     ReactNative.Called
       (ReactNative.BleWrite (id control) "1400" "1702" [1] None) true;
     ReactNative.Called
       (ReactNative.BleWrite (id control) "1400" "1702" [4] (Some 1)) true].
Proof. vm_compute. split; reflexivity. Qed.

(** The guard of the web facade looks at [controlService] alone: the state
    of the link has no part in it. *)
Lemma web_guard_ignores_link (k : Web.KiirooControl) :
  Web.not_initialized k = negb (bool_decide (is_Some (Web.controlService k))).
Proof. unfold Web.not_initialized. simpl. apply orb_false_r. Qed.

(** C8, where the code departs from it.  A web facade that was connected
    and then disconnected has no active connection ([isConnected()] is
    false), yet [flashFirmware] goes past its guard and on to the GATT
    operations: with a stack that refuses them once the link is down, the
    call is rejected with the stack's NetworkError, not with the
    not-connected message; with a stack that still accepts them, the whole
    image is written. *)
Lemma web_flash_after_disconnect :
  fst (Web.isConnected browser web_disconnected) = Resolved false /\
  fst (Web.flashFirmware browser 8 [1; 2; 3] None web_disconnected) =
    Rejected network_error /\
  web_added (Web.flashFirmware browser 8 [1; 2; 3] None) web_disconnected =
    [Web.Called (Web.GetCharacteristic Web.OTA_DATA_UUID) false] /\
  fst (Web.isConnected browser_lenient web_disconnected) = Resolved false /\
  fst (Web.flashFirmware browser_lenient 8 [1; 2; 3] None web_disconnected) =
    Resolved tt /\
  List.filter WebFacts.is_write
    (web_added (Web.flashFirmware browser_lenient 8 [1; 2; 3] None) web_disconnected) =
    [Web.Called (Web.WriteValue Web.OTA_DATA_UUID [253; 0]) true;
     Web.Called (Web.WriteValue Web.OTA_CONTROL_UUID [1]) true;
     Web.Called (Web.WriteValue Web.OTA_DATA_UUID [1; 2; 3]) true;
     Web.Called (Web.WriteValue Web.OTA_CONTROL_UUID [4]) true].
Proof. vm_compute. repeat split. Qed.

End TransferClaims.

(** ** Reading the battery level *)

Module ReadClaims.
Import Fixtures.

(** C9, as the code has it.  On the React Native facade a read that fails
    during [getBattery] on a connected device is handed to the caller as it
    is.  On the web facade a failure to get the characteristic is handed to
    the caller, while a failing [readValue] is caught: the call resolves to
    -1. *)
Theorem getBattery_read_failure :
  (forall BLE w d err,
     ReactNative.device (ReactNative.this w) = Some d ->
     ReactNative.isPeripheralConnected_answer BLE (ReactNative.trace w) (id d) =
       Ok true ->
     ReactNative.read_answer BLE
       (ReactNative.trace w ++
        [ReactNative.Called (ReactNative.BleIsPeripheralConnected (id d)) true])
       (id d) ReactNative.KIIROO_CONTROL_SERVICE_UUID ReactNative.BATTERY_LEVEL_UUID =
       Fails err ->
     fst (ReactNative.getBattery BLE w) = Rejected err) /\
  (forall GATT w s err,
     Web.controlService (Web.this w) = Some s ->
     Web.getCharacteristic_answer GATT (Web.trace w) Web.BATTERY_LEVEL_UUID =
       Fails err ->
     fst (Web.getBattery GATT w) = Rejected err) /\
  (forall GATT w s err,
     Web.controlService (Web.this w) = Some s ->
     Web.getCharacteristic_answer GATT (Web.trace w) Web.BATTERY_LEVEL_UUID = Ok tt ->
     Web.readValue_answer GATT
       (Web.trace w ++ [Web.Called (Web.GetCharacteristic Web.BATTERY_LEVEL_UUID) true])
       Web.BATTERY_LEVEL_UUID = Fails err ->
     fst (Web.getBattery GATT w) = Resolved (-1)).
Proof.
  split; [| split].
  - intros BLE w d err Hd Hup Hread.
    unfold ReactNative.getBattery, ReactNative.readChar, ReactNative.ready,
      ReactNative.isConnected, ReactNative.BleManager_isPeripheralConnected,
      ReactNative.BleManager_read, ReactNative.ask, bind, get.
    simpl. rewrite Hd. simpl. rewrite Hd, Hup. simpl. rewrite Hread. reflexivity.
  - intros GATT w s err Hs Hchar.
    unfold Web.getBattery, Web.not_initialized, Web.getCharacteristic, Web.ask,
      bind, get. simpl. rewrite Hs. simpl. rewrite Hchar. reflexivity.
  - intros GATT w s err Hs Hchar Hread.
    unfold Web.getBattery, Web.not_initialized, Web.getCharacteristic,
      Web.readValue, Web.ask, try_catch, bind, get.
    simpl. rewrite Hs. simpl. rewrite Hchar. simpl. rewrite Hread. reflexivity.
Qed.

Lemma getBattery_read_failure_witness :
  fst (ReactNative.getBattery (unreadable network_error) connected) =
    Rejected network_error /\
  fst (Web.getBattery browser web_disconnected) = Rejected network_error /\
  fst (Web.getBattery (browser_unreadable network_error) web_connected) =
    Resolved (-1).
Proof.
  split; [| split].
  - apply (proj1 getBattery_read_failure (unreadable network_error) connected
             control network_error); reflexivity.
  - apply (proj1 (proj2 getBattery_read_failure) browser web_disconnected
             (Web.PrimaryService Web.KIIROO_CONTROL_SERVICE_UUID) network_error);
      reflexivity.
  - apply (proj2 (proj2 getBattery_read_failure) (browser_unreadable network_error)
             web_connected (Web.PrimaryService Web.KIIROO_CONTROL_SERVICE_UUID)
             network_error); reflexivity.
Defined.

(** The web facade answers a failing read with -1, and a value that is
    empty as well. *)
Lemma web_getBattery_swallows_read_error :
  Web.getBattery (browser_unreadable network_error) web_connected =
  (Resolved (-1),
   {| Web.this := Web.this web_connected;
      Web.trace :=
        Web.trace web_connected ++
        [Web.Called (Web.GetCharacteristic Web.BATTERY_LEVEL_UUID) true;
         Web.Called (Web.ReadValue Web.BATTERY_LEVEL_UUID) false] |}).
Proof. vm_compute. reflexivity. Qed.

Example getBattery_reads_the_first_byte :
  fst (ReactNative.getBattery (dependable 23) connected) = Resolved (Some 0) /\
  fst (Web.getBattery browser web_connected) = Resolved 87.
Proof. vm_compute. split; reflexivity. Qed.

End ReadClaims.

(** ** The sensor pipeline *)

Module SensorClaims.
Import ReactNative Fixtures AxisClaims.

(** The percentages that listener [l] was called with for device [d]. *)
Definition delivered_to (l : Listener) (d : IDevice) (h : History) : list Z :=
  omap (fun e =>
          match e with
          | Delivered l' d' p => if decide (l' = l /\ d' = d) then Some p else None
          | _ => None
          end) h.

(** No two neighbours are equal. *)
Fixpoint no_repeat (ps : list Z) : Prop :=
  match ps with
  | a :: (b :: _) as rest => a <> b /\ no_repeat rest
  | _ => True
  end.

(** The notifications [ns] arrive one after the other; each is handed to the
    listener of the BLE event, and one that makes the callback throw does
    not keep the later ones from arriving. *)
Definition notify_all (ns : list NotificationArgs) (w : World) : World :=
  foldl (fun w n => snd (didUpdateValueForCharacteristic n w)) w ns.

(** The events that the notifications add to the trace. *)
Definition notified (ns : list NotificationArgs) (w : World) : History :=
  drop (length (trace w)) (trace (notify_all ns w)).

(** [l] was subscribed once, and not unsubscribed, for the events of [d]. *)
Definition subscribed_once (l : Listener) (d : IDevice) (w : World) : Prop :=
  count_occ Nat.eq_dec
    (listeners (sensor (this w)) (getMessageFromDeviceId (id d))) l = 1%nat.

(** The callback of [connect(d)] is the one in the table for [d]. *)
Definition handled_by (d : IDevice) (w : World) : Prop :=
  exists info, callbacks w !! id d = Some info /\ callback info = Some (AxisCallback d).

Lemma delivered_to_app l d h1 h2 :
  delivered_to l d (h1 ++ h2) = delivered_to l d h1 ++ delivered_to l d h2.
Proof. unfold delivered_to. apply omap_app. Qed.

Lemma delivered_to_listeners l d p ls :
  delivered_to l d (map (fun l' => Delivered l' d p) ls) =
  replicate (count_occ Nat.eq_dec ls l) p.
Proof.
  induction ls as [|x ls IH]; [reflexivity |].
  simpl. unfold delivered_to in *. simpl. rewrite IH.
  destruct (Nat.eq_dec x l) as [->|Hne].
  - destruct (decide (l = l /\ d = d)) as [_|Hn]; [reflexivity |].
    exfalso. apply Hn. auto.
  - destruct (decide (x = l /\ d = d)) as [[He _]|_]; [contradiction | reflexivity].
Qed.

Lemma dispatch_to_axis_callback (d : IDevice) (n : NotificationArgs) (w : World) :
  handled_by d w -> peripheral n = id d ->
  didUpdateValueForCharacteristic n w = axis_notification d n w.
Proof.
  intros (info & Hinfo & Hcb) Hp.
  unfold didUpdateValueForCharacteristic, bind, get. simpl.
  rewrite Hp, Hinfo, Hcb. reflexivity.
Qed.

(** The percentage that one notification delivers, if any. *)
Definition percent_delivered (n : NotificationArgs) (w : World) : list Z :=
  match decoded n (notificationData (this w)) with
  | Fails _ => []
  | Ok sample =>
      let magnitude := calculateTotalAcceleration sample in
      if decide (acceleration (this w) = magnitude) then []
      else [Z.min (magnitude * 20) 100]
  end.

Lemma axis_notification_delivers l d n w :
  subscribed_once l d w ->
  let w' := snd (axis_notification d n w) in
  exists extra,
    trace w' = trace w ++ extra /\
    delivered_to l d extra = percent_delivered n w /\
    callbacks w' = callbacks w /\
    sensor (this w') = sensor (this w) /\
    (percent_delivered n w = [] -> acceleration (this w') = acceleration (this w)) /\
    (forall p, percent_delivered n w = [p] ->
       acceleration (this w') <= 5 /\
       p = Z.min (acceleration (this w') * 20) 100 /\
       acceleration (this w') <> acceleration (this w)).
Proof.
  intros Hsub w'. subst w'. rewrite axis_notification_run. unfold percent_delivered.
  destruct (decoded n (notificationData (this w))) as [sample|err]; simpl.
  - set (m := calculateTotalAcceleration sample).
    assert (Hm : m <= 5) by (unfold m, calculateTotalAcceleration; lia).
    destruct (decide (acceleration (this w) = m)) as [Heq|Hne].
    + exists []. rewrite app_nil_r.
      split; [reflexivity |]. split; [reflexivity |].
      split; [reflexivity |]. split; [reflexivity |].
      split; [intros _; symmetry; exact Heq | discriminate].
    + eexists. split; [reflexivity |].
      rewrite delivered_to_listeners, Hsub. simpl.
      split; [reflexivity |]. split; [reflexivity |]. split; [reflexivity |].
      split; [discriminate |].
      intros p [= <-]. auto.
  - exists []. rewrite app_nil_r.
    split; [reflexivity |]. split; [reflexivity |].
    split; [reflexivity |]. split; [reflexivity |].
    split; [reflexivity | discriminate].
Qed.

Lemma no_repeat_cons p ps :
  no_repeat ps -> head ps <> Some p -> no_repeat (p :: ps).
Proof.
  intros Hps Hhead. destruct ps as [|q ps]; simpl in *; [exact I |].
  split; [| exact Hps]. intros ->. apply Hhead. reflexivity.
Qed.

Lemma notify_all_no_repeat l d ns :
  Forall (fun n => peripheral n = id d) ns ->
  forall w,
    handled_by d w -> subscribed_once l d w ->
    exists extra,
      trace (notify_all ns w) = trace w ++ extra /\
      no_repeat (delivered_to l d extra) /\
      (acceleration (this w) <= 5 ->
       head (delivered_to l d extra) <> Some (Z.min (acceleration (this w) * 20) 100)).
Proof.
  induction 1 as [|n ns Hn Hns IH]; intros w Hh Hsub.
  - exists []. simpl. rewrite app_nil_r.
    split; [reflexivity |]. split; [exact I |]. intros _. discriminate.
  - simpl. rewrite (dispatch_to_axis_callback d n w Hh Hn).
    destruct (axis_notification_delivers l d n w Hsub)
      as (e1 & Ht1 & Hd1 & Hcb & Hsn & Hsame & Hnew).
    set (w1 := snd (axis_notification d n w)) in *.
    assert (Hh1 : handled_by d w1) by (unfold handled_by; rewrite Hcb; exact Hh).
    assert (Hsub1 : subscribed_once l d w1)
      by (unfold subscribed_once; rewrite Hsn; exact Hsub).
    destruct (IH w1 Hh1 Hsub1) as (e2 & Ht2 & Hnr & Hhead).
    exists (e1 ++ e2). split; [rewrite Ht2, Ht1, app_assoc; reflexivity |].
    rewrite delivered_to_app, Hd1.
    destruct (percent_delivered n w) as [|p [|q rest]] eqn:Hp.
    + simpl. rewrite (Hsame eq_refl) in Hhead. auto.
    + destruct (Hnew p eq_refl) as (Hle & -> & Hne). simpl. split.
      * apply no_repeat_cons; [exact Hnr | apply Hhead, Hle].
      * intros Hacc [= Heq]. lia.
    + exfalso. unfold percent_delivered in Hp.
      destruct (decoded n _); [| discriminate].
      destruct (decide _); discriminate.
Qed.

(** C6, as the code has it.  For the notifications of one connected device
    and a listener subscribed once to its events: a notification delivers
    nothing when its tag is unknown (the callback throws) or when the
    magnitude of the sample it leaves is the magnitude the facade holds,
    which is 0 on a new facade; otherwise it delivers
    [min(magnitude * 20, 100)], once.  Whatever the notifications, no two
    values delivered one after the other are equal.  [emit] for no device
    does nothing. *)
Theorem sensor_bus_delivers_changes :
  (forall l d n w,
     handled_by d w -> subscribed_once l d w -> peripheral n = id d ->
     delivered_to l d (notified [n] w) = percent_delivered n w) /\
  (forall l d ns w,
     handled_by d w -> subscribed_once l d w ->
     Forall (fun n => peripheral n = id d) ns ->
     no_repeat (delivered_to l d (notified ns w))) /\
  (forall percent w, emit None percent w = (Resolved tt, w)).
Proof.
  split; [| split].
  - intros l d n w Hh Hsub Hn. unfold notified, notify_all. simpl.
    rewrite (dispatch_to_axis_callback d n w Hh Hn).
    destruct (axis_notification_delivers l d n w Hsub) as (e1 & Ht1 & Hd1 & _).
    rewrite Ht1, drop_app_length. exact Hd1.
  - intros l d ns w Hh Hsub Hns.
    destruct (notify_all_no_repeat l d ns Hns w Hh Hsub) as (extra & Ht & Hnr & _).
    unfold notified. rewrite Ht, drop_app_length. exact Hnr.
  - intros percent w. reflexivity.
Qed.

(** A new facade, connected to [control], with listener 7 subscribed. *)
Definition listening : World := snd (sensor_subscribe (id control) 7%nat connected).

Definition axis (tag : string) (value : Z) : NotificationArgs :=
  {| peripheral := id control; data_characteristic := tag; data_value0 := value |}.

Lemma listening_handled : handled_by control listening.
Proof. eexists. split; reflexivity. Qed.

Lemma listening_subscribed : subscribed_once 7%nat control listening.
Proof. reflexivity. Qed.

Lemma sensor_bus_delivers_changes_witness :
  delivered_to 7%nat control (notified [axis "FFF1" 3] listening) =
    percent_delivered (axis "FFF1" 3) listening /\
  no_repeat (delivered_to 7%nat control
               (notified [axis "FFF1" 3; axis "FFF2" 4; axis "FFF2" 4;
                          axis "FFF9" 1; axis "FFF1" 0; axis "FFF2" 0]
                         listening)).
Proof.
  split.
  - apply (proj1 sensor_bus_delivers_changes 7%nat control (axis "FFF1" 3) listening
             listening_handled listening_subscribed). reflexivity.
  - apply (proj1 (proj2 sensor_bus_delivers_changes) 7%nat control _ listening
             listening_handled listening_subscribed).
    repeat constructor.
Defined.

Example x3_y4_is_delivered_as_60_then_100 :
  delivered_to 7%nat control
    (notified [axis "FFF1" 3; axis "FFF2" 4; axis "FFF2" 4;
               axis "FFF9" 1; axis "FFF1" 0; axis "FFF2" 0] listening) =
  [60; 100; 80; 0].
Proof. vm_compute. reflexivity. Qed.

(** The first notification of a new connection is not delivered when its
    magnitude is 0: the facade starts with a magnitude of 0 and delivers
    changes only. *)
Lemma first_zero_is_not_delivered :
  fst (didUpdateValueForCharacteristic (axis "FFF1" 0) listening) = Resolved tt /\
  notified [axis "FFF1" 0] listening = [] /\
  notified [axis "FFF1" 3] listening = [Delivered 7%nat control 60].
Proof. vm_compute. repeat split. Qed.

End SensorClaims.

(** ** The callback table of BleManagerSensor *)

Module TableClaims.
Import ReactNative Fixtures AxisClaims SensorClaims.

Definition with_callbacks (w : World) (table : gmap string CallbackInfo)
    (e : Event) : World :=
  {| this := this w; callbacks := table; trace := trace w ++ [e] |}.

(** [subscribe] in one step. *)
Lemma subscribe_run BLE d s c cb w :
  subscribe BLE d s c cb w =
  match startNotification_answer BLE (trace w) d s c with
  | Ok _ =>
      (Resolved tt,
       with_callbacks w
         (<[d := {| callback := cb; service := s; characteristic := c |}]>
            (callbacks w))
         (Called (BleStartNotification d s c) true))
  | Fails err =>
      (Rejected err,
       with_callbacks w (callbacks w) (Called (BleStartNotification d s c) false))
  end.
Proof.
  unfold subscribe, BleManager_startNotification, ask, bind, get, set_callbacks.
  simpl. destruct (startNotification_answer BLE (trace w) d s c) as [[]|err];
    reflexivity.
Qed.

(** [unsubscribe] in one step. *)
Lemma unsubscribe_run BLE d w :
  unsubscribe BLE d w =
  match callbacks w !! d with
  | None => (Resolved tt, w)
  | Some info =>
      match stopNotification_answer BLE (trace w) d (service info)
              (characteristic info) with
      | Ok _ =>
          (Resolved tt,
           with_callbacks w (delete d (callbacks w))
             (Called (BleStopNotification d (service info) (characteristic info))
                     true))
      | Fails err =>
          (Rejected err,
           with_callbacks w (callbacks w)
             (Called (BleStopNotification d (service info) (characteristic info))
                     false))
      end
  end.
Proof.
  unfold unsubscribe, BleManager_stopNotification, ask, bind, get, set_callbacks.
  simpl. destruct (callbacks w !! d) as [info|]; [| reflexivity].
  destruct (stopNotification_answer BLE (trace w) d (service info)
              (characteristic info)) as [[]|err]; reflexivity.
Qed.

(** The entry that [connect(d)] leaves in the table. *)
Definition z_axis_entry (d : IDevice) : CallbackInfo :=
  {| callback := Some (AxisCallback d);
     service := KIIROO_CONTROL_SERVICE_UUID;
     characteristic := CHAR_Z_UUID |}.

(** When [connect(d)] resolves, the table is the one before with the single
    entry of [d] replaced by the Z-axis subscription. *)
Lemma connect_resolved BLE platform d w :
  fst (connect BLE platform (Some d) w) = Resolved tt ->
  callbacks (snd (connect BLE platform (Some d) w)) =
    <[id d := z_axis_entry d]> (callbacks w) /\
  sensor (this (snd (connect BLE platform (Some d) w))) = sensor (this w).
Proof.
  destruct (connect BLE platform (Some d) w) as [out w'] eqn:E. simpl.
  intros ->. revert E.
  unfold connect, try_catch. unfold bind at 1 2. simpl.
  unfold bind at 1, BleManager_connect at 1, ask at 1. simpl.
  destruct (connect_answer BLE (trace w) (id d)) as [[]|e1]; simpl;
    [| unfold bind, not_awaited; simpl; discriminate].
  unfold bind at 1, BleManager_retrieveServices at 1, ask at 1. simpl.
  destruct (retrieveServices_answer BLE _ (id d)) as [[]|e2]; simpl;
    [| unfold bind, not_awaited; simpl; discriminate].
  unfold bind at 1. rewrite subscribe_run. simpl.
  destruct (startNotification_answer BLE _ (id d) _ CHAR_X_UUID) as [[]|e3]; simpl;
    [| unfold bind, not_awaited; simpl; discriminate].
  unfold bind at 1. rewrite subscribe_run. simpl.
  destruct (startNotification_answer BLE _ (id d) _ CHAR_Y_UUID) as [[]|e4]; simpl;
    [| unfold bind, not_awaited; simpl; discriminate].
  rewrite subscribe_run. simpl.
  destruct (startNotification_answer BLE _ (id d) _ CHAR_Z_UUID) as [[]|e5]; simpl;
    [| unfold bind, not_awaited; simpl; discriminate].
  intros [= <-]. simpl. split; [| reflexivity].
  rewrite !insert_insert_eq. reflexivity.
Qed.



Example all_three_axes_reach_the_one_callback :
  notificationData (this (notify_all [axis "FFF1" 1; axis "FFF2" 2; axis "FFF3" 3]
                            connected)) =
  {| _axisX := 1; _axisY := 2; _axisZ := 3 |}.
Proof. vm_compute. reflexivity. Qed.

End TableClaims.
(** * Beyond the claims

    The rest of the two facades, of the callback table and of the sensor
    bus: what the methods keep, what they ask of the stack and in which
    order, and how they compose. *)

(** ** Running a program step by step *)

Lemma bind_get {W B} (f : W -> Prog W B) (w : W) : bind get f w = f w w.
Proof. reflexivity. Qed.

Lemma bind_ret {W A B} (a : A) (f : A -> Prog W B) (w : W) : bind (ret a) f w = f a w.
Proof. reflexivity. Qed.

(** ** Parts of the world that a program keeps *)

Section Keeps.
Context {W V : Type} (part : W -> V).

(** [m] leaves the part [part] of the world as it was, whatever its
    outcome. *)
Definition keeps {A} (m : Prog W A) : Prop :=
  forall w, part (snd (m w)) = part w.

Lemma keeps_ret {A} (a : A) : keeps (ret a).
Proof. intros w. reflexivity. Qed.

Lemma keeps_reject {A} (err : JSError) : keeps (@reject W A err).
Proof. intros w. reflexivity. Qed.

Lemma keeps_out_of_fuel {A} : keeps (@out_of_fuel W A).
Proof. intros w. reflexivity. Qed.

Lemma keeps_get : keeps (@get W).
Proof. intros w. reflexivity. Qed.

Lemma keeps_bind {A B} (m : Prog W A) (f : A -> Prog W B) :
  keeps m -> (forall a, keeps (f a)) -> keeps (bind m f).
Proof.
  intros Hm Hf w. unfold bind. specialize (Hm w).
  destruct (m w) as [[a|err|] w1]; simpl in *; try exact Hm.
  rewrite Hf. exact Hm.
Qed.

Lemma keeps_try_catch {A} (m : Prog W A) (h : JSError -> Prog W A) :
  keeps m -> (forall err, keeps (h err)) -> keeps (try_catch m h).
Proof.
  intros Hm Hh w. unfold try_catch. specialize (Hm w).
  destruct (m w) as [[a|err|] w1]; simpl in *; try exact Hm.
  rewrite Hh. exact Hm.
Qed.

Lemma keeps_not_awaited {A} (m : Prog W A) : keeps m -> keeps (not_awaited m).
Proof. intros Hm w. unfold not_awaited. simpl. apply Hm. Qed.

Lemma keeps_one_turn (tasks : list (list (Prog W unit))) :
  Forall (Forall (fun step => keeps step)) tasks ->
  forall w,
    part (snd (one_turn tasks w)) = part w /\
    Forall (Forall (fun step => keeps step)) (fst (one_turn tasks w)).
Proof.
  induction tasks as [|task rest IH]; intros Hall w; simpl.
  - split; [reflexivity | constructor].
  - apply Forall_cons_1 in Hall as [Htask Hrest].
    destruct task as [|step later]; [apply IH; exact Hrest |].
    apply Forall_cons_1 in Htask as [Hstep Hlater].
    specialize (Hstep w). destruct (step w) as [out w1]. simpl in Hstep.
    destruct (IH Hrest w1) as [Hp Hf].
    destruct (one_turn rest w1) as [others w2]. simpl in *.
    split; [congruence |].
    destruct out; [constructor; assumption | assumption | assumption].
Qed.

Lemma keeps_started_together (tasks : list (list (Prog W unit))) :
  Forall (Forall (fun step => keeps step)) tasks -> keeps (started_together tasks).
Proof.
  intros Hall w. unfold started_together. simpl.
  generalize (foldr Nat.max 0%nat (map length tasks)). intros n.
  revert tasks Hall w. induction n as [|n IH]; intros tasks Hall w; simpl;
    [reflexivity |].
  destruct (keeps_one_turn tasks Hall w) as [Hp Hf].
  destruct (one_turn tasks w) as [later w1]. simpl in *.
  rewrite (IH later Hf w1). exact Hp.
Qed.

Lemma keeps_for_each_chunk (body : Z -> list Z -> Prog W unit) :
  (forall i chunk, keeps (body i chunk)) ->
  forall chunks i, keeps (for_each_chunk body i chunks).
Proof.
  intros Hbody. induction chunks as [|chunk rest IH]; intros i; simpl.
  - apply keeps_ret.
  - apply keeps_bind; [apply Hbody | intros _; apply IH].
Qed.

End Keeps.

Create HintDb keeps discriminated.

#[global] Hint Resolve keeps_ret keeps_reject keeps_out_of_fuel keeps_get : keeps.

(** The structural steps of a proof that a program keeps a part of the
    world; a primitive that does not write the part keeps it by
    computation. *)
Ltac keeps_step :=
  match goal with
  | |- keeps _ (bind _ _) => apply keeps_bind; [| intros ?]
  | |- keeps _ (try_catch _ _) => apply keeps_try_catch; [| intros ?]
  | |- keeps _ (not_awaited _) => apply keeps_not_awaited
  | |- keeps _ (for_each_chunk _ _ _) => apply keeps_for_each_chunk; intros ? ?
  | |- keeps _ (match ?x with _ => _ end) => destruct x
  | |- keeps _ (if ?x then _ else _) => destruct x
  | |- keeps _ _ => solve [eauto with keeps]
  | |- keeps _ _ => solve [intros ?; reflexivity]
  end.

Ltac keeps_auto := repeat keeps_step.

(** ** What a program adds to a view of the world *)

Section Shows.
Context {W S : Type} (view : W -> list S).

(** Running [m] from [w] adds [steps] to the view, and [R] relates them to
    the outcome. *)
Definition shows {A} (m : Prog W A) (w : W) (R : Outcome A -> list S -> Prop)
    : Prop :=
  exists steps, view (snd (m w)) = view w ++ steps /\ R (fst (m w)) steps.

Lemma shows_weaken {A} (m : Prog W A) w (R R' : Outcome A -> list S -> Prop) :
  shows m w R -> (forall out steps, R out steps -> R' out steps) -> shows m w R'.
Proof. intros (steps & Hv & HR) Himp. exists steps. split; [exact Hv | auto]. Qed.

Lemma shows_bind {A B} (m : Prog W A) (f : A -> Prog W B) w
    (R1 : Outcome A -> list S -> Prop) (R : Outcome B -> list S -> Prop) :
  shows m w R1 ->
  (forall a w1 s1, m w = (Resolved a, w1) -> R1 (Resolved a) s1 ->
     view w1 = view w ++ s1 ->
     shows (f a) w1 (fun out s2 => R out (s1 ++ s2))) ->
  (forall err s1, R1 (Rejected err) s1 -> R (Rejected err) s1) ->
  (forall s1, R1 OutOfFuel s1 -> R OutOfFuel s1) ->
  shows (bind m f) w R.
Proof.
  intros (s1 & Hv & HR1) Hf Hrej Hfuel. unfold shows, bind.
  destruct (m w) as [[a|err|] w1]; simpl in *.
  - destruct (Hf a w1 s1 eq_refl HR1 Hv) as (s2 & Hv2 & HR).
    exists (s1 ++ s2). rewrite Hv2, Hv, <- app_assoc. auto.
  - exists s1. auto.
  - exists s1. auto.
Qed.

Lemma shows_try_catch {A} (m : Prog W A) (h : JSError -> Prog W A) w
    (R1 R : Outcome A -> list S -> Prop) :
  shows m w R1 ->
  (forall err w1 s1, m w = (Rejected err, w1) -> R1 (Rejected err) s1 ->
     view w1 = view w ++ s1 ->
     shows (h err) w1 (fun out s2 => R out (s1 ++ s2))) ->
  (forall a s1, R1 (Resolved a) s1 -> R (Resolved a) s1) ->
  (forall s1, R1 OutOfFuel s1 -> R OutOfFuel s1) ->
  shows (try_catch m h) w R.
Proof.
  intros (s1 & Hv & HR1) Hh Hres Hfuel. unfold shows, try_catch.
  destruct (m w) as [[a|err|] w1]; simpl in *.
  - exists s1. auto.
  - destruct (Hh err w1 s1 eq_refl HR1 Hv) as (s2 & Hv2 & HR).
    exists (s1 ++ s2). rewrite Hv2, Hv, <- app_assoc. auto.
  - exists s1. auto.
Qed.

Lemma shows_not_awaited {A} (m : Prog W A) w (R1 : Outcome A -> list S -> Prop)
    (R : Outcome unit -> list S -> Prop) :
  shows m w R1 -> (forall out steps, R1 out steps -> R (Resolved tt) steps) ->
  shows (not_awaited m) w R.
Proof.
  intros (steps & Hv & HR1) Himp. exists steps. unfold not_awaited. simpl.
  split; [exact Hv | eauto].
Qed.

Lemma shows_nothing {A} (m : Prog W A) w (R : Outcome A -> list S -> Prop) :
  keeps view m -> R (fst (m w)) [] -> shows m w R.
Proof. intros Hk HR. exists []. rewrite app_nil_r. split; [apply Hk | exact HR]. Qed.

Lemma shows_after {A B} (m : Prog W A) (f : A -> Prog W B) w
    (R : Outcome B -> list S -> Prop) :
  keeps view m ->
  (forall a w1, m w = (Resolved a, w1) -> shows (f a) w1 R) ->
  (forall err, R (Rejected err) []) ->
  R OutOfFuel [] ->
  shows (bind m f) w R.
Proof.
  intros Hk Hf Hrej Hfuel. unfold shows, bind. specialize (Hk w).
  destruct (m w) as [[a|err|] w1]; simpl in *.
  - destruct (Hf a w1 eq_refl) as (s & Hv & HR). exists s. rewrite Hv, Hk. auto.
  - exists []. rewrite app_nil_r. auto.
  - exists []. rewrite app_nil_r. auto.
Qed.

(** A loop over the chunks whose turn, under the invariant [I], adds the
    step [good chunk] and resolves, or adds nothing or the step
    [bad chunk] and does not: the loop adds the good steps of the first
    chunks, in order, and stops at the first turn that does not resolve. *)
Lemma shows_for_each_chunk (I : W -> Prop) (good bad : list Z -> S)
    (body : Z -> list Z -> Prog W unit) :
  (forall i chunk w, I w ->
     I (snd (body i chunk w)) /\
     shows (body i chunk) w (fun out steps =>
       (out = Resolved tt /\ steps = [good chunk]) \/
       (out <> Resolved tt /\ (steps = [] \/ steps = [bad chunk])))) ->
  forall chunks i w, I w ->
    I (snd (for_each_chunk body i chunks w)) /\
    shows (for_each_chunk body i chunks) w (fun out steps =>
      exists j : nat,
        (j <= length chunks)%nat /\
        ((steps = map good (take j chunks) /\
          (out = Resolved tt <-> j = length chunks)) \/
         (exists chunk, chunks !! j = Some chunk /\
            steps = map good (take j chunks) ++ [bad chunk] /\
            out <> Resolved tt))).
Proof.
  intros Hbody. induction chunks as [|chunk rest IH]; intros i w HI.
  - split; [exact HI |]. exists []. rewrite app_nil_r. split; [reflexivity |].
    exists 0%nat. split; [reflexivity |]. left. simpl. tauto.
  - simpl. destruct (Hbody i chunk w HI) as [HI1 Hturn]. split.
    + unfold bind. destruct (body i chunk w) as [[[]|err|] w1]; simpl in *;
        [apply IH; exact HI1 | exact HI1 | exact HI1].
    + eapply shows_bind; [exact Hturn | | |].
      * intros [] w1 s1 E [[_ ->]|[Hne _]] Hv; [| congruence].
        rewrite E in HI1. simpl in HI1.
        eapply shows_weaken; [apply (IH (i + 1) w1 HI1) |].
        intros out steps (j & Hj & Hsteps). exists (Datatypes.S j).
        split; [simpl; lia |]. simpl.
        destruct Hsteps as [[-> Hall]|(c & Hc & -> & Hout)].
        -- left. split; [reflexivity |]. rewrite Hall. split; [congruence | lia].
        -- right. exists c. auto.
      * intros err s1 [[Habs _]|[_ Hs]]; [discriminate |].
        exists 0%nat. split; [simpl; lia |]. simpl. destruct Hs as [->| ->].
        -- left. split; [reflexivity |]. split; [discriminate | lia].
        -- right. exists chunk. split; [reflexivity |].
           split; [reflexivity | discriminate].
      * intros s1 [[Habs _]|[_ Hs]]; [discriminate |].
        exists 0%nat. split; [simpl; lia |]. simpl. destruct Hs as [->| ->].
        -- left. split; [reflexivity |]. split; [discriminate | lia].
        -- right. exists chunk. split; [reflexivity |].
           split; [reflexivity | discriminate].
Qed.

(** Every step that [m] adds to the view satisfies [P]. *)
Definition emits (P : S -> Prop) {A} (m : Prog W A) : Prop :=
  forall w, shows m w (fun _ steps => Forall P steps).

Lemma emits_nothing (P : S -> Prop) {A} (m : Prog W A) : keeps view m -> emits P m.
Proof. intros Hk w. apply shows_nothing; [exact Hk | constructor]. Qed.

Lemma emits_weaken (P Q : S -> Prop) {A} (m : Prog W A) :
  (forall s, P s -> Q s) -> emits P m -> emits Q m.
Proof.
  intros HPQ Hm w. eapply shows_weaken; [apply Hm |].
  intros out steps. apply Forall_impl. exact HPQ.
Qed.

Lemma emits_bind (P : S -> Prop) {A B} (m : Prog W A) (f : A -> Prog W B) :
  emits P m -> (forall a, emits P (f a)) -> emits P (bind m f).
Proof.
  intros Hm Hf w. eapply shows_bind; [apply Hm | | |]; simpl; auto.
  intros a w1 s1 _ Hs1 _. eapply shows_weaken; [apply Hf |].
  intros out s2 Hs2. apply Forall_app. auto.
Qed.

Lemma emits_try_catch (P : S -> Prop) {A} (m : Prog W A) (h : JSError -> Prog W A) :
  emits P m -> (forall err, emits P (h err)) -> emits P (try_catch m h).
Proof.
  intros Hm Hh w. eapply shows_try_catch; [apply Hm | | |]; simpl; auto.
  intros err w1 s1 _ Hs1 _. eapply shows_weaken; [apply Hh |].
  intros out s2 Hs2. apply Forall_app. auto.
Qed.

Lemma emits_not_awaited (P : S -> Prop) {A} (m : Prog W A) :
  emits P m -> emits P (not_awaited m).
Proof. intros Hm w. eapply shows_not_awaited; [apply Hm |]. auto. Qed.

Lemma emits_one_turn (P : S -> Prop) (tasks : list (list (Prog W unit))) :
  Forall (Forall (fun step => emits P step)) tasks ->
  forall w, exists steps,
    view (snd (one_turn tasks w)) = view w ++ steps /\
    Forall P steps /\
    Forall (Forall (fun step => emits P step)) (fst (one_turn tasks w)).
Proof.
  induction tasks as [|task rest IH]; intros Hall w; simpl.
  - exists []. rewrite app_nil_r. repeat split; constructor.
  - apply Forall_cons_1 in Hall as [Htask Hrest].
    destruct task as [|step later]; [apply IH; exact Hrest |].
    apply Forall_cons_1 in Htask as [Hstep Hlater].
    destruct (Hstep w) as (s1 & Hv1 & HP1). destruct (step w) as [out w1].
    simpl in Hv1.
    destruct (IH Hrest w1) as (s2 & Hv2 & HP2 & Hf).
    destruct (one_turn rest w1) as [others w2]. simpl in *.
    exists (s1 ++ s2). rewrite Hv2, Hv1, <- app_assoc.
    split; [reflexivity |]. split; [apply Forall_app; auto |].
    destruct out; [constructor; assumption | assumption | assumption].
Qed.

Lemma emits_started_together (P : S -> Prop) (tasks : list (list (Prog W unit))) :
  Forall (Forall (fun step => emits P step)) tasks -> emits P (started_together tasks).
Proof.
  intros Hall w. unfold shows, started_together. simpl.
  generalize (foldr Nat.max 0%nat (map length tasks)). intros n.
  revert tasks Hall w. induction n as [|n IH]; intros tasks Hall w; simpl.
  - exists []. rewrite app_nil_r. split; [reflexivity | constructor].
  - destruct (emits_one_turn P tasks Hall w) as (s1 & Hv1 & HP1 & Hf).
    destruct (one_turn tasks w) as [later w1]. simpl in *.
    destruct (IH later Hf w1) as (s2 & Hv2 & HP2).
    exists (s1 ++ s2). rewrite Hv2, Hv1, <- app_assoc.
    split; [reflexivity | apply Forall_app; auto].
Qed.

Lemma emits_for_each_chunk (P : S -> Prop) (body : Z -> list Z -> Prog W unit) :
  (forall i chunk, emits P (body i chunk)) ->
  forall chunks i, emits P (for_each_chunk body i chunks).
Proof.
  intros Hbody. induction chunks as [|chunk rest IH]; intros i; simpl.
  - apply emits_nothing. apply keeps_ret.
  - apply emits_bind; [apply Hbody | intros _; apply IH].
Qed.

(** The loop again, for a property of the steps that depends on the index
    of the turn being within the bounds of the loop. *)
Lemma emits_for_each_chunk_indexed (P : S -> Prop) (body : Z -> list Z -> Prog W unit)
    (hi : Z) :
  (forall i chunk, 0 <= i < hi -> emits P (body i chunk)) ->
  forall chunks i, 0 <= i -> i + Z.of_nat (length chunks) <= hi ->
    emits P (for_each_chunk body i chunks).
Proof.
  intros Hbody. induction chunks as [|chunk rest IH]; intros i Hi Hhi; simpl.
  - apply emits_nothing. apply keeps_ret.
  - simpl in Hhi. apply emits_bind; [apply Hbody; lia | intros _; apply IH; lia].
Qed.

(** What [emits] says about a run. *)
Lemma emits_added (P : S -> Prop) {A} (m : Prog W A) (w : W) :
  emits P m -> Forall P (drop (length (view w)) (view (snd (m w)))).
Proof.
  intros Hm. destruct (Hm w) as (steps & -> & HP). rewrite drop_app_length. exact HP.
Qed.

End Shows.

Create HintDb emits discriminated.

Ltac emits_step :=
  match goal with
  | |- emits _ _ (bind _ _) => apply emits_bind; [| intros ?]
  | |- emits _ _ (try_catch _ _) => apply emits_try_catch; [| intros ?]
  | |- emits _ _ (not_awaited _) => apply emits_not_awaited
  | |- emits _ _ (for_each_chunk _ _ _) => apply emits_for_each_chunk; intros ? ?
  | |- emits _ _ (match ?x with _ => _ end) => destruct x
  | |- emits _ _ (if ?x then _ else _) => destruct x
  | |- emits _ _ _ => solve [eauto with emits]
  | |- emits _ _ _ => solve [apply emits_nothing; intros ?; reflexivity]
  end.

Ltac emits_auto := repeat emits_step.

(** ** Scripts of calls *)

(** [steps] are the first calls of [script], in order, all accepted but,
    possibly, the last one made. *)
Definition performed {C S : Type} (accepted refused : C -> S) (script : list C)
    (steps : list S) : Prop :=
  exists k : nat,
    (k <= length script)%nat /\
    (steps = map accepted (take k script) \/
     exists c, script !! k = Some c /\
       steps = map accepted (take k script) ++ [refused c]).

(** * Beyond the claims: the sensor bus *)

Module BusFacts.
Import ReactNative.

Lemma getMessageFromDeviceId_inj (a b : string) :
  getMessageFromDeviceId a = getMessageFromDeviceId b -> a = b.
Proof.
  unfold getMessageFromDeviceId, DEVICE_MESSAGE. cbv [String.append].
  intros H. injection H as H. exact H.
Qed.

Lemma remove_last_absent (l : Listener) (ls : list Listener) :
  l ∉ ls -> remove_last l ls = ls.
Proof.
  induction ls as [|x ls IH]; intros Hl; [reflexivity |].
  simpl. apply not_elem_of_cons in Hl as [Hx Hls].
  destruct (decide (x = l)); [congruence |]. rewrite IH by exact Hls. reflexivity.
Qed.

Lemma remove_last_present (l : Listener) (ls : list Listener) :
  l ∈ ls ->
  exists pre post, ls = pre ++ l :: post /\ (l ∉ post) /\ remove_last l ls = pre ++ post.
Proof.
  induction ls as [|x ls IH]; intros Hl; [by apply elem_of_nil in Hl |].
  simpl. destruct (decide (l ∈ ls)) as [Hin|Hout].
  - destruct (IH Hin) as (pre & post & -> & Hpost & Hrm).
    exists (x :: pre), post. split; [reflexivity |]. split; [exact Hpost |].
    destruct (decide (x = l)); rewrite Hrm; reflexivity.
  - apply elem_of_cons in Hl as [->|Hl]; [| contradiction].
    exists [], ls. split; [reflexivity |]. split; [exact Hout |].
    destruct (decide (x = x)); [reflexivity | congruence].
Qed.

Lemma remove_last_snoc (l : Listener) (ls : list Listener) :
  remove_last l (ls ++ [l]) = ls.
Proof.
  induction ls as [|x ls IH]; simpl.
  - destruct (decide (l = l)); [| congruence].
    destruct (decide (l ∈ [])) as [Hin|_]; [by apply elem_of_nil in Hin | reflexivity].
  - rewrite IH. destruct (decide (x = l)); [| reflexivity].
    destruct (decide (l ∈ ls ++ [l])) as [_|Hout]; [reflexivity |].
    exfalso. apply Hout. apply elem_of_app. right. apply list_elem_of_singleton.
    reflexivity.
Qed.

(** [sensor.subscribe] in one step. *)
Lemma sensor_subscribe_run (i : string) (l : Listener) (w : World) :
  sensor_subscribe i l w =
  (Resolved tt,
   {| this :=
        with_sensor (this w)
          {| ee := <[getMessageFromDeviceId i :=
                       listeners (sensor (this w)) (getMessageFromDeviceId i) ++ [l]]>
                     (ee (sensor (this w))) |};
      callbacks := callbacks w; trace := trace w |}).
Proof. reflexivity. Qed.

(** [sensor.unsubscribe] in one step. *)
Lemma sensor_unsubscribe_run (i : string) (l : Listener) (w : World) :
  sensor_unsubscribe i l w =
  (Resolved tt,
   {| this :=
        with_sensor (this w)
          {| ee := <[getMessageFromDeviceId i :=
                       remove_last l
                         (listeners (sensor (this w)) (getMessageFromDeviceId i))]>
                     (ee (sensor (this w))) |};
      callbacks := callbacks w; trace := trace w |}).
Proof. reflexivity. Qed.

Lemma listeners_insert (e : gmap string (list Listener)) (m m' : string)
    (ls : list Listener) :
  listeners {| ee := <[m := ls]> e |} m' =
  if decide (m' = m) then ls else default [] (e !! m').
Proof.
  unfold listeners. simpl. destruct (decide (m' = m)) as [->|Hne].
  - rewrite lookup_insert_eq. reflexivity.
  - rewrite lookup_insert_ne by congruence. reflexivity.
Qed.

(** X1.  A listener subscribed for a device id is called for the events of
    the devices with that id, after the listeners subscribed before it, and
    once more for each earlier subscription of the same function; the events
    of a device with another id go to the listeners of that id alone.  [emit]
    changes nothing but the record of the calls. *)
Theorem subscribed_listener_is_called_last (i : string) (l : Listener) (d : IDevice)
    (percent : Z) (w : World) :
  let w1 := snd (sensor_subscribe i l w) in
  emit (Some d) percent w1 =
  (Resolved tt,
   {| this := this w1; callbacks := callbacks w;
      trace :=
        trace w ++
        map (fun l' => Delivered l' d percent)
            (listeners (sensor (this w)) (getMessageFromDeviceId (id d)) ++
             if decide (id d = i) then [l] else []) |}).
Proof.
  intros w1. subst w1. rewrite AxisClaims.emit_run, sensor_subscribe_run. simpl.
  do 4 f_equal. rewrite listeners_insert.
  destruct (decide (id d = i)) as [->|Hne].
  - destruct (decide (_ = _)); [reflexivity | congruence].
  - destruct (decide (_ = _)) as [E|_]; [| rewrite app_nil_r; reflexivity].
    apply getMessageFromDeviceId_inj in E. contradiction.
Qed.

(** X2.  [unsubscribe] takes away one subscription of the listener for the
    device id, the one made last, and keeps the other listeners of the id in
    their order; it does nothing when the listener is not subscribed for the
    id, and it never touches the listeners of another event. *)
Theorem unsubscribe_removes_the_last_subscription (i : string) (l : Listener)
    (w : World) :
  let w1 := snd (sensor_unsubscribe i l w) in
  let before := listeners (sensor (this w)) (getMessageFromDeviceId i) in
  let after := listeners (sensor (this w1)) (getMessageFromDeviceId i) in
  fst (sensor_unsubscribe i l w) = Resolved tt /\
  (l ∉ before -> after = before) /\
  (l ∈ before ->
   exists pre post, before = pre ++ l :: post /\ (l ∉ post) /\ after = pre ++ post) /\
  (forall message, message <> getMessageFromDeviceId i ->
     listeners (sensor (this w1)) message = listeners (sensor (this w)) message) /\
  trace w1 = trace w /\ callbacks w1 = callbacks w.
Proof.
  intros w1 before after. subst w1 before after.
  rewrite sensor_unsubscribe_run. simpl. rewrite listeners_insert.
  destruct (decide (_ = _)); [| congruence].
  split; [reflexivity |]. split; [apply remove_last_absent |].
  split; [apply remove_last_present |].
  split; [| split; reflexivity].
  intros message Hne. rewrite listeners_insert.
  destruct (decide (message = _)); [contradiction | reflexivity].
Qed.

Lemma unsubscribe_removes_the_last_subscription_witness :
  let w := snd (sensor_subscribe "A" 2%nat
             (snd (sensor_subscribe "A" 1%nat
                (snd (sensor_subscribe "A" 2%nat initial_world))))) in
  (exists pre post,
     listeners (sensor (this w)) (getMessageFromDeviceId "A") = pre ++ 2%nat :: post /\
     (2%nat ∉ post) /\
     listeners (sensor (this (snd (sensor_unsubscribe "A" 2%nat w))))
               (getMessageFromDeviceId "A") = pre ++ post) /\
  listeners (sensor (this (snd (sensor_unsubscribe "A" 3%nat w))))
            (getMessageFromDeviceId "A") =
  listeners (sensor (this w)) (getMessageFromDeviceId "A").
Proof.
  intros w. split.
  - apply (proj1 (proj2 (proj2 (unsubscribe_removes_the_last_subscription
                                  "A" 2%nat w)))).
    vm_compute. apply list_elem_of_here.
  - apply (proj1 (proj2 (unsubscribe_removes_the_last_subscription "A" 3%nat w))).
    vm_compute. intros H.
    repeat (apply elem_of_cons in H as [H|H]; [discriminate |]).
    by apply elem_of_nil in H.
Defined.

Example unsubscribe_takes_the_later_of_two :
  let w := snd (sensor_subscribe "A" 2%nat
             (snd (sensor_subscribe "A" 1%nat
                (snd (sensor_subscribe "A" 2%nat initial_world))))) in
  listeners (sensor (this w)) (getMessageFromDeviceId "A") = [2; 1; 2]%nat /\
  listeners (sensor (this (snd (sensor_unsubscribe "A" 2%nat w))))
            (getMessageFromDeviceId "A") = [2; 1]%nat.
Proof. vm_compute. split; reflexivity. Qed.

(** X3.  Subscribing a listener and unsubscribing it again leaves every
    event with the listeners it had, in their order, whatever was subscribed
    before, the same function included. *)
Theorem subscribe_unsubscribe_round_trip (i : string) (l : Listener) (w : World) :
  let w2 := snd (sensor_unsubscribe i l (snd (sensor_subscribe i l w))) in
  (forall message,
     listeners (sensor (this w2)) message = listeners (sensor (this w)) message) /\
  device (this w2) = device (this w) /\
  notificationData (this w2) = notificationData (this w) /\
  acceleration (this w2) = acceleration (this w) /\
  callbacks w2 = callbacks w /\ trace w2 = trace w.
Proof.
  intros w2. subst w2. rewrite sensor_subscribe_run, sensor_unsubscribe_run. simpl.
  split; [| repeat split].
  intros message. rewrite listeners_insert.
  destruct (decide (message = _)) as [->|Hne].
  - rewrite listeners_insert. destruct (decide (_ = _)); [| congruence].
    apply remove_last_snoc.
  - rewrite lookup_insert_ne by congruence. reflexivity.
Qed.

End BusFacts.
(** * Beyond the claims: the methods of the React Native facade *)

Module ReactNativeMethods.
Import ReactNative.

(** The world after the call [c] of the stack, recorded with its success. *)
Definition asked (w : World) (c : BleCall) (ok : bool) : World :=
  {| this := this w; callbacks := callbacks w; trace := trace w ++ [Called c ok] |}.

Section Methods.
Variable BLE : BleManager.
Variable platform : Platform.

(** The guard in one step. *)
Lemma ready_run (w : World) :
  ready BLE w =
  match device (this w) with
  | None => (Resolved None, w)
  | Some d =>
      match isPeripheralConnected_answer BLE (trace w) (id d) with
      | Ok c =>
          (Resolved (if c then Some d else None),
           asked w (BleIsPeripheralConnected (id d)) true)
      | Fails err => (Rejected err, asked w (BleIsPeripheralConnected (id d)) false)
      end
  end.
Proof.
  unfold ready, isConnected, BleManager_isPeripheralConnected, ask, bind, get. simpl.
  destruct (device (this w)) as [d|] eqn:Hd; [| reflexivity]. simpl. rewrite Hd.
  destruct (isPeripheralConnected_answer BLE (trace w) (id d)) as [[|]|err];
    reflexivity.
Qed.

(** One call of the stack, and what follows it. *)
Lemma bind_ask {A B} (c : BleCall) (answer : History -> Result A) (f : A -> M B)
    (w : World) :
  bind (ask c answer) f w =
  match answer (trace w) with
  | Ok a => f a (asked w c true)
  | Fails err => (Rejected err, asked w c false)
  end.
Proof. unfold bind, ask, asked. destruct (answer (trace w)); reflexivity. Qed.

(** A call that is started and not awaited: what follows does not depend
    on its outcome. *)
Lemma bind_not_awaited_ask {A B} (c : BleCall) (answer : History -> Result A)
    (f : unit -> M B) (w : World) :
  bind (not_awaited (ask c answer)) f w =
  f tt (asked w c (succeeded (answer (trace w)))).
Proof. reflexivity. Qed.

Lemma bind_writeChar {B} (c : string) (data : list Z) (n : option Z)
    (f : unit -> M B) (w : World) :
  bind (writeChar BLE c data n) f w =
  match device (this w) with
  | None => (Rejected (RejectedWith deviceNotInitMsg), w)
  | Some d =>
      let w1 := asked w (BleIsPeripheralConnected (id d)) true in
      match isPeripheralConnected_answer BLE (trace w) (id d) with
      | Ok true =>
          match write_answer BLE (trace w1) (id d) "1400" c data n with
          | Ok _ => f tt (asked w1 (BleWrite (id d) "1400" c data n) true)
          | Fails err => (Rejected err, asked w1 (BleWrite (id d) "1400" c data n) false)
          end
      | Ok false => (Rejected (RejectedWith deviceNotInitMsg), w1)
      | Fails err =>
          (Rejected err, asked w (BleIsPeripheralConnected (id d)) false)
      end
  end.
Proof.
  unfold writeChar. unfold bind at 1 2. rewrite ready_run.
  destruct (device (this w)) as [d|]; [| reflexivity].
  destruct (isPeripheralConnected_answer BLE (trace w) (id d)) as [[|]|err];
    [| reflexivity | reflexivity].
  unfold BleManager_write, ask, asked, KIIROO_CONTROL_SERVICE_UUID. simpl.
  destruct (write_answer BLE _ (id d) "1400" c data n) as [[]|err]; reflexivity.
Qed.

Lemma bind_unsubscribe {B} (d : string) (f : unit -> M B) (w : World) :
  bind (unsubscribe BLE d) f w =
  match callbacks w !! d with
  | None => f tt w
  | Some info =>
      let call := BleStopNotification d (service info) (characteristic info) in
      match stopNotification_answer BLE (trace w) d (service info)
              (characteristic info) with
      | Ok _ =>
          f tt {| this := this w; callbacks := delete d (callbacks w);
                  trace := trace w ++ [Called call true] |}
      | Fails err => (Rejected err, asked w call false)
      end
  end.
Proof.
  unfold bind at 1. rewrite TableClaims.unsubscribe_run.
  destruct (callbacks w !! d) as [info|]; [| reflexivity].
  destruct (stopNotification_answer BLE (trace w) d (service info)
              (characteristic info)) as [[]|err]; reflexivity.
Qed.

(** What a method does when its guard does not let it pass: nothing at
    all when no device was given to [connect]; otherwise one query of the
    link, and a rejection with the message of the facade when the answer is
    no, with the error of the stack when the query fails. *)
Definition guarded {A} (m : M A) : Prop :=
  forall w : World,
    (device (this w) = None ->
     m w = (Rejected (RejectedWith deviceNotInitMsg), w)) /\
    (forall d, device (this w) = Some d ->
       isPeripheralConnected_answer BLE (trace w) (id d) = Ok false ->
       m w = (Rejected (RejectedWith deviceNotInitMsg),
              asked w (BleIsPeripheralConnected (id d)) true)) /\
    (forall d err, device (this w) = Some d ->
       isPeripheralConnected_answer BLE (trace w) (id d) = Fails err ->
       m w = (Rejected err, asked w (BleIsPeripheralConnected (id d)) false)).

Lemma guarded_ready {A} (f : IDevice -> M A) :
  guarded (r ← ready BLE;
           match r with
           | None => reject (RejectedWith deviceNotInitMsg)
           | Some d => f d
           end).
Proof.
  intros w. unfold bind. rewrite ready_run. split; [| split].
  - intros ->. reflexivity.
  - intros d -> ->. reflexivity.
  - intros d err -> ->. reflexivity.
Qed.

Lemma guarded_bind {A B} (m : M A) (f : A -> M B) : guarded m -> guarded (bind m f).
Proof.
  intros Hm w. destruct (Hm w) as (H1 & H2 & H3). unfold bind. split; [| split].
  - intros Hd. rewrite (H1 Hd). reflexivity.
  - intros d Hd Ha. rewrite (H2 d Hd Ha). reflexivity.
  - intros d err Hd Ha. rewrite (H3 d err Hd Ha). reflexivity.
Qed.

Lemma guarded_readChar (c : string) : guarded (readChar BLE c).
Proof. apply guarded_ready. Qed.

Lemma guarded_writeChar (c : string) (data : list Z) (n : option Z) :
  guarded (writeChar BLE c data n).
Proof. apply guarded_ready. Qed.

(** X4.  Every method of the facade that talks to the device, the
    transfer apart, is behind the same guard: the six getters of
    the device information, [getBattery], [testDevice] and [disconnect]. *)
Theorem methods_need_a_connection :
  guarded (getFirmwareVersion BLE) /\ guarded (getSerialNumber BLE) /\
  guarded (getModelNumber BLE) /\ guarded (getManufactureName BLE) /\
  guarded (getDeviceName BLE) /\ guarded (getHardwareVersion BLE) /\
  guarded (getBattery BLE) /\ guarded (testDevice BLE) /\
  guarded (disconnect BLE platform).
Proof.
  repeat split;
    first [apply guarded_bind, guarded_readChar | apply guarded_writeChar
          | apply guarded_ready].
Qed.

(** A getter of the device information wired to the characteristic [uuid]:
    on a connected device it reads that characteristic of the control
    service, once, and resolves to the text of the bytes; a read that fails
    rejects the call with the error of the stack.  Nothing else is asked of
    the stack and the facade stays as it was. *)
Definition reads_text (m : M JSString) (uuid : string) : Prop :=
  forall (w : World) (d : IDevice),
    device (this w) = Some d ->
    isPeripheralConnected_answer BLE (trace w) (id d) = Ok true ->
    let w1 := asked w (BleIsPeripheralConnected (id d)) true in
    let call := BleRead (id d) "1400" uuid in
    match read_answer BLE (trace w1) (id d) "1400" uuid with
    | Ok data => m w = (Resolved (convertToString (Some data)), asked w1 call true)
    | Fails err => m w = (Rejected err, asked w1 call false)
    end.

Lemma readChar_reads_text (uuid : string) :
  reads_text (data ← readChar BLE uuid; ret (convertToString (Some data))) uuid.
Proof.
  intros w d Hd Hup w1 call. subst w1 call.
  unfold readChar, bind. rewrite ready_run, Hd, Hup.
  unfold BleManager_read, ask, asked, KIIROO_CONTROL_SERVICE_UUID. simpl.
  destruct (read_answer BLE _ (id d) "1400" uuid) as [data|err]; reflexivity.
Qed.

(** X5.  The characteristic that each getter reads. *)
Theorem getters_read_their_characteristic :
  reads_text (getFirmwareVersion BLE) "2A26" /\
  reads_text (getSerialNumber BLE) "2A25" /\
  reads_text (getModelNumber BLE) "2A24" /\
  reads_text (getManufactureName BLE) "2A29" /\
  reads_text (getDeviceName BLE) "2A00" /\
  reads_text (getHardwareVersion BLE) "2A27".
Proof. repeat split; apply readChar_reads_text. Qed.

(** ** What the methods keep *)

Lemma isConnected_keeps_this : keeps this (isConnected BLE).
Proof. unfold isConnected, BleManager_isPeripheralConnected. keeps_auto. Qed.
#[local] Hint Resolve isConnected_keeps_this : keeps.

Lemma ready_keeps_this : keeps this (ready BLE).
Proof. unfold ready. keeps_auto. Qed.
#[local] Hint Resolve ready_keeps_this : keeps.

Lemma readChar_keeps_this c : keeps this (readChar BLE c).
Proof. unfold readChar, BleManager_read. keeps_auto. Qed.
#[local] Hint Resolve readChar_keeps_this : keeps.

Lemma writeChar_keeps_this c data n : keeps this (writeChar BLE c data n).
Proof. unfold writeChar, BleManager_write. keeps_auto. Qed.
#[local] Hint Resolve writeChar_keeps_this : keeps.

Lemma subscribe_keeps_this d s c cb : keeps this (subscribe BLE d s c cb).
Proof. unfold subscribe, BleManager_startNotification. keeps_auto. Qed.
#[local] Hint Resolve subscribe_keeps_this : keeps.

Lemma unsubscribe_keeps_this d : keeps this (unsubscribe BLE d).
Proof. unfold unsubscribe, BleManager_stopNotification. keeps_auto. Qed.
#[local] Hint Resolve unsubscribe_keeps_this : keeps.

Lemma disconnect_keeps_this : keeps this (disconnect BLE platform).
Proof.
  unfold disconnect, BleManager_stopNotification, BleManager_disconnect. keeps_auto.
Qed.
#[local] Hint Resolve disconnect_keeps_this : keeps.

(** ** [connect] *)

(** The [try] block of [connect(d)]. *)
Definition connecting (d : IDevice) : M unit :=
  (BleManager_connect BLE (id d);;
   BleManager_retrieveServices BLE (id d);;
   subscribe BLE (id d) KIIROO_CONTROL_SERVICE_UUID CHAR_X_UUID None;;
   subscribe BLE (id d) KIIROO_CONTROL_SERVICE_UUID CHAR_Y_UUID None;;
   subscribe BLE (id d) KIIROO_CONTROL_SERVICE_UUID CHAR_Z_UUID
             (Some (AxisCallback d)))%prog.

Lemma connecting_keeps_this d : keeps this (connecting d).
Proof.
  unfold connecting, BleManager_connect, BleManager_retrieveServices. keeps_auto.
Qed.

Lemma connecting_settles d : settles (connecting d).
Proof.
  unfold connecting, BleManager_connect, BleManager_retrieveServices, subscribe,
    BleManager_startNotification, ask.
  settles_auto.
Qed.

(** The five calls of a [connect] that resolves. *)
Definition connect_calls (d : IDevice) : list Event :=
  [Called (BleConnect (id d)) true;
   Called (BleRetrieveServices (id d)) true;
   Called (BleStartNotification (id d) "1400" "FFF1") true;
   Called (BleStartNotification (id d) "1400" "FFF2") true;
   Called (BleStartNotification (id d) "1400" "FFF3") true].

Lemma connecting_resolved d w :
  fst (connecting d w) = Resolved tt ->
  callbacks (snd (connecting d w)) =
    <[id d := {| callback := Some (AxisCallback d); service := "1400";
                 characteristic := "FFF3" |}]> (callbacks w) /\
  trace (snd (connecting d w)) = trace w ++ connect_calls d.
Proof.
  destruct (connecting d w) as [out w'] eqn:E. simpl. intros ->. revert E.
  unfold connecting.
  unfold bind at 1, BleManager_connect at 1, ask at 1. simpl.
  destruct (connect_answer BLE (trace w) (id d)) as [[]|e1]; simpl; [| discriminate].
  unfold bind at 1, BleManager_retrieveServices at 1, ask at 1. simpl.
  destruct (retrieveServices_answer BLE _ (id d)) as [[]|e2]; simpl; [| discriminate].
  unfold bind at 1. rewrite TableClaims.subscribe_run. simpl.
  destruct (startNotification_answer BLE _ (id d) _ CHAR_X_UUID) as [[]|e3]; simpl;
    [| discriminate].
  unfold bind at 1. rewrite TableClaims.subscribe_run. simpl.
  destruct (startNotification_answer BLE _ (id d) _ CHAR_Y_UUID) as [[]|e4]; simpl;
    [| discriminate].
  rewrite TableClaims.subscribe_run. simpl.
  destruct (startNotification_answer BLE _ (id d) _ CHAR_Z_UUID) as [[]|e5]; simpl;
    [| discriminate].
  intros [= <-]. simpl. split.
  - rewrite !insert_insert_eq. reflexivity.
  - rewrite <- !app_assoc. reflexivity.
Qed.

Lemma connecting_rejected d w :
  fst (connecting d w) <> Resolved tt ->
  exists (err : JSError) (done : list Event) (failed : BleCall) (later : list Event),
    fst (connecting d w) = Rejected err /\
    connect_calls d = done ++ Called failed true :: later /\
    trace (snd (connecting d w)) = trace w ++ done ++ [Called failed false].
Proof.
  destruct (connecting d w) as [out w'] eqn:E. simpl. revert E.
  unfold connecting.
  unfold bind at 1, BleManager_connect at 1, ask at 1. simpl.
  destruct (connect_answer BLE (trace w) (id d)) as [[]|e1]; simpl.
  2: { intros [= <- <-] _. exists e1, [], (BleConnect (id d)). eexists.
       repeat split. }
  unfold bind at 1, BleManager_retrieveServices at 1, ask at 1. simpl.
  destruct (retrieveServices_answer BLE _ (id d)) as [[]|e2]; simpl.
  2: { intros [= <- <-] _.
       exists e2, (take 1 (connect_calls d)), (BleRetrieveServices (id d)). eexists.
       simpl. rewrite <- !app_assoc. repeat split. }
  unfold bind at 1. rewrite TableClaims.subscribe_run. simpl.
  destruct (startNotification_answer BLE _ (id d) _ CHAR_X_UUID) as [[]|e3]; simpl.
  2: { intros [= <- <-] _.
       exists e3, (take 2 (connect_calls d)), (BleStartNotification (id d) "1400" "FFF1").
       eexists. simpl. rewrite <- !app_assoc. repeat split. }
  unfold bind at 1. rewrite TableClaims.subscribe_run. simpl.
  destruct (startNotification_answer BLE _ (id d) _ CHAR_Y_UUID) as [[]|e4]; simpl.
  2: { intros [= <- <-] _.
       exists e4, (take 3 (connect_calls d)), (BleStartNotification (id d) "1400" "FFF2").
       eexists. simpl. rewrite <- !app_assoc. repeat split. }
  rewrite TableClaims.subscribe_run. simpl.
  destruct (startNotification_answer BLE _ (id d) _ CHAR_Z_UUID) as [[]|e5]; simpl.
  2: { intros [= <- <-] _.
       exists e5, (take 4 (connect_calls d)), (BleStartNotification (id d) "1400" "FFF3").
       eexists. simpl. rewrite <- !app_assoc. repeat split. }
  intros [= <- _] Hne. contradiction.
Qed.

(** ** The calls of the stack that a method makes *)

Lemma emits_ask (P : Event -> Prop) {A} (c : BleCall) (answer : History -> Result A) :
  (forall ok, P (Called c ok)) -> emits trace P (ask c answer).
Proof.
  intros HP w. exists [Called c (succeeded (answer (trace w)))].
  split; [reflexivity |]. constructor; [apply HP | constructor].
Qed.

Lemma emits_record (P : Event -> Prop) (e : Event) : P e -> emits trace P (record e).
Proof.
  intros HP w. exists [e]. split; [reflexivity |]. constructor; [exact HP | constructor].
Qed.

(** The calls of [disconnect]: the query of the guard, the stops of the
    notifications, the write of the disconnect command and the call that
    closes the link. *)
Definition disconnecting (e : Event) : Prop :=
  match e with
  | Called (BleIsPeripheralConnected _) _ => True
  | Called (BleStopNotification _ _ _) _ => True
  | Called (BleWrite _ _ c data _) _ => c = "1501" /\ data = [0]
  | Called (BleDisconnect _) _ => True
  | _ => False
  end.

Lemma disconnect_emits : emits trace disconnecting (disconnect BLE platform).
Proof.
  unfold disconnect, unsubscribe, writeChar, ready, isConnected,
    BleManager_isPeripheralConnected, BleManager_stopNotification, BleManager_write,
    BleManager_disconnect.
  emits_auto; apply emits_ask; intros ok; simpl; auto.
Qed.

(** [connect] is the five calls inside a [try]/[catch] on the facade that
    already holds the device and a sample of zeros. *)
Definition connect_handler (err : JSError) : M unit :=
  (not_awaited (disconnect BLE platform);;
   reject (RejectedWith (deviceNotFound +:+ ": " +:+ error_to_string err)))%prog.

Definition connect_start (d : IDevice) (w : World) : World :=
  {| this := {| device := Some d; notificationData := new_DeviceData;
                acceleration := acceleration (this w); sensor := sensor (this w) |};
     callbacks := callbacks w; trace := trace w |}.

Lemma connect_unfolded d w :
  connect BLE platform (Some d) w =
  try_catch (connecting d) connect_handler (connect_start d w).
Proof. reflexivity. Qed.

Lemma connect_accepted_calls d w :
  fst (connect BLE platform (Some d) w) = Resolved tt ->
  callbacks (snd (connect BLE platform (Some d) w)) =
    <[id d := {| callback := Some (AxisCallback d); service := "1400";
                 characteristic := "FFF3" |}]> (callbacks w) /\
  trace (snd (connect BLE platform (Some d) w)) = trace w ++ connect_calls d.
Proof.
  rewrite connect_unfolded. unfold try_catch.
  pose proof (connecting_resolved d (connect_start d w)) as Hres.
  destruct (connecting d (connect_start d w)) as [[[]|err|] w1]; simpl in *.
  - intros _. apply Hres. reflexivity.
  - discriminate.
  - discriminate.
Qed.


(** ** [disconnect] *)

(** An accepted call that closes the link. *)
Definition closes_link (e : Event) : Prop :=
  exists p, e = Called (BleDisconnect p) true.

(** A characteristic write, accepted or not. *)
Definition writes (e : Event) : Prop :=
  exists p s c data n ok, e = Called (BleWrite p s c data n) ok.

(** The end of [disconnect]: the disconnect command on Android, and the
    call that closes the link. *)
Definition closing (d : IDevice) : M unit :=
  ((if decide (OS platform = "android")
    then writeChar BLE DISCONNECT_DEVICE_UUID [0] None
    else ret tt);;
   BleManager_disconnect BLE (id d))%prog.

Lemma closing_run (d : IDevice) (w : World) :
  device (this w) = Some d ->
  exists added,
    snd (closing d w) =
      {| this := this w; callbacks := callbacks w; trace := trace w ++ added |} /\
    (fst (closing d w) = Resolved tt ->
     list.last added = Some (Called (BleDisconnect (id d)) true) /\
     (OS platform = "android" ->
      Called (BleWrite (id d) "1400" "1501" [0] None) true ∈ added)) /\
    (fst (closing d w) <> Resolved tt -> Forall (fun e => ~ closes_link e) added) /\
    (OS platform <> "android" -> Forall (fun e => ~ writes e) added).
Proof.
  intros Hd. unfold closing, BleManager_disconnect.
  destruct (decide (OS platform = "android")) as [Handroid|Hother].
  - rewrite bind_writeChar, Hd. cbn zeta. unfold asked, ask. simpl.
    destruct (isPeripheralConnected_answer BLE (trace w) (id d)) as [[|]|err].
    + destruct (write_answer BLE _ (id d) "1400" DISCONNECT_DEVICE_UUID [0] None)
        as [[]|err].
      * destruct (disconnect_answer BLE _ (id d)) as [[]|err]; simpl.
        -- eexists. split; [rewrite <- !app_assoc; reflexivity |].
           split; [| split; [intros Hne; contradiction | contradiction]].
           intros _. split; [reflexivity |]. intros _.
           apply list_elem_of_further, list_elem_of_here.
        -- eexists. split; [rewrite <- !app_assoc; reflexivity |].
           split; [discriminate |]. split; [| contradiction].
           intros _. repeat constructor; intros [p [=]].
      * simpl. eexists. split; [rewrite <- !app_assoc; reflexivity |].
        split; [discriminate |]. split; [| contradiction].
        intros _. repeat constructor; intros [p [=]].
    + simpl. eexists. split; [reflexivity |]. split; [discriminate |].
      split; [| contradiction]. intros _. repeat constructor; intros [p [=]].
    + simpl. eexists. split; [reflexivity |]. split; [discriminate |].
      split; [| contradiction]. intros _. repeat constructor; intros [p [=]].
  - unfold bind at 1, ret, ask. simpl.
    destruct (disconnect_answer BLE (trace w) (id d)) as [[]|err]; simpl.
    + eexists. split; [reflexivity |].
      split; [| split; [intros Hne; contradiction |]].
      * intros _. split; [reflexivity | contradiction].
      * intros _. repeat constructor. intros (p & s & c & data & n & ok & [=]).
    + eexists. split; [reflexivity |]. split; [discriminate |]. split.
      * intros _. repeat constructor; intros [p [=]].
      * intros _. repeat constructor. intros (p & s & c & data & n & ok & [=]).
Qed.

(** X7.  [disconnect] never changes the facade: the device stays.  It
    resolves exactly when [BleManager.disconnect] was called and accepted,
    as the last thing it did; before that call the entry of the device was
    taken out of the callback table and, on Android, the disconnect command
    [[0]] was written with success to the characteristic 1501.  When
    [disconnect] does not resolve (the guard, the stop of the stored
    notification or the write of the command failed) no call has closed the
    link.  On a platform other than Android nothing is written. *)
Theorem disconnect_outcome (w : World) :
  let run := disconnect BLE platform w in
  let added := drop (length (trace w)) (trace (snd run)) in
  this (snd run) = this w /\
  (fst run = Resolved tt ->
   exists d,
     device (this w) = Some d /\
     callbacks (snd run) = delete (id d) (callbacks w) /\
     list.last added = Some (Called (BleDisconnect (id d)) true) /\
     (OS platform = "android" ->
      Called (BleWrite (id d) "1400" "1501" [0] None) true ∈ added)) /\
  (fst run <> Resolved tt -> Forall (fun e => ~ closes_link e) added) /\
  (OS platform <> "android" -> Forall (fun e => ~ writes e) added).
Proof.
  intros run added. split; [apply disconnect_keeps_this |].
  subst added. assert (E : disconnect BLE platform w = run) by reflexivity.
  clearbody run. destruct run as [out w']. cbn [fst snd]. revert E.
  unfold disconnect. unfold bind at 1. rewrite ready_run.
  destruct (device (this w)) as [d|] eqn:Hd.
  2: { intros [= <- <-]. rewrite drop_all.
       repeat split; try discriminate; constructor. }
  destruct (isPeripheralConnected_answer BLE (trace w) (id d)) as [[|]|err].
  2,3: intros [= <- <-]; cbn [asked trace]; rewrite drop_app_length;
       repeat split; try discriminate; repeat constructor;
       first [intros [p [=]] | intros (p & s & c & data & n & ok & [=])].
  unfold BleManager_stopNotification.
  rewrite !bind_not_awaited_ask. cbn beta.
  do 3 (match goal with |- context [succeeded ?t] => generalize (succeeded t) end;
        intros ?ok).
  rewrite bind_unsubscribe. cbn [asked this callbacks trace].
  assert (Hpre : forall e, ~ closes_link (Called (BleIsPeripheralConnected (id d)) e))
    by (intros e [p [=]]).
  assert (Hstop : forall p s c e, ~ closes_link (Called (BleStopNotification p s c) e))
    by (intros p s c e [p' [=]]).
  assert (Hpre' : forall e, ~ writes (Called (BleIsPeripheralConnected (id d)) e))
    by (intros e (p & s & c & data & n & ok' & [=])).
  assert (Hstop' : forall p s c e, ~ writes (Called (BleStopNotification p s c) e))
    by (intros p s c e (p' & s' & c' & data & n & ok' & [=])).
  destruct (callbacks w !! id d) as [info|] eqn:Hinfo.
  - cbn zeta.
    destruct (stopNotification_answer BLE _ (id d) (service info)
                (characteristic info)) as [[]|err].
    + match goal with |- ?m ?w0 = _ -> _ =>
        change m with (closing d);
        destruct (closing_run d w0 Hd) as (tail & Hw & Hres & Hrej & Hios);
        destruct (closing d w0) as [out0 w0'] end.
      cbn [fst snd this callbacks trace] in *. intros [= <- <-]. subst w0'.
      cbn [trace callbacks]. rewrite <- !app_assoc, drop_app_length.
      split; [| split].
      * intros Hout. destruct (Hres Hout) as [Hlast Hw]. exists d.
        split; [reflexivity |]. split; [reflexivity |].
        split.
        -- rewrite !last_app, Hlast. reflexivity.
        -- intros Ha. rewrite !elem_of_app. right. right. right. right. right. auto.
      * intros Hout. repeat (apply Forall_app; split); auto; repeat constructor; auto.
      * intros Hos. repeat (apply Forall_app; split); auto; repeat constructor; auto.
    + intros [= <- <-]. unfold asked. cbn [trace].
      rewrite <- !app_assoc, drop_app_length.
      split; [discriminate |]. split; intros _; repeat constructor; auto.
  - match goal with |- ?m ?w0 = _ -> _ =>
      change m with (closing d);
      destruct (closing_run d w0 Hd) as (tail & Hw & Hres & Hrej & Hios);
      destruct (closing d w0) as [out0 w0'] end.
    cbn [asked fst snd this callbacks trace] in *. intros [= <- <-]. subst w0'.
    cbn [trace callbacks]. rewrite <- !app_assoc, drop_app_length.
    split; [| split].
    * intros Hout. destruct (Hres Hout) as [Hlast Hw]. exists d.
      split; [reflexivity |]. split; [symmetry; apply delete_id; exact Hinfo |].
      split.
      -- rewrite !last_app, Hlast. reflexivity.
      -- intros Ha. rewrite !elem_of_app. right. right. right. right. auto.
    * intros Hout. repeat (apply Forall_app; split); auto; repeat constructor; auto.
    * intros Hos. repeat (apply Forall_app; split); auto; repeat constructor; auto.
Qed.

(** ** The footprint of [flashFirmware] *)

(** Everything that a call of [flashFirmware] with the callback
    [onProgress] can do to the outside. *)
Definition transfer_step (onProgress : option ProgressCallback) (e : Event) : Prop :=
  match e with
  | Called (BleIsPeripheralConnected _) _ => True
  | Called (BleRequestMTU _ desired) _ =>
      OS platform <> "ios" /\
      desired = if Qle_bool 34 (Version platform) then 512 else 252
  | Called (BleWrite _ s c data n) _ =>
      s = "1400" /\
      (c = "1701" \/
       (c = "1702" /\ data = [1] /\ n = None) \/
       (c = "1702" /\ data = [4] /\ n = Some 1 /\ OS platform = "ios") \/
       (c = "1501" /\ data = [0] /\ OS platform = "android"))
  | Called (BleWriteWithoutResponse _ s c data n) _ =>
      s = "1400" /\ c = "1702" /\ data = [4] /\ n = Some 1 /\ OS platform <> "ios"
  | Called (BleRead _ s c) _ => s = "1400" /\ c = "1702"
  | Called (BleConnect _) _ => True
  | Called (BleRetrieveServices _) _ => True
  | Called (BleStartNotification _ _ _) _ => True
  | Called (BleStopNotification _ _ _) _ => True
  | Called (BleDisconnect _) _ => True
  | Waited msecs => msecs = 1000 \/ msecs = 5000
  | Progress cb _ => onProgress = Some cb
  | Delivered _ _ _ => False
  end.

(** The record of the calls only grows. *)
Lemma flashFirmware_grows (fuel : nat) (firmware : list Z)
    (onProgress : option ProgressCallback) :
  emits trace (fun _ => True) (flashFirmware BLE platform fuel firmware onProgress).
Proof.
  unfold flashFirmware, connect, disconnect, unsubscribe, subscribe, writeChar,
    readChar, ready, isConnected, report, wait,
    BleManager_isPeripheralConnected, BleManager_requestMTU, BleManager_write,
    BleManager_writeWithoutResponse, BleManager_read, BleManager_connect,
    BleManager_retrieveServices, BleManager_startNotification,
    BleManager_stopNotification, BleManager_disconnect.
  emits_auto; first [apply emits_ask; intros ok | apply emits_record]; exact I.
Qed.

(** X8.  What [flashFirmware] asks of the outside, whatever the stack
    answers: the MTU is requested on platforms other than iOS only, and the
    MTU asked for is 512 from version 34 of the platform on and 252 below;
    the only characteristic read is the OTA control characteristic; the
    writes go to the OTA data characteristic and, with the commands [[1]]
    and [[4]], to the OTA control characteristic, the done command [[4]]
    with a response on iOS and without one elsewhere (a write of the
    disconnect command can follow on Android when the reconnection at the
    end fails); the waits are of one and of five seconds; the progress is
    handed to the callback of the call and to no other function, and no
    listener of the sensor bus is called. *)
Theorem flashFirmware_footprint (fuel : nat) (firmware : list Z)
    (onProgress : option ProgressCallback) (w : World) :
  exists added : list Event,
    trace (snd (flashFirmware BLE platform fuel firmware onProgress w)) =
      trace w ++ added /\
    Forall (transfer_step onProgress) added.
Proof.
  revert w.
  change (emits trace (transfer_step onProgress)
                (flashFirmware BLE platform fuel firmware onProgress)).
  unfold flashFirmware, connect, disconnect, unsubscribe, subscribe, writeChar,
    readChar, ready, isConnected, report, wait,
    BleManager_isPeripheralConnected, BleManager_requestMTU, BleManager_write,
    BleManager_writeWithoutResponse, BleManager_read, BleManager_connect,
    BleManager_retrieveServices, BleManager_startNotification,
    BleManager_stopNotification, BleManager_disconnect.
  emits_auto;
    first [apply emits_ask; intros ok | apply emits_record];
    simpl; unfold SEND_CHUNK_DELAY, DEVICE_REBOOT_WAIT_TIME; auto 10.
Qed.

(** ** The order of the writes of a transfer *)

(** The writes to the two OTA characteristics, with or without a response,
    accepted or not. *)
Definition ota_write (e : Event) : bool :=
  match e with
  | Called (BleWrite _ _ c _ _) _ => bool_decide (c = "1701" \/ c = "1702")
  | Called (BleWriteWithoutResponse _ _ c _ _) _ =>
      bool_decide (c = "1701" \/ c = "1702")
  | _ => false
  end.

Definition ota_writes (w : World) : list Event := List.filter ota_write (trace w).

Definition accepted (c : BleCall) : Event := Called c true.
Definition refused (c : BleCall) : Event := Called c false.

(** The writes of a complete transfer to the device [d]: the header, the
    start command, the chunks, the done command. *)
Definition header_write (d : IDevice) (packetSize flag : Z) : BleCall :=
  BleWrite (id d) "1400" "1701" [packetSize; flag] None.

Definition start_write (d : IDevice) : BleCall :=
  BleWrite (id d) "1400" "1702" [1] None.

Definition chunk_write (d : IDevice) (chunk : list Z) : BleCall :=
  BleWrite (id d) "1400" "1701" chunk (Some (Z.of_nat (length chunk))).

Definition done_write (d : IDevice) : BleCall :=
  if decide (OS platform = "ios")
  then BleWrite (id d) "1400" "1702" [4] (Some 1)
  else BleWriteWithoutResponse (id d) "1400" "1702" [4] (Some 1).

Definition ota_script (d : IDevice) (packetSize flag : Z) (chunks : list (list Z))
    : list BleCall :=
  [header_write d packetSize flag; start_write d] ++
  map (chunk_write d) chunks ++ [done_write d].

Lemma ota_writes_asked (w : World) (c : BleCall) (ok : bool) :
  ota_writes (asked w c ok) =
  ota_writes w ++ if ota_write (Called c ok) then [Called c ok] else [].
Proof.
  unfold ota_writes, asked. simpl. rewrite List.filter_app. simpl.
  destruct (ota_write (Called c ok)); reflexivity.
Qed.

Lemma ask_keeps_ota_writes {A} (c : BleCall) (answer : History -> Result A) :
  (forall ok, ota_write (Called c ok) = false) -> keeps ota_writes (ask c answer).
Proof.
  intros Hc w. change (snd (ask c answer w))
    with (asked w c (succeeded (answer (trace w)))).
  rewrite ota_writes_asked, Hc. apply app_nil_r.
Qed.

Lemma record_keeps_ota_writes (e : Event) :
  ota_write e = false -> keeps ota_writes (record e).
Proof.
  intros He w. unfold ota_writes, record. simpl. rewrite List.filter_app. simpl.
  rewrite He. apply app_nil_r.
Qed.

(** The structural steps, then the calls that are no OTA writes. *)
Ltac keeps_ota :=
  keeps_auto;
  first [apply ask_keeps_ota_writes; intros ?; reflexivity
        | apply record_keeps_ota_writes; reflexivity].

Lemma ready_keeps_ota_writes : keeps ota_writes (ready BLE).
Proof. unfold ready, isConnected, BleManager_isPeripheralConnected. keeps_ota. Qed.

Lemma readChar_keeps_ota_writes c : keeps ota_writes (readChar BLE c).
Proof.
  unfold readChar, ready, isConnected, BleManager_isPeripheralConnected,
    BleManager_read.
  keeps_ota.
Qed.

Lemma wait_keeps_ota_writes ms : keeps ota_writes (wait ms).
Proof. unfold wait. keeps_ota. Qed.

Lemma report_keeps_ota_writes onProgress p : keeps ota_writes (report onProgress p).
Proof. unfold report. keeps_ota. Qed.

Lemma isConnected_keeps_ota_writes : keeps ota_writes (isConnected BLE).
Proof. unfold isConnected, BleManager_isPeripheralConnected. keeps_ota. Qed.

Lemma connect_keeps_ota_writes dev : keeps ota_writes (connect BLE platform dev).
Proof.
  unfold connect, disconnect, unsubscribe, subscribe, writeChar, ready, isConnected,
    BleManager_isPeripheralConnected, BleManager_write, BleManager_connect,
    BleManager_retrieveServices, BleManager_startNotification,
    BleManager_stopNotification, BleManager_disconnect.
  keeps_ota.
Qed.

(** One awaited call of the stack that is an OTA write. *)
Definition one_write (c : BleCall) (out : Outcome unit) (steps : list Event) : Prop :=
  (out = Resolved tt /\ steps = [Called c true]) \/
  (out <> Resolved tt /\ (steps = [] \/ steps = [Called c false])).

Lemma ask_shows (c : BleCall) (answer : History -> Result unit) (w : World) :
  (forall ok, ota_write (Called c ok) = true) ->
  shows ota_writes (ask c answer) w (one_write c).
Proof.
  intros Hc. unfold shows.
  change (snd (ask c answer w)) with (asked w c (succeeded (answer (trace w)))).
  rewrite ota_writes_asked, Hc. eexists. split; [reflexivity |].
  unfold ask. simpl. destruct (answer (trace w)) as [[]|err]; simpl.
  - left. auto.
  - right. split; [discriminate | auto].
Qed.

Lemma writeChar_shows (c : string) (data : list Z) (n : option Z) (d : IDevice)
    (w : World) :
  device (this w) = Some d -> c = "1701" \/ c = "1702" ->
  shows ota_writes (writeChar BLE c data n) w
        (one_write (BleWrite (id d) "1400" c data n)).
Proof.
  intros Hd Hc. unfold shows.
  assert (Hw : ota_write (Called (BleWrite (id d) "1400" c data n) true) = true /\
               ota_write (Called (BleWrite (id d) "1400" c data n) false) = true).
  { simpl. rewrite bool_decide_eq_true. auto. }
  destruct Hw as [Hw1 Hw2].
  assert (E : writeChar BLE c data n w = bind (writeChar BLE c data n) ret w).
  { unfold bind. destruct (writeChar BLE c data n w) as [[[]|err|] w1]; reflexivity. }
  rewrite E, bind_writeChar, Hd. cbn zeta.
  destruct (isPeripheralConnected_answer BLE (trace w) (id d)) as [[|]|err].
  - destruct (write_answer BLE _ (id d) "1400" c data n) as [[]|err];
      unfold ret; cbn [fst snd]; rewrite !ota_writes_asked; simpl ota_write at 1.
    + rewrite Hw1, app_nil_r. eexists. split; [reflexivity |]. left. auto.
    + rewrite Hw2, app_nil_r. eexists. split; [reflexivity |].
      right. split; [discriminate | auto].
  - cbn [fst snd]. rewrite ota_writes_asked. simpl. exists [].
    split; [reflexivity |]. right. split; [discriminate | auto].
  - cbn [fst snd]. rewrite ota_writes_asked. simpl. exists [].
    split; [reflexivity |]. right. split; [discriminate | auto].
Qed.

Lemma chunk_turn_shows (onProgress : option ProgressCallback) (total i : Z)
    (chunk : list Z) (d : IDevice) (w : World) :
  device (this w) = Some d ->
  shows ota_writes
    (writeChar BLE OTA_DATA_UUID chunk (Some (Z.of_nat (length chunk)));;
     report onProgress (progress_percent i total)) w
    (one_write (BleWrite (id d) "1400" "1701" chunk (Some (Z.of_nat (length chunk))))).
Proof.
  intros Hd. eapply shows_bind; [apply (writeChar_shows _ _ _ d w Hd); auto | | |].
  - intros [] w1 s1 _ [[_ ->]|[Hne _]] _; [| congruence].
    apply shows_nothing; [apply report_keeps_ota_writes |].
    left. split; [| reflexivity].
    unfold report. destruct onProgress; reflexivity.
  - intros err s1 [[Habs _]|[_ Hs]]; [discriminate |].
    right. split; [discriminate | exact Hs].
  - intros s1 [[Habs _]|[_ Hs]]; [discriminate |].
    right. split; [discriminate | exact Hs].
Qed.

Lemma chunk_turn_keeps_this (onProgress : option ProgressCallback) (total i : Z)
    (chunk : list Z) :
  keeps this
    (writeChar BLE OTA_DATA_UUID chunk (Some (Z.of_nat (length chunk)));;
     report onProgress (progress_percent i total)).
Proof. unfold report. keeps_auto. Qed.

Lemma ready_shows (w : World) :
  shows ota_writes (ready BLE) w (fun out steps =>
    steps = [] /\ forall d, out = Resolved (Some d) -> device (this w) = Some d).
Proof.
  apply shows_nothing; [apply ready_keeps_ota_writes |].
  split; [reflexivity |]. intros d. rewrite ready_run.
  destruct (device (this w)) as [d'|]; [| discriminate].
  destruct (isPeripheralConnected_answer BLE (trace w) (id d')) as [[|]|err];
    simpl; congruence.
Qed.

Section Script.
Variables (d : IDevice) (packetSize flag : Z) (chunks : list (list Z)).

Lemma script_take (j : nat) :
  (j <= length chunks)%nat ->
  take (2 + j) (ota_script d packetSize flag chunks) =
  header_write d packetSize flag :: start_write d ::
  map (chunk_write d) (take j chunks).
Proof.
  intros Hj. unfold ota_script. simpl. do 2 f_equal.
  rewrite take_app_le by (rewrite length_map; exact Hj).
  rewrite <- fmap_take. reflexivity.
Qed.

Lemma script_lookup_chunk (j : nat) (chunk : list Z) :
  chunks !! j = Some chunk ->
  ota_script d packetSize flag chunks !! (2 + j)%nat = Some (chunk_write d chunk).
Proof.
  intros Hj. unfold ota_script. simpl.
  rewrite lookup_app_l by (rewrite length_map; eapply lookup_lt_Some; exact Hj).
  rewrite list_lookup_fmap, Hj. reflexivity.
Qed.

Lemma script_lookup_done :
  ota_script d packetSize flag chunks !! (2 + length chunks)%nat =
  Some (done_write d).
Proof.
  unfold ota_script. simpl.
  rewrite lookup_app_r by (rewrite length_map; lia).
  rewrite length_map, Nat.sub_diag. reflexivity.
Qed.

Lemma script_length :
  length (ota_script d packetSize flag chunks) = (3 + length chunks)%nat.
Proof. unfold ota_script. simpl. rewrite length_app, length_map. simpl. lia. Qed.

Lemma performed_nothing : performed accepted refused (ota_script d packetSize flag chunks) [].
Proof. exists 0%nat. split; [lia |]. left. reflexivity. Qed.

Lemma performed_header_refused :
  performed accepted refused (ota_script d packetSize flag chunks)
            [refused (header_write d packetSize flag)].
Proof. exists 0%nat. split; [lia |]. right. eexists. split; reflexivity. Qed.

Lemma performed_header :
  performed accepted refused (ota_script d packetSize flag chunks)
            [accepted (header_write d packetSize flag)].
Proof. exists 1%nat. split; [rewrite script_length; lia |]. left. reflexivity. Qed.

Lemma performed_start_refused :
  performed accepted refused (ota_script d packetSize flag chunks)
            [accepted (header_write d packetSize flag); refused (start_write d)].
Proof.
  exists 1%nat. split; [rewrite script_length; lia |]. right. eexists.
  split; reflexivity.
Qed.

Lemma performed_chunks (j : nat) :
  (j <= length chunks)%nat ->
  performed accepted refused (ota_script d packetSize flag chunks)
    ([accepted (header_write d packetSize flag); accepted (start_write d)] ++
     map (fun c => accepted (chunk_write d c)) (take j chunks)).
Proof.
  intros Hj. exists (2 + j)%nat. split; [rewrite script_length; lia |]. left.
  rewrite script_take by exact Hj. simpl. rewrite map_map. reflexivity.
Qed.

Lemma performed_chunk_refused (j : nat) (chunk : list Z) :
  chunks !! j = Some chunk ->
  performed accepted refused (ota_script d packetSize flag chunks)
    ([accepted (header_write d packetSize flag); accepted (start_write d)] ++
     (map (fun c => accepted (chunk_write d c)) (take j chunks) ++
      [refused (chunk_write d chunk)])).
Proof.
  intros Hj. pose proof (lookup_lt_Some _ _ _ Hj) as Hlt.
  exists (2 + j)%nat. split; [rewrite script_length; lia |]. right.
  exists (chunk_write d chunk). split; [apply script_lookup_chunk; exact Hj |].
  rewrite script_take by lia. simpl. rewrite map_map. reflexivity.
Qed.

Lemma performed_done_refused :
  performed accepted refused (ota_script d packetSize flag chunks)
    ([accepted (header_write d packetSize flag); accepted (start_write d)] ++
     map (fun c => accepted (chunk_write d c)) chunks ++ [refused (done_write d)]).
Proof.
  exists (2 + length chunks)%nat. split; [rewrite script_length; lia |]. right.
  exists (done_write d). split; [apply script_lookup_done |].
  rewrite script_take by lia. rewrite firstn_all. simpl. rewrite map_map.
  reflexivity.
Qed.

Lemma performed_all :
  performed accepted refused (ota_script d packetSize flag chunks)
            (map accepted (ota_script d packetSize flag chunks)).
Proof.
  exists (length (ota_script d packetSize flag chunks)). split; [lia |]. left.
  rewrite firstn_all. reflexivity.
Qed.

Lemma script_accepted :
  map accepted (ota_script d packetSize flag chunks) =
  [accepted (header_write d packetSize flag); accepted (start_write d)] ++
  map (fun c => accepted (chunk_write d c)) chunks ++ [accepted (done_write d)].
Proof. unfold ota_script. simpl. rewrite map_app, map_map. reflexivity. Qed.

End Script.

(** What the writes of one call of [flashFirmware] are. *)
Definition transfer_performed (fuel : nat) (firmware : list Z) (w : World)
    (out : Outcome unit) (steps : list Event) : Prop :=
  (out <> Resolved tt /\ steps = []) \/
  exists (d : IDevice) (packetSize flag : Z) (chunks : list (list Z)),
    device (this w) = Some d /\
    ReactNativeFacts.header_of BLE platform w packetSize flag /\
    split_chunks fuel firmware packetSize = Some chunks /\
    performed accepted refused (ota_script d packetSize flag chunks) steps /\
    (out = Resolved tt -> steps = map accepted (ota_script d packetSize flag chunks)).

Lemma flashFirmware_shows (fuel : nat) (firmware : list Z)
    (onProgress : option ProgressCallback) (w : World) :
  shows ota_writes (flashFirmware BLE platform fuel firmware onProgress) w
        (transfer_performed fuel firmware w).
Proof.
  assert (Hnone : forall out : Outcome unit, out <> Resolved tt ->
            transfer_performed fuel firmware w out [])
    by (intros out Hout; left; auto).
  unfold flashFirmware.
  eapply shows_bind; [apply ready_shows | |
    intros err s1 [-> _]; apply Hnone; discriminate |
    intros s1 [-> _]; apply Hnone; discriminate].
  intros [d|] w1 s1 E1 [-> Hdev] _; cbn [app].
  2: { apply shows_nothing; [apply keeps_reject |]. apply Hnone. discriminate. }
  specialize (Hdev d eq_refl).
  assert (Hd1 : device (this w1) = Some d).
  { pose proof (ready_keeps_this w) as K. rewrite E1 in K. simpl in K.
    rewrite K. exact Hdev. }
  apply shows_after;
    [destruct (decide (OS platform = "ios"));
       [apply keeps_ret | unfold BleManager_requestMTU; keeps_ota] | |
     intros err; apply Hnone; discriminate | apply Hnone; discriminate].
  intros mtuSize w2 E2.
  assert (Hneg : ReactNativeFacts.negotiated BLE platform w mtuSize).
  { destruct (ReactNativeFacts.rn_ready_resolved BLE w w1 d E1) as [_ Hw1].
    unfold ReactNativeFacts.negotiated. destruct (decide (OS platform = "ios")).
    - injection E2 as <- _. reflexivity.
    - unfold BleManager_requestMTU, ask in E2.
      fold (ReactNativeFacts.requested_mtu platform) in E2. rewrite Hw1 in E2.
      destruct (requestMTU_answer BLE _ (id d) (ReactNativeFacts.requested_mtu platform))
        as [m|err] eqn:E; simpl in E2; [| discriminate].
      injection E2 as <- _. exists d. auto. }
  assert (Hd2 : device (this w2) = Some d).
  { destruct (decide (OS platform = "ios")).
    - injection E2 as _ <-. exact Hd1.
    - unfold BleManager_requestMTU, ask in E2.
      destruct (requestMTU_answer BLE (trace w1) (id d) _); simpl in E2;
        [| discriminate].
      injection E2 as _ <-. exact Hd1. }
  clear E2.
  destruct (split_chunks fuel firmware (mtuSize - 3)) as [chunks|] eqn:Hsplit.
  2: { apply shows_nothing; [apply keeps_out_of_fuel |]. apply Hnone. discriminate. }
  set (flag := if Qle_bool 34 (Version platform) then 1 else 0).
  set (packetSize := mtuSize - 3).
  assert (Hhdr : ReactNativeFacts.header_of BLE platform w packetSize flag).
  { split; [| reflexivity]. replace (packetSize + 3) with mtuSize by (unfold packetSize; lia).
    exact Hneg. }
  assert (Hsome : forall out steps,
            performed accepted refused (ota_script d packetSize flag chunks) steps ->
            (out = Resolved tt ->
             steps = map accepted (ota_script d packetSize flag chunks)) ->
            transfer_performed fuel firmware w out steps).
  { intros out steps Hp Hall. right. exists d, packetSize, flag, chunks. auto. }
  assert (Hkeep : forall {A} (m : M A) (w0 w0' : World) (a : A),
            keeps this m -> m w0 = (Resolved a, w0') ->
            device (this w0) = Some d -> device (this w0') = Some d).
  { intros A m w0 w0' a K E H0. specialize (K w0). rewrite E in K. simpl in K.
    rewrite K. exact H0. }
  eapply shows_bind; [apply (writeChar_shows _ _ _ d w2 Hd2); auto | | |].
  2: { intros err s1 [[Habs _]|[_ [->| ->]]]; [discriminate | |];
         (apply Hsome; [| discriminate]);
         [apply performed_nothing | apply performed_header_refused]. }
  2: { intros s1 [[Habs _]|[_ [->| ->]]]; [discriminate | |];
         (apply Hsome; [| discriminate]);
         [apply performed_nothing | apply performed_header_refused]. }
  intros [] w3 s1 E3 [[_ ->]|[Hne _]] _; [| congruence].
  pose proof (Hkeep _ _ _ _ _ (writeChar_keeps_this _ _ _) E3 Hd2) as Hd3.
  apply shows_after;
    [apply wait_keeps_ota_writes | |
     intros err; apply Hsome; [apply performed_header | discriminate] |
     apply Hsome; [apply performed_header | discriminate]].
  intros [] w4 E4.
  assert (Hd4 : device (this w4) = Some d)
    by (injection E4 as <-; exact Hd3).
  eapply shows_bind; [apply (writeChar_shows _ _ _ d w4 Hd4); auto | | |].
  2: { intros err s2 [[Habs _]|[_ [->| ->]]]; [discriminate | |];
         (apply Hsome; [| discriminate]);
         [apply performed_header | apply performed_start_refused]. }
  2: { intros s2 [[Habs _]|[_ [->| ->]]]; [discriminate | |];
         (apply Hsome; [| discriminate]);
         [apply performed_header | apply performed_start_refused]. }
  intros [] w5 s2 E5 [[_ ->]|[Hne _]] _; [| congruence].
  pose proof (Hkeep _ _ _ _ _ (writeChar_keeps_this _ _ _) E5 Hd4) as Hd5.
  assert (Hstarted : forall out : Outcome unit, out <> Resolved tt ->
            transfer_performed fuel firmware w out
              ([Called (BleWrite (id d) "1400" OTA_DATA_UUID
                          [packetSize; flag] None) true] ++
               [Called (BleWrite (id d) "1400" OTA_CONTROL_UUID [1] None) true] ++ [])).
  { intros out Hout. apply Hsome; [| intros ->; contradiction].
    apply (performed_chunks d packetSize flag chunks 0). lia. }
  apply shows_after;
    [apply wait_keeps_ota_writes | |
     intros err; apply Hstarted; discriminate | apply Hstarted; discriminate].
  intros [] w6 E6.
  assert (Hd6 : device (this w6) = Some d)
    by (injection E6 as <-; exact Hd5).
  apply shows_after;
    [apply readChar_keeps_ota_writes | |
     intros err; apply Hstarted; discriminate | apply Hstarted; discriminate].
  intros data w7 E7.
  pose proof (Hkeep _ _ _ _ _ (readChar_keeps_this _) E7 Hd6) as Hd7.
  clear Hstarted.
  assert (Hloop := shows_for_each_chunk ota_writes
            (fun w0 => device (this w0) = Some d)
            (fun c => accepted (chunk_write d c)) (fun c => refused (chunk_write d c))
            (fun i chunk =>
               writeChar BLE OTA_DATA_UUID chunk (Some (Z.of_nat (length chunk)));;
               report onProgress (progress_percent i (Z.of_nat (length chunks))))%prog).
  destruct (Hloop ltac:(intros i chunk w0 H0; split;
                          [rewrite chunk_turn_keeps_this; exact H0
                          | apply chunk_turn_shows; exact H0])
              chunks 0 w7 Hd7) as [Hinv Hshown].
  clear Hloop.
  eapply shows_bind; [exact Hshown | | |].
  2: { intros err s3 (j & Hj & [[-> _]|(c & Hc & -> & _)]);
         (apply Hsome; [| discriminate]);
         [apply performed_chunks; exact Hj | apply performed_chunk_refused; exact Hc]. }
  2: { intros s3 (j & Hj & [[-> _]|(c & Hc & -> & _)]);
         (apply Hsome; [| discriminate]);
         [apply performed_chunks; exact Hj | apply performed_chunk_refused; exact Hc]. }
  intros [] w8 s3 E8 (j & Hj & [[-> Hall]|(c & Hc & _ & Hout)]) _; [| congruence].
  assert (j = length chunks) as -> by (apply Hall; reflexivity).
  rewrite firstn_all. rewrite E8 in Hinv. simpl in Hinv.
  assert (Hsent : forall out : Outcome unit, out <> Resolved tt ->
            transfer_performed fuel firmware w out
              ([Called (BleWrite (id d) "1400" OTA_DATA_UUID
                          [packetSize; flag] None) true] ++
               [Called (BleWrite (id d) "1400" OTA_CONTROL_UUID [1] None) true] ++
               map (fun c => accepted (chunk_write d c)) chunks ++ [])).
  { intros out Hout. apply Hsome; [| intros ->; contradiction].
    rewrite app_nil_r. rewrite <- (firstn_all chunks) at 2.
    apply (performed_chunks d packetSize flag chunks (length chunks)). lia. }
  assert (Hrefused : forall out : Outcome unit, out <> Resolved tt ->
            transfer_performed fuel firmware w out
              ([Called (BleWrite (id d) "1400" OTA_DATA_UUID
                          [packetSize; flag] None) true] ++
               [Called (BleWrite (id d) "1400" OTA_CONTROL_UUID [1] None) true] ++
               map (fun c => accepted (chunk_write d c)) chunks ++
               [Called (done_write d) false])).
  { intros out Hout. apply Hsome; [| intros ->; contradiction].
    apply performed_done_refused. }
  assert (Hdone : forall out : Outcome unit,
            transfer_performed fuel firmware w out
              ([Called (BleWrite (id d) "1400" OTA_DATA_UUID
                          [packetSize; flag] None) true] ++
               [Called (BleWrite (id d) "1400" OTA_CONTROL_UUID [1] None) true] ++
               map (fun c => accepted (chunk_write d c)) chunks ++
               [Called (done_write d) true] ++ [])).
  { intros out. rewrite app_nil_r.
    match goal with |- transfer_performed _ _ _ _ ?l =>
      replace l with (map accepted (ota_script d packetSize flag chunks))
        by (rewrite script_accepted; reflexivity) end.
    apply Hsome; [apply performed_all | reflexivity]. }
  assert (Hend : forall w0,
            shows ota_writes
              (wait DEVICE_REBOOT_WAIT_TIME;;
               c ← isConnected BLE;
               if c then ret tt else connect BLE platform (Some d))%prog w0
              (fun out s5 =>
                 transfer_performed fuel firmware w out
                   ([Called (BleWrite (id d) "1400" OTA_DATA_UUID
                               [packetSize; flag] None) true] ++
                    [Called (BleWrite (id d) "1400" OTA_CONTROL_UUID [1] None) true] ++
                    map (fun c => accepted (chunk_write d c)) chunks ++
                    [Called (done_write d) true] ++ s5))).
  { intros w0. apply shows_nothing; [| apply Hdone].
    apply keeps_bind; [apply wait_keeps_ota_writes | intros _].
    apply keeps_bind; [apply isConnected_keeps_ota_writes | intros [|]];
      [apply keeps_ret | apply connect_keeps_ota_writes]. }
  unfold done_write in *.
  destruct (decide (OS platform = "ios")) as [Hios|Hother].
  - eapply shows_bind; [apply (writeChar_shows _ _ _ d w8 Hinv); auto | | |].
    + intros [] w9 s4 E9 [[_ ->]|[Hne _]] _; [| congruence]. apply Hend.
    + intros err s4 [[Habs _]|[_ [->| ->]]]; [discriminate | |];
        [apply Hsent | apply Hrefused]; discriminate.
    + intros s4 [[Habs _]|[_ [->| ->]]]; [discriminate | |];
        [apply Hsent | apply Hrefused]; discriminate.
  - eapply shows_bind;
      [unfold BleManager_writeWithoutResponse; apply ask_shows;
       intros ok; reflexivity | | |].
    + intros [] w9 s4 E9 [[_ ->]|[Hne _]] _; [| congruence]. apply Hend.
    + intros err s4 [[Habs _]|[_ [->| ->]]]; [discriminate | |];
        [apply Hsent | apply Hrefused]; discriminate.
    + intros s4 [[Habs _]|[_ [->| ->]]]; [discriminate | |];
        [apply Hsent | apply Hrefused]; discriminate.
Qed.

(** X9.  The writes of [flashFirmware] to the two OTA characteristics,
    whatever the stack answers: none at all, or the first writes of the
    script of a transfer (the header [[packetSize, flag]], the start command
    [[1]], the chunks in order, the done command [[4]]), each made only
    after the one before it was accepted.  So the start command is written
    before any chunk, and the done command is written only when every chunk
    was accepted.  When the call resolves the whole script was accepted. *)
Theorem flashFirmware_writes_in_order (fuel : nat) (firmware : list Z)
    (onProgress : option ProgressCallback) (w : World) :
  let run := flashFirmware BLE platform fuel firmware onProgress w in
  let steps :=
    List.filter ota_write (drop (length (trace w)) (trace (snd run))) in
  (fst run <> Resolved tt /\ steps = []) \/
  exists (d : IDevice) (packetSize flag : Z) (chunks : list (list Z)),
    device (this w) = Some d /\
    ReactNativeFacts.header_of BLE platform w packetSize flag /\
    split_chunks fuel firmware packetSize = Some chunks /\
    performed accepted refused (ota_script d packetSize flag chunks) steps /\
    (fst run = Resolved tt ->
     steps = map accepted (ota_script d packetSize flag chunks)).
Proof.
  intros run steps.
  destruct (flashFirmware_shows fuel firmware onProgress w) as (shown & Hv & HR).
  destruct (flashFirmware_grows fuel firmware onProgress w) as (added & Ht & _).
  assert (steps = shown) as ->.
  { subst steps run. rewrite Ht, drop_app_length.
    unfold ota_writes in Hv. rewrite Ht, List.filter_app in Hv.
    apply app_inv_head in Hv. exact Hv. }
  exact HR.
Qed.

(** ** A packet size that is not positive *)

(** The MTU that [flashFirmware] asks for. *)
Definition desired_mtu : Z :=
  if Qle_bool 34 (Version platform) then DESIRED_MTU_SIZE_V_14 else DESIRED_MTU_SIZE.

(** X10.  On a platform other than iOS, when the stack answers the MTU
    request with 3 or less, [flashFirmware] never settles on an image that
    is not empty: the packet size is 0 or less, the chunking loop does not
    end whatever the fuel, and nothing is written to the device. *)
Theorem small_mtu_never_settles (fuel : nat) (firmware : list Z)
    (onProgress : option ProgressCallback) (w : World) (d : IDevice) (mtu : Z) :
  OS platform <> "ios" ->
  device (this w) = Some d ->
  isPeripheralConnected_answer BLE (trace w) (id d) = Ok true ->
  requestMTU_answer BLE (trace (asked w (BleIsPeripheralConnected (id d)) true))
                    (id d) desired_mtu = Ok mtu ->
  mtu <= 3 -> firmware <> [] ->
  flashFirmware BLE platform fuel firmware onProgress w =
  (OutOfFuel,
   asked (asked w (BleIsPeripheralConnected (id d)) true)
         (BleRequestMTU (id d) desired_mtu) true).
Proof.
  intros Hos Hd Hup Hmtu Hle Hne.
  assert (Hloop : split_chunks fuel firmware (mtu - 3) = None).
  { apply chunk_loop_diverges; [lia |].
    destruct firmware; [contradiction | simpl; lia]. }
  unfold flashFirmware. unfold bind at 1. rewrite ready_run, Hd, Hup.
  destruct (decide (OS platform = "ios")); [contradiction |].
  unfold BleManager_requestMTU. rewrite bind_ask.
  fold desired_mtu. rewrite Hmtu, Hloop. reflexivity.
Qed.

End Methods.
(** ** The theorems at work *)

(** A stack that cannot reach the peripheral: [connect] fails. *)
Definition unreachable (err : JSError) : BleManager :=
  {| connect_answer := fun _ _ => Fails err;
     retrieveServices_answer := fun _ _ => Ok tt;
     isPeripheralConnected_answer := fun _ _ => Ok false;
     startNotification_answer := fun _ _ _ _ => Ok tt;
     stopNotification_answer := fun _ _ _ _ => Ok tt;
     read_answer := fun _ _ _ _ => Ok [0];
     write_answer := fun _ _ _ _ _ _ => Ok tt;
     writeWithoutResponse_answer := fun _ _ _ _ _ _ => Ok tt;
     requestMTU_answer := fun _ _ _ => Ok 253;
     disconnect_answer := fun _ _ => Ok tt |}.

Lemma methods_need_a_connection_witness :
  getFirmwareVersion Fixtures.out_of_reach Fixtures.connected =
    (Rejected (RejectedWith deviceNotInitMsg),
     asked Fixtures.connected (BleIsPeripheralConnected (id Fixtures.control)) true) /\
  testDevice (Fixtures.dependable 253) initial_world =
    (Rejected (RejectedWith deviceNotInitMsg), initial_world).
Proof.
  destruct (methods_need_a_connection Fixtures.out_of_reach Fixtures.android)
    as (Hfirmware & _).
  destruct (methods_need_a_connection (Fixtures.dependable 253) Fixtures.android)
    as (_ & _ & _ & _ & _ & _ & _ & Htest & _).
  split.
  - apply (proj1 (proj2 (Hfirmware Fixtures.connected)) Fixtures.control); reflexivity.
  - apply (proj1 (Htest initial_world)). reflexivity.
Defined.

Lemma getters_read_their_characteristic_witness :
  getDeviceName (Fixtures.dependable 253) Fixtures.connected =
    (Resolved [0],
     asked (asked Fixtures.connected (BleIsPeripheralConnected (id Fixtures.control)) true)
           (BleRead (id Fixtures.control) "1400" "2A00") true) /\
  fst (getSerialNumber (Fixtures.unreadable Fixtures.network_error) Fixtures.connected) =
    Rejected Fixtures.network_error.
Proof.
  destruct (getters_read_their_characteristic (Fixtures.dependable 253))
    as (_ & _ & _ & _ & Hname & _).
  destruct (getters_read_their_characteristic
              (Fixtures.unreadable Fixtures.network_error)) as (_ & Hserial & _).
  split.
  - exact (Hname Fixtures.connected Fixtures.control eq_refl eq_refl).
  - pose proof (Hserial Fixtures.connected Fixtures.control eq_refl eq_refl) as H.
    cbv zeta in H. simpl in H. rewrite H. reflexivity.
Defined.


Example connect_fails_at_the_first_call :
  connect (unreachable Fixtures.network_error) Fixtures.android
          (Some Fixtures.control) initial_world =
  (Rejected (RejectedWith
     "The device is invalid or not found: Error: NetworkError: GATT Server is disconnected."),
   {| this := {| device := Some Fixtures.control; notificationData := new_DeviceData;
                 acceleration := 0; sensor := new_DeviceSensorEvents |};
      callbacks := ∅;
      trace := [Called (BleConnect (id Fixtures.control)) false;
                Called (BleIsPeripheralConnected (id Fixtures.control)) true] |}).
Proof. vm_compute. reflexivity. Qed.

Lemma disconnect_outcome_witness :
  let run := disconnect (Fixtures.dependable 253) Fixtures.android Fixtures.connected in
  exists d,
    device (this Fixtures.connected) = Some d /\
    callbacks (snd run) = delete (id d) (callbacks Fixtures.connected) /\
    list.last (drop (length (trace Fixtures.connected)) (trace (snd run))) =
      Some (Called (BleDisconnect (id d)) true) /\
    (OS Fixtures.android = "android" ->
     Called (BleWrite (id d) "1400" "1501" [0] None) true
       ∈ drop (length (trace Fixtures.connected)) (trace (snd run))).
Proof.
  intros run.
  destruct (disconnect_outcome (Fixtures.dependable 253) Fixtures.android
              Fixtures.connected) as (_ & Hok & _).
  apply Hok. reflexivity.
Defined.

Example disconnect_on_android :
  Fixtures.added (disconnect (Fixtures.dependable 253) Fixtures.android)
                 Fixtures.connected =
  [Called (BleIsPeripheralConnected (id Fixtures.control)) true;
   Called (BleStopNotification (id Fixtures.control) "1400" "FFF1") true;
   Called (BleStopNotification (id Fixtures.control) "1400" "FFF2") true;
   Called (BleStopNotification (id Fixtures.control) "1400" "FFF3") true;
   Called (BleStopNotification (id Fixtures.control) "1400" "FFF3") true;
   Called (BleIsPeripheralConnected (id Fixtures.control)) true;
   Called (BleWrite (id Fixtures.control) "1400" "1501" [0] None) true;
   Called (BleDisconnect (id Fixtures.control)) true].
Proof. vm_compute. reflexivity. Qed.

Lemma flashFirmware_writes_in_order_witness :
  let run := flashFirmware (Fixtures.dependable 253) Fixtures.android 8 [1; 2; 3]
               None Fixtures.connected in
  let steps :=
    List.filter ota_write
      (drop (length (trace Fixtures.connected)) (trace (snd run))) in
  (fst run <> Resolved tt /\ steps = []) \/
  exists (d : IDevice) (packetSize flag : Z) (chunks : list (list Z)),
    device (this Fixtures.connected) = Some d /\
    ReactNativeFacts.header_of (Fixtures.dependable 253) Fixtures.android
                               Fixtures.connected packetSize flag /\
    split_chunks 8 [1; 2; 3] packetSize = Some chunks /\
    performed accepted refused
              (ota_script Fixtures.android d packetSize flag chunks) steps /\
    (fst run = Resolved tt ->
     steps = map accepted (ota_script Fixtures.android d packetSize flag chunks)).
Proof.
  exact (flashFirmware_writes_in_order (Fixtures.dependable 253) Fixtures.android
           8%nat [1; 2; 3] None Fixtures.connected).
Defined.

Example writes_of_a_transfer_on_android :
  List.filter ota_write
    (Fixtures.added (flashFirmware (Fixtures.dependable 253) Fixtures.android 8
                                   [1; 2; 3] None) Fixtures.connected) =
  map accepted (ota_script Fixtures.android Fixtures.control 250 0 [[1; 2; 3]]).
Proof. vm_compute. reflexivity. Qed.

Lemma small_mtu_never_settles_witness :
  flashFirmware (Fixtures.dependable 3) Fixtures.android 1000 [1; 2; 3] None
                Fixtures.connected =
  (OutOfFuel,
   asked (asked Fixtures.connected (BleIsPeripheralConnected (id Fixtures.control)) true)
         (BleRequestMTU (id Fixtures.control) (desired_mtu Fixtures.android)) true).
Proof.
  apply (small_mtu_never_settles (Fixtures.dependable 3) Fixtures.android 1000%nat
           [1; 2; 3] None Fixtures.connected Fixtures.control 3);
    first [reflexivity | discriminate | lia].
Defined.

End ReactNativeMethods.
(** * Beyond the claims: the methods of the Web Bluetooth facade *)

Module WebMethods.
Import Web.

(** The world after the call [c] of the stack, recorded with its success. *)
Definition gatt_asked (w : World) (c : GattCall) (ok : bool) : World :=
  {| this := this w; trace := trace w ++ [Called c ok] |}.

Section Methods.
Variable GATT : WebBluetooth.

Lemma bind_gatt_ask {A B} (c : GattCall) (answer : History -> Result A)
    (f : A -> M B) (w : World) :
  bind (ask c answer) f w =
  match answer (trace w) with
  | Ok a => f a (gatt_asked w c true)
  | Fails err => (Rejected err, gatt_asked w c false)
  end.
Proof. unfold bind, ask, gatt_asked. destruct (answer (trace w)); reflexivity. Qed.

Lemma gatt_ask_run {A} (c : GattCall) (answer : History -> Result A) (w : World) :
  ask c answer w =
  match answer (trace w) with
  | Ok a => (Resolved a, gatt_asked w c true)
  | Fails err => (Rejected err, gatt_asked w c false)
  end.
Proof. unfold ask, gatt_asked. destruct (answer (trace w)); reflexivity. Qed.

(** ** The guard *)

(** A method that is rejected with the message of the facade, and does
    nothing, when the control service was never obtained. *)
Definition needs_service {A} (m : M A) : Prop :=
  forall w : World,
    controlService (this w) = None ->
    m w = (Rejected (RejectedWith "The device should be connected first."), w).

Lemma needs_service_guard {A} (m : M A) :
  needs_service (w ← get;
                 if not_initialized (this w)
                 then reject (RejectedWith deviceNotInitMsg) else m).
Proof.
  intros w Hnone. rewrite bind_get. unfold not_initialized. rewrite Hnone. reflexivity.
Qed.

(** X11.  The six getters of the device information, [getBattery] and
    [testDevice] are rejected with the not-connected message, and nothing is
    asked of the stack, as long as the control service was never obtained:
    on a new facade in particular.  [isDeviceInitialized] returns that
    message in the same case, and the empty string whenever the control
    service is there, whatever the state of the link. *)
Theorem methods_need_the_control_service :
  needs_service (getFirmwareVersion GATT) /\ needs_service (getSerialNumber GATT) /\
  needs_service (getModelNumber GATT) /\ needs_service (getManufactureName GATT) /\
  needs_service (getDeviceName GATT) /\ needs_service (getHardwareVersion GATT) /\
  needs_service (getBattery GATT) /\ needs_service (testDevice GATT) /\
  (forall k : KiirooControl,
     isDeviceInitialized k =
     match controlService k with
     | None => "The device should be connected first."
     | Some _ => ""
     end).
Proof.
  repeat split; try apply needs_service_guard.
  intros k. unfold isDeviceInitialized, not_initialized.
  destruct (controlService k); reflexivity.
Qed.

(** ** The getters *)

(** A getter wired to the characteristic [uuid]: with the control service
    at hand it gets the characteristic and reads its value, and resolves to
    the text of the bytes; an error of either call rejects the getter.  The
    state of the link is not looked at, and the facade stays as it was. *)
Definition reads_characteristic (m : M JSString) (uuid : Z) : Prop :=
  forall (w : World) (s : BluetoothRemoteGATTService),
    controlService (this w) = Some s ->
    match getCharacteristic_answer GATT (trace w) uuid with
    | Fails err => m w = (Rejected err, gatt_asked w (GetCharacteristic uuid) false)
    | Ok _ =>
        let w1 := gatt_asked w (GetCharacteristic uuid) true in
        match readValue_answer GATT (trace w1) uuid with
        | Ok data => m w = (Resolved (chars_of data), gatt_asked w1 (ReadValue uuid) true)
        | Fails err => m w = (Rejected err, gatt_asked w1 (ReadValue uuid) false)
        end
    end.

Lemma getter_reads_characteristic (uuid : Z) :
  reads_characteristic
    (w ← get;
     if not_initialized (this w) then reject (RejectedWith deviceNotInitMsg)
     else
       getCharacteristic GATT uuid;;
       data ← readValue GATT uuid;
       ret (chars_of data)) uuid.
Proof.
  intros w s Hs. rewrite bind_get.
  assert (Hinit : not_initialized (this w) = false)
    by (unfold not_initialized; rewrite Hs; reflexivity).
  rewrite Hinit. unfold getCharacteristic, readValue. rewrite bind_gatt_ask.
  destruct (getCharacteristic_answer GATT (trace w) uuid) as [[]|err]; [| reflexivity].
  cbn zeta. rewrite bind_gatt_ask.
  destruct (readValue_answer GATT _ uuid) as [data|err]; reflexivity.
Qed.

(** X12.  The characteristic that each getter of the web facade reads. *)
Theorem web_getters_read_their_characteristic :
  reads_characteristic (getFirmwareVersion GATT) 0x2a26 /\
  reads_characteristic (getSerialNumber GATT) 0x2a25 /\
  reads_characteristic (getModelNumber GATT) 0x2a24 /\
  reads_characteristic (getManufactureName GATT) 0x2a29 /\
  reads_characteristic (getDeviceName GATT) 0x2a00 /\
  reads_characteristic (getHardwareVersion GATT) 0x2a27.
Proof. repeat split; apply getter_reads_characteristic. Qed.

(** ** [connect] and [disconnect] *)

(** What the setting up and the removal of the listeners can add to the
    trace. *)
Definition listening_step (e : Event) : Prop :=
  match e with
  | Called (GetCharacteristic uuid) _ =>
      uuid = CHAR_X_UUID \/ uuid = CHAR_Y_UUID \/ uuid = CHAR_Z_UUID
  | Called (StartNotifications uuid) _ =>
      uuid = CHAR_X_UUID \/ uuid = CHAR_Y_UUID \/ uuid = CHAR_Z_UUID
  | AddEventListener uuid =>
      uuid = CHAR_X_UUID \/ uuid = CHAR_Y_UUID \/ uuid = CHAR_Z_UUID
  | RemoveEventListener uuid =>
      uuid = CHAR_X_UUID \/ uuid = CHAR_Y_UUID \/ uuid = CHAR_Z_UUID
  | _ => False
  end.

Lemma emits_gatt_ask (P : Event -> Prop) {A} (c : GattCall)
    (answer : History -> Result A) :
  (forall ok, P (Called c ok)) -> emits trace P (ask c answer).
Proof.
  intros HP w. exists [Called c (succeeded (answer (trace w)))].
  split; [reflexivity |]. constructor; [apply HP | constructor].
Qed.

Lemma emits_gatt_record (P : Event -> Prop) (e : Event) :
  P e -> emits trace P (record e).
Proof.
  intros HP w. exists [e]. split; [reflexivity |]. constructor; [exact HP | constructor].
Qed.

Ltac emits_gatt :=
  emits_auto;
  first [apply emits_gatt_ask; intros ? | apply emits_gatt_record];
  simpl; auto.

Lemma setUpListener_emits (char : Z) :
  char = CHAR_X_UUID \/ char = CHAR_Y_UUID \/ char = CHAR_Z_UUID ->
  Forall (fun step => emits trace listening_step step) (setUpListener_steps GATT char).
Proof.
  intros Hc.
  unfold setUpListener_steps, service_getCharacteristic, getCharacteristic,
    startNotifications.
  repeat constructor; emits_gatt.
Qed.

Lemma removeListener_emits (char : Z) :
  char = CHAR_X_UUID \/ char = CHAR_Y_UUID \/ char = CHAR_Z_UUID ->
  emits trace listening_step (removeListener GATT char).
Proof.
  intros Hc. unfold removeListener, service_getCharacteristic, getCharacteristic,
    startNotifications.
  emits_gatt.
Qed.

Lemma setUpListener_keeps_this (char : Z) :
  Forall (fun step => keeps this step) (setUpListener_steps GATT char).
Proof.
  unfold setUpListener_steps, service_getCharacteristic, getCharacteristic,
    startNotifications.
  repeat constructor; keeps_auto.
Qed.

Lemma removeListener_keeps_this (char : Z) : keeps this (removeListener GATT char).
Proof.
  unfold removeListener, service_getCharacteristic, getCharacteristic,
    startNotifications.
  keeps_auto.
Qed.

(** The three [setUpListener] calls of [connect], started one after the
    other and not awaited. *)
Definition setting_up : M unit :=
  started_together [setUpListener_steps GATT CHAR_X_UUID;
                    setUpListener_steps GATT CHAR_Y_UUID;
                    setUpListener_steps GATT CHAR_Z_UUID].

Lemma setting_up_run (w : World) :
  exists steps,
    setting_up w = (Resolved tt, {| this := this w; trace := trace w ++ steps |}) /\
    Forall listening_step steps.
Proof.
  assert (He : emits trace listening_step setting_up).
  { unfold setting_up. apply emits_started_together.
    repeat (apply Forall_cons_2; [apply setUpListener_emits; auto |]).
    apply Forall_nil_2. }
  assert (Hk : keeps this setting_up).
  { unfold setting_up. apply keeps_started_together.
    repeat (apply Forall_cons_2; [apply setUpListener_keeps_this |]).
    apply Forall_nil_2. }
  destruct (He w) as (steps & Ht & Hall). specialize (Hk w).
  exists steps. split; [| exact Hall].
  destruct (setting_up w) as [out w1] eqn:E. simpl in *.
  assert (out = Resolved tt) as ->.
  { revert E. unfold setting_up, started_together. congruence. }
  destruct w1 as [k1 t1]. simpl in *. subst. reflexivity.
Qed.

(** X13.  [connect(device)] on a device without GATT is rejected at once
    and changes nothing.  Otherwise the device is stored first; an error of
    [gatt.connect()] or of [getPrimaryService] rejects the call and leaves
    the control service as it was, and no listener is set up.  Once the
    service is obtained [connect] resolves, whatever becomes of the three
    listeners that it starts to set up: their errors are not reported. *)
Theorem web_connect_outcome (dev : BluetoothDevice) (w : World) :
  (has_gatt dev = false ->
   connect GATT dev w =
   (Rejected (RejectedWith "The device is invalid or not found"), w)) /\
  (has_gatt dev = true ->
   let stored := {| device := Some dev; controlService := controlService (this w) |} in
   match gatt_connect_answer GATT (trace w) with
   | Fails err =>
       connect GATT dev w =
       (Rejected err, {| this := stored; trace := trace w ++ [Called GattConnect false] |})
   | Ok _ =>
       let h := trace w ++ [Called GattConnect true] in
       match getPrimaryService_answer GATT h 0x1400 with
       | Fails err =>
           connect GATT dev w =
           (Rejected err,
            {| this := stored;
               trace := h ++ [Called (GetPrimaryService 0x1400) false] |})
       | Ok _ =>
           exists steps,
             connect GATT dev w =
             (Resolved tt,
              {| this := {| device := Some dev;
                            controlService := Some (PrimaryService 0x1400) |};
                 trace := h ++ [Called (GetPrimaryService 0x1400) true] ++ steps |}) /\
             Forall listening_step steps
       end
   end).
Proof.
  split.
  - intros Hg. unfold connect. rewrite Hg. reflexivity.
  - intros Hg. cbn zeta.
    assert (E : connect GATT dev w =
              bind (gatt_connect GATT) (fun _ =>
                bind (getPrimaryService GATT 0x1400) (fun _ =>
                  bind (set_this {| device := Some dev;
                                    controlService := Some (PrimaryService 0x1400) |})
                       (fun _ => setting_up)))
                {| this := {| device := Some dev;
                              controlService := controlService (this w) |};
                   trace := trace w |}).
    { unfold connect. rewrite Hg. reflexivity. }
    rewrite E. clear E. unfold gatt_connect. rewrite bind_gatt_ask.
    cbn [gatt_asked this trace].
    destruct (gatt_connect_answer GATT (trace w)) as [[]|err]; [| reflexivity].
    unfold getPrimaryService. rewrite bind_gatt_ask. cbn [gatt_asked this trace].
    destruct (getPrimaryService_answer GATT _ 5120) as [[]|err]; [| reflexivity].
    unfold bind at 1, set_this. cbn [fst snd this trace].
    match goal with |- context [setting_up ?w0] =>
      destruct (setting_up_run w0) as (steps & Hrun & Hall) end.
    exists steps. split; [| exact Hall].
    rewrite Hrun. unfold gatt_asked. cbn [this trace].
    rewrite <- !app_assoc. reflexivity.
Qed.

(** X14.  [disconnect] of the web facade never rejects: what goes wrong
    while the listeners are removed is caught.  It leaves the facade as it
    was, the control service included, and when a device is stored it ends
    by closing the link with [gatt.disconnect()], which it calls once; with
    no device stored the link is not touched.  The stored device has its
    GATT server, as every device that [connect] stores has. *)
Theorem web_disconnect_outcome (w : World) :
  (forall dev, device (this w) = Some dev -> has_gatt dev = true) ->
  exists steps,
    Forall listening_step steps /\
    disconnect GATT w =
    (Resolved tt,
     {| this := this w;
        trace := trace w ++ steps ++
                 match device (this w) with
                 | Some _ => [GattDisconnect]
                 | None => []
                 end |}).
Proof.
  intros _.
  set (removing := (removeListener GATT CHAR_X_UUID;;
                    removeListener GATT CHAR_Y_UUID;;
                    removeListener GATT CHAR_Z_UUID)%prog).
  set (caught := try_catch removing (fun _ => ret tt)).
  assert (He : emits trace listening_step caught).
  { unfold caught, removing. emits_auto; apply removeListener_emits; auto. }
  assert (Hk : keeps this caught).
  { unfold caught, removing. keeps_auto; apply removeListener_keeps_this. }
  assert (Hs : forall w0, fst (caught w0) = Resolved tt).
  { intros w0. unfold caught, try_catch.
    assert (Hset : settles removing).
    { unfold removing, removeListener, service_getCharacteristic, getCharacteristic,
        startNotifications, ask, record. settles_auto. }
    specialize (Hset w0).
    destruct (removing w0) as [[[]|err|] w1]; simpl in *;
      [reflexivity | reflexivity | contradiction]. }
  destruct (He w) as (steps & Ht & Hall). specialize (Hk w). specialize (Hs w).
  exists steps. split; [exact Hall |].
  unfold disconnect. fold removing. fold caught. unfold bind at 1.
  destruct (caught w) as [out [k1 t1]]. simpl in *. subst out k1 t1.
  unfold bind, get. simpl.
  destruct (device (this w)).
  - unfold record. simpl. rewrite <- app_assoc. reflexivity.
  - unfold ret. rewrite app_nil_r. reflexivity.
Qed.

(** ** The order of the writes of a transfer *)

Definition gatt_writes (w : World) : list Event :=
  List.filter WebFacts.is_write (trace w).

Definition gatt_accepted (c : GattCall) : Event := Called c true.
Definition gatt_refused (c : GattCall) : Event := Called c false.

(** The writes of a complete transfer: the header, the start command, the
    chunks, the done command. *)
Definition web_ota_script (chunks : list (list Z)) : list GattCall :=
  [WriteValue 0x1701 [253; 0]; WriteValue 0x1702 [1]] ++
  map (WriteValue 0x1701) chunks ++ [WriteValue 0x1702 [4]].

Lemma gatt_writes_asked (w : World) (c : GattCall) (ok : bool) :
  gatt_writes (gatt_asked w c ok) =
  gatt_writes w ++ if WebFacts.is_write (Called c ok) then [Called c ok] else [].
Proof.
  unfold gatt_writes, gatt_asked. simpl. rewrite List.filter_app. simpl.
  destruct (WebFacts.is_write (Called c ok)); reflexivity.
Qed.

Lemma ask_keeps_gatt_writes {A} (c : GattCall) (answer : History -> Result A) :
  (forall ok, WebFacts.is_write (Called c ok) = false) ->
  keeps gatt_writes (ask c answer).
Proof.
  intros Hc w. change (snd (ask c answer w))
    with (gatt_asked w c (succeeded (answer (trace w)))).
  rewrite gatt_writes_asked, Hc. apply app_nil_r.
Qed.

Lemma record_keeps_gatt_writes (e : Event) :
  WebFacts.is_write e = false -> keeps gatt_writes (record e).
Proof.
  intros He w. unfold gatt_writes, record. simpl. rewrite List.filter_app. simpl.
  rewrite He. apply app_nil_r.
Qed.

Definition one_gatt_write (c : GattCall) (out : Outcome unit) (steps : list Event)
    : Prop :=
  (out = Resolved tt /\ steps = [gatt_accepted c]) \/
  (out <> Resolved tt /\ (steps = [] \/ steps = [gatt_refused c])).

Lemma writeValue_shows (uuid : Z) (data : list Z) (w : World) :
  shows gatt_writes (writeValue GATT uuid data) w
        (one_gatt_write (WriteValue uuid data)).
Proof.
  unfold shows, writeValue.
  change (snd (ask (WriteValue uuid data)
                   (fun h => writeValue_answer GATT h uuid data) w))
    with (gatt_asked w (WriteValue uuid data)
            (succeeded (writeValue_answer GATT (trace w) uuid data))).
  rewrite gatt_writes_asked. simpl WebFacts.is_write. cbn iota.
  eexists. split; [reflexivity |]. unfold ask. simpl.
  destruct (writeValue_answer GATT (trace w) uuid data) as [[]|err]; simpl.
  - left. auto.
  - right. split; [discriminate | auto].
Qed.

Lemma web_chunk_turn_shows (onProgress : option ProgressCallback) (total i : Z)
    (chunk : list Z) (w : World) :
  shows gatt_writes
    (writeValue GATT OTA_DATA_UUID chunk;;
     report onProgress (progress_percent i total)) w
    (one_gatt_write (WriteValue 0x1701 chunk)).
Proof.
  eapply shows_bind; [apply writeValue_shows | | |].
  - intros [] w1 s1 _ [[_ ->]|[Hne _]] _; [| congruence].
    apply shows_nothing.
    + unfold report. destruct onProgress;
        [apply record_keeps_gatt_writes; reflexivity | apply keeps_ret].
    + left. split; [| reflexivity]. unfold report. destruct onProgress; reflexivity.
  - intros err s1 [[Habs _]|[_ Hs]]; [discriminate |].
    right. split; [discriminate | exact Hs].
  - intros s1 [[Habs _]|[_ Hs]]; [discriminate |].
    right. split; [discriminate | exact Hs].
Qed.

Section WebScript.
Variable chunks : list (list Z).

Lemma web_script_take (j : nat) :
  (j <= length chunks)%nat ->
  take (2 + j) (web_ota_script chunks) =
  WriteValue 0x1701 [253; 0] :: WriteValue 0x1702 [1] ::
  map (WriteValue 0x1701) (take j chunks).
Proof.
  intros Hj. unfold web_ota_script. simpl. do 2 f_equal.
  rewrite take_app_le by (rewrite length_map; exact Hj).
  rewrite <- fmap_take. reflexivity.
Qed.

Lemma web_script_length : length (web_ota_script chunks) = (3 + length chunks)%nat.
Proof. unfold web_ota_script. simpl. rewrite length_app, length_map. simpl. lia. Qed.

Lemma web_performed_chunks (j : nat) :
  (j <= length chunks)%nat ->
  performed gatt_accepted gatt_refused (web_ota_script chunks)
    ([gatt_accepted (WriteValue 0x1701 [253; 0]); gatt_accepted (WriteValue 0x1702 [1])] ++
     map (fun c => gatt_accepted (WriteValue 0x1701 c)) (take j chunks)).
Proof.
  intros Hj. exists (2 + j)%nat. split; [rewrite web_script_length; lia |]. left.
  rewrite web_script_take by exact Hj. simpl. rewrite map_map. reflexivity.
Qed.

Lemma web_performed_chunk_refused (j : nat) (chunk : list Z) :
  chunks !! j = Some chunk ->
  performed gatt_accepted gatt_refused (web_ota_script chunks)
    ([gatt_accepted (WriteValue 0x1701 [253; 0]); gatt_accepted (WriteValue 0x1702 [1])] ++
     (map (fun c => gatt_accepted (WriteValue 0x1701 c)) (take j chunks) ++
      [gatt_refused (WriteValue 0x1701 chunk)])).
Proof.
  intros Hj. pose proof (lookup_lt_Some _ _ _ Hj) as Hlt.
  exists (2 + j)%nat. split; [rewrite web_script_length; lia |]. right.
  exists (WriteValue 0x1701 chunk). split.
  - unfold web_ota_script. simpl.
    rewrite lookup_app_l by (rewrite length_map; exact Hlt).
    rewrite list_lookup_fmap, Hj. reflexivity.
  - rewrite web_script_take by lia. simpl. rewrite map_map. reflexivity.
Qed.

Lemma web_performed_done_refused :
  performed gatt_accepted gatt_refused (web_ota_script chunks)
    ([gatt_accepted (WriteValue 0x1701 [253; 0]); gatt_accepted (WriteValue 0x1702 [1])] ++
     map (fun c => gatt_accepted (WriteValue 0x1701 c)) chunks ++
     [gatt_refused (WriteValue 0x1702 [4])]).
Proof.
  exists (2 + length chunks)%nat. split; [rewrite web_script_length; lia |]. right.
  exists (WriteValue 0x1702 [4]). split.
  - unfold web_ota_script. simpl.
    rewrite lookup_app_r by (rewrite length_map; lia).
    rewrite length_map, Nat.sub_diag. reflexivity.
  - rewrite web_script_take by lia. rewrite firstn_all. simpl. rewrite map_map.
    reflexivity.
Qed.

Lemma web_script_accepted :
  map gatt_accepted (web_ota_script chunks) =
  [gatt_accepted (WriteValue 0x1701 [253; 0]); gatt_accepted (WriteValue 0x1702 [1])] ++
  map (fun c => gatt_accepted (WriteValue 0x1701 c)) chunks ++
  [gatt_accepted (WriteValue 0x1702 [4])].
Proof. unfold web_ota_script. simpl. rewrite map_app, map_map. reflexivity. Qed.

End WebScript.

Definition web_transfer_performed (fuel : nat) (firmware : list Z)
    (out : Outcome unit) (steps : list Event) : Prop :=
  (out <> Resolved tt /\ steps = []) \/
  exists chunks : list (list Z),
    split_chunks fuel firmware 253 = Some chunks /\
    performed gatt_accepted gatt_refused (web_ota_script chunks) steps /\
    (out = Resolved tt -> steps = map gatt_accepted (web_ota_script chunks)).

Lemma web_flashFirmware_grows (fuel : nat) (firmware : list Z)
    (onProgress : option ProgressCallback) :
  emits trace (fun _ => True) (flashFirmware GATT fuel firmware onProgress).
Proof.
  unfold flashFirmware, getCharacteristic, writeValue, report, wait.
  emits_auto; first [apply emits_gatt_ask; intros ? | apply emits_gatt_record]; exact I.
Qed.

Lemma web_flashFirmware_shows (fuel : nat) (firmware : list Z)
    (onProgress : option ProgressCallback) (w : World) :
  shows gatt_writes (flashFirmware GATT fuel firmware onProgress) w
        (web_transfer_performed fuel firmware).
Proof.
  assert (Hnone : forall out : Outcome unit, out <> Resolved tt ->
            web_transfer_performed fuel firmware out [])
    by (intros out Hout; left; auto).
  assert (Hwait : forall ms, keeps gatt_writes (wait ms))
    by (intros ms; apply record_keeps_gatt_writes; reflexivity).
  assert (Hchar : forall uuid, keeps gatt_writes (getCharacteristic GATT uuid))
    by (intros uuid; apply ask_keeps_gatt_writes; intros ok; reflexivity).
  unfold flashFirmware.
  apply shows_after;
    [apply keeps_get | |
     intros err; apply Hnone; discriminate | apply Hnone; discriminate].
  intros w0 w1 _.
  destruct (not_initialized (this w0)).
  { apply shows_nothing; [apply keeps_reject |]. apply Hnone. discriminate. }
  change (DEFAULT_MTU_SIZE - 3) with 253.
  destruct (split_chunks fuel firmware 253) as [chunks|] eqn:Hsplit.
  2: { apply shows_nothing; [apply keeps_out_of_fuel |]. apply Hnone. discriminate. }
  assert (Hsome : forall out steps,
            performed gatt_accepted gatt_refused (web_ota_script chunks) steps ->
            (out = Resolved tt -> steps = map gatt_accepted (web_ota_script chunks)) ->
            web_transfer_performed fuel firmware out steps).
  { intros out steps Hp Hall. right. exists chunks. auto. }
  assert (P0 : performed gatt_accepted gatt_refused (web_ota_script chunks) []).
  { exists 0%nat. split; [lia |]. left. reflexivity. }
  assert (P0' : performed gatt_accepted gatt_refused (web_ota_script chunks)
                  [gatt_refused (WriteValue 0x1701 [253; 0])]).
  { exists 0%nat. split; [lia |]. right. eexists. split; reflexivity. }
  assert (P1 : performed gatt_accepted gatt_refused (web_ota_script chunks)
                 [gatt_accepted (WriteValue 0x1701 [253; 0])]).
  { exists 1%nat. split; [rewrite web_script_length; lia |]. left. reflexivity. }
  assert (P1' : performed gatt_accepted gatt_refused (web_ota_script chunks)
                  [gatt_accepted (WriteValue 0x1701 [253; 0]);
                   gatt_refused (WriteValue 0x1702 [1])]).
  { exists 1%nat. split; [rewrite web_script_length; lia |]. right. eexists.
    split; reflexivity. }
  apply shows_after;
    [apply Hchar | intros [] wa _ |
     intros err; apply Hnone; discriminate | apply Hnone; discriminate].
  apply shows_after;
    [apply Hchar | intros [] wb _ |
     intros err; apply Hnone; discriminate | apply Hnone; discriminate].
  eapply shows_bind; [apply writeValue_shows | | |].
  2: { intros err s1 [[Habs _]|[_ [->| ->]]]; [discriminate | |];
         (apply Hsome; [| discriminate]); assumption. }
  2: { intros s1 [[Habs _]|[_ [->| ->]]]; [discriminate | |];
         (apply Hsome; [| discriminate]); assumption. }
  intros [] w3 s1 _ [[_ ->]|[Hne _]] _; [| congruence].
  apply shows_after;
    [apply Hwait | intros [] wc _ |
     intros err; apply Hsome; [exact P1 | discriminate] |
     apply Hsome; [exact P1 | discriminate]].
  eapply shows_bind; [apply writeValue_shows | | |].
  2: { intros err s2 [[Habs _]|[_ [->| ->]]]; [discriminate | |];
         (apply Hsome; [| discriminate]); assumption. }
  2: { intros s2 [[Habs _]|[_ [->| ->]]]; [discriminate | |];
         (apply Hsome; [| discriminate]); assumption. }
  intros [] w5 s2 _ [[_ ->]|[Hne _]] _; [| congruence].
  assert (Hstarted : forall out : Outcome unit, out <> Resolved tt ->
            web_transfer_performed fuel firmware out
              ([gatt_accepted (WriteValue OTA_DATA_UUID (tranformArrayToData [253; 0]))] ++
               [gatt_accepted (WriteValue OTA_CONTROL_UUID (tranformArrayToData [1]))] ++
               [])).
  { intros out Hout. apply Hsome; [| intros ->; contradiction].
    apply (web_performed_chunks chunks 0). lia. }
  apply shows_after;
    [apply Hwait | intros [] wd _ |
     intros err; apply Hstarted; discriminate | apply Hstarted; discriminate].
  clear Hstarted.
  assert (Hloop := shows_for_each_chunk gatt_writes (fun _ => True)
            (fun c => gatt_accepted (WriteValue 0x1701 c))
            (fun c => gatt_refused (WriteValue 0x1701 c))
            (fun i chunk =>
               writeValue GATT OTA_DATA_UUID chunk;;
               report onProgress (progress_percent i (Z.of_nat (length chunks))))%prog).
  destruct (Hloop ltac:(intros i chunk w' _; split;
                          [exact I | apply web_chunk_turn_shows])
              chunks 0 wd I) as [_ Hshown].
  clear Hloop.
  eapply shows_bind; [exact Hshown | | |].
  2: { intros err s3 (j & Hj & [[-> _]|(c & Hc & -> & _)]);
         (apply Hsome; [| discriminate]);
         [apply web_performed_chunks; exact Hj
         | apply web_performed_chunk_refused; exact Hc]. }
  2: { intros s3 (j & Hj & [[-> _]|(c & Hc & -> & _)]);
         (apply Hsome; [| discriminate]);
         [apply web_performed_chunks; exact Hj
         | apply web_performed_chunk_refused; exact Hc]. }
  intros [] w8 s3 _ (j & Hj & [[-> Hall]|(c & Hc & _ & Hout)]) _; [| congruence].
  assert (j = length chunks) as -> by (apply Hall; reflexivity).
  rewrite firstn_all.
  eapply shows_bind; [apply writeValue_shows | | |].
  - intros [] w9 s4 _ [[_ ->]|[Hne _]] _; [| congruence].
    apply shows_nothing; [apply Hwait |]. rewrite app_nil_r.
    match goal with |- web_transfer_performed _ _ _ ?l =>
      replace l with (map gatt_accepted (web_ota_script chunks))
        by (rewrite web_script_accepted; reflexivity) end.
    apply Hsome; [| reflexivity].
    exists (length (web_ota_script chunks)). split; [lia |]. left.
    rewrite firstn_all. reflexivity.
  - intros err s4 [[Habs _]|[_ [->| ->]]]; [discriminate | |];
      (apply Hsome; [| discriminate]).
    + rewrite app_nil_r. rewrite <- (firstn_all chunks) at 2.
      apply (web_performed_chunks chunks (length chunks)). lia.
    + apply web_performed_done_refused.
  - intros s4 [[Habs _]|[_ [->| ->]]]; [discriminate | |];
      (apply Hsome; [| discriminate]).
    + rewrite app_nil_r. rewrite <- (firstn_all chunks) at 2.
      apply (web_performed_chunks chunks (length chunks)). lia.
    + apply web_performed_done_refused.
Qed.

(** X15.  The characteristic writes of [flashFirmware] of the web facade,
    whatever the stack answers: none at all, or the first writes of the
    script of a transfer (the header [[253, 0]], the start command [[1]],
    the chunks of 253 bytes in order, the done command [[4]]), each made
    only after the one before it was accepted.  The done command is written
    only when every chunk was accepted, and when the call resolves the
    whole script was. *)
Theorem web_flashFirmware_writes_in_order (fuel : nat) (firmware : list Z)
    (onProgress : option ProgressCallback) (w : World) :
  let run := flashFirmware GATT fuel firmware onProgress w in
  let steps :=
    List.filter WebFacts.is_write (drop (length (trace w)) (trace (snd run))) in
  (fst run <> Resolved tt /\ steps = []) \/
  exists chunks : list (list Z),
    split_chunks fuel firmware 253 = Some chunks /\
    performed gatt_accepted gatt_refused (web_ota_script chunks) steps /\
    (fst run = Resolved tt -> steps = map gatt_accepted (web_ota_script chunks)).
Proof.
  intros run steps.
  destruct (web_flashFirmware_shows fuel firmware onProgress w) as (shown & Hv & HR).
  destruct (web_flashFirmware_grows fuel firmware onProgress w) as (added & Ht & _).
  assert (steps = shown) as ->.
  { subst steps run. rewrite Ht, drop_app_length.
    unfold gatt_writes in Hv. rewrite Ht, List.filter_app in Hv.
    apply app_inv_head in Hv. exact Hv. }
  exact HR.
Qed.

End Methods.
(** ** The theorems at work *)

Lemma methods_need_the_control_service_witness :
  getHardwareVersion Fixtures.browser initial_world =
    (Rejected (RejectedWith "The device should be connected first."), initial_world) /\
  testDevice Fixtures.browser initial_world =
    (Rejected (RejectedWith "The device should be connected first."), initial_world).
Proof.
  destruct (methods_need_the_control_service Fixtures.browser)
    as (_ & _ & _ & _ & _ & Hhardware & _ & Htest & _).
  split; [apply Hhardware | apply Htest]; reflexivity.
Defined.

Lemma web_getters_read_their_characteristic_witness :
  fst (getFirmwareVersion Fixtures.browser Fixtures.web_connected) = Resolved [87] /\
  fst (getFirmwareVersion Fixtures.browser Fixtures.web_disconnected) =
    Rejected Fixtures.network_error.
Proof.
  destruct (web_getters_read_their_characteristic Fixtures.browser) as (Hfirmware & _).
  pose proof (Hfirmware Fixtures.web_connected (PrimaryService 0x1400) eq_refl) as Hup.
  pose proof (Hfirmware Fixtures.web_disconnected (PrimaryService 0x1400) eq_refl)
    as Hdown.
  cbv zeta in Hup, Hdown. simpl in Hup, Hdown.
  rewrite Hup, Hdown. split; reflexivity.
Defined.

Lemma web_connect_outcome_witness :
  connect Fixtures.browser {| has_gatt := false |} initial_world =
    (Rejected (RejectedWith "The device is invalid or not found"), initial_world) /\
  exists steps,
    connect Fixtures.browser Fixtures.web_device initial_world =
    (Resolved tt,
     {| this := {| device := Some Fixtures.web_device;
                   controlService := Some (PrimaryService 0x1400) |};
        trace := [Called GattConnect true] ++
                 [Called (GetPrimaryService 0x1400) true] ++ steps |}) /\
    Forall listening_step steps.
Proof.
  split.
  - apply (proj1 (web_connect_outcome Fixtures.browser {| has_gatt := false |}
                    initial_world)). reflexivity.
  - exact (proj2 (web_connect_outcome Fixtures.browser Fixtures.web_device
                    initial_world) eq_refl).
Defined.

(** A stack on which the link is up and every notification is refused:
    [connect] resolves all the same. *)
Definition no_notifications : WebBluetooth :=
  {| gatt_connect_answer := fun _ => Ok tt;
     getPrimaryService_answer := fun _ _ => Ok tt;
     getCharacteristic_answer := fun _ _ => Ok tt;
     startNotifications_answer := fun _ _ => Fails Fixtures.network_error;
     readValue_answer := fun _ _ => Ok [87];
     writeValue_answer := fun _ _ _ => Ok tt;
     gatt_connected := fun _ => true |}.

Example connect_resolves_without_listeners :
  connect no_notifications Fixtures.web_device initial_world =
  (Resolved tt,
   {| this := {| device := Some Fixtures.web_device;
                 controlService := Some (PrimaryService 0x1400) |};
      trace := [Called GattConnect true; Called (GetPrimaryService 0x1400) true;
                Called (GetCharacteristic 0xfff1) true;
                Called (GetCharacteristic 0xfff2) true;
                Called (GetCharacteristic 0xfff3) true;
                Called (StartNotifications 0xfff1) false;
                Called (StartNotifications 0xfff2) false;
                Called (StartNotifications 0xfff3) false] |}).
Proof. vm_compute. reflexivity. Qed.

(** The three listeners are set up together: each call of [setUpListener]
    has asked for its characteristic before any of them goes on. *)
Example connect_sets_up_the_listeners_together :
  trace (snd (connect Fixtures.browser Fixtures.web_device initial_world)) =
  [Called GattConnect true; Called (GetPrimaryService 0x1400) true;
   Called (GetCharacteristic 0xfff1) true;
   Called (GetCharacteristic 0xfff2) true;
   Called (GetCharacteristic 0xfff3) true;
   Called (StartNotifications 0xfff1) true;
   Called (StartNotifications 0xfff2) true;
   Called (StartNotifications 0xfff3) true;
   AddEventListener 0xfff1; AddEventListener 0xfff2; AddEventListener 0xfff3].
Proof. vm_compute. reflexivity. Qed.

Lemma web_disconnect_outcome_witness :
  exists steps,
    Forall listening_step steps /\
    disconnect Fixtures.browser Fixtures.web_connected =
    (Resolved tt,
     {| this := this Fixtures.web_connected;
        trace := trace Fixtures.web_connected ++ steps ++ [GattDisconnect] |}).
Proof.
  apply (web_disconnect_outcome Fixtures.browser Fixtures.web_connected).
  intros dev [= <-]. reflexivity.
Defined.

Lemma web_flashFirmware_writes_in_order_witness :
  let run := flashFirmware Fixtures.browser 8 [1; 2; 3] None Fixtures.web_connected in
  let steps :=
    List.filter WebFacts.is_write
      (drop (length (trace Fixtures.web_connected)) (trace (snd run))) in
  (fst run <> Resolved tt /\ steps = []) \/
  exists chunks : list (list Z),
    split_chunks 8 [1; 2; 3] 253 = Some chunks /\
    performed gatt_accepted gatt_refused (web_ota_script chunks) steps /\
    (fst run = Resolved tt -> steps = map gatt_accepted (web_ota_script chunks)).
Proof.
  exact (web_flashFirmware_writes_in_order Fixtures.browser 8%nat [1; 2; 3] None
           Fixtures.web_connected).
Defined.

End WebMethods.
(** * Beyond the claims: the sensor handlers of the web facade *)

Module WebSensorFacts.
Import Web.

(** A [characteristicvaluechanged] event: the characteristic, and the bytes
    of the buffer of its value, if it has one. *)
Definition ValueChanged : Type := Z * option (list Z).

(** The events [es] arrive one after the other. *)
Definition dispatch (es : list ValueChanged) (w : SensorWorld) : SensorWorld :=
  foldl (fun w e => characteristicvaluechanged (fst e) (snd e) w) w es.

(** The values that the events store into the axis of [char]. *)
Definition values_of (char : Z) (es : list ValueChanged) : list (option Z) :=
  omap (fun e : ValueChanged =>
          if decide (fst e = char) then head <$> snd e else None) es.

(** The events that a handler acts upon: those of the three axes that
    carry a value. *)
Definition handled (e : ValueChanged) : bool :=
  bool_decide (fst e = CHAR_X_UUID \/ fst e = CHAR_Y_UUID \/ fst e = CHAR_Z_UUID) &&
  bool_decide (is_Some (snd e)).

Definition axis_of (char : Z) (k : Sensor) : option Z :=
  if decide (char = CHAR_X_UUID) then _axisX k
  else if decide (char = CHAR_Y_UUID) then _axisY k
  else _axisZ k.

Lemma default_last_cons {A} (a x : A) (l : list A) :
  default a (list.last (x :: l)) = default x (list.last l).
Proof. rewrite last_cons. destruct (list.last l); reflexivity. Qed.

Lemma call_back_sensor_this (w : SensorWorld) :
  sensor_this (call_back w) = sensor_this w.
Proof. unfold call_back. destruct (sensorEventListenerCallBack _); reflexivity. Qed.

(** One event: the axis of its characteristic takes the first byte of the
    buffer, the other axes and the callback stay. *)
Lemma event_axes (char : Z) (e : ValueChanged) (w : SensorWorld) :
  char = CHAR_X_UUID \/ char = CHAR_Y_UUID \/ char = CHAR_Z_UUID ->
  let w' := characteristicvaluechanged (fst e) (snd e) w in
  sensorEventListenerCallBack (sensor_this w') =
    sensorEventListenerCallBack (sensor_this w) /\
  axis_of char (sensor_this w') =
    match snd e with
    | Some buffer =>
        if decide (fst e = char) then head buffer else axis_of char (sensor_this w)
    | None => axis_of char (sensor_this w)
    end.
Proof.
  intros Hchar. destruct e as [c dv]. cbn [fst snd]. cbn zeta.
  unfold characteristicvaluechanged, xSensorEventListener, ySensorEventListener,
    zSensorEventListener.
  destruct (decide (c = CHAR_X_UUID)) as [->|Hx];
    [| destruct (decide (c = CHAR_Y_UUID)) as [->|Hy];
       [| destruct (decide (c = CHAR_Z_UUID)) as [->|Hz]]];
    destruct dv as [buffer|]; rewrite ?call_back_sensor_this;
    (split; [reflexivity |]);
    destruct Hchar as [->|[->| ->]]; unfold axis_of; cbn [sensor_this _axisX _axisY _axisZ];
    repeat (destruct (decide _) as [?|?]; try discriminate; try congruence);
    reflexivity.
Qed.

Lemma event_calls (e : ValueChanged) (w : SensorWorld) :
  let w' := characteristicvaluechanged (fst e) (snd e) w in
  sensor_calls w' =
  sensor_calls w ++
  match sensorEventListenerCallBack (sensor_this w) with
  | Some cb =>
      if handled e
      then [{| call_function := cb; call_x := _axisX (sensor_this w');
               call_y := _axisY (sensor_this w'); call_z := _axisZ (sensor_this w') |}]
      else []
  | None => []
  end.
Proof.
  destruct e as [c [buffer|]]; simpl.
  2: { unfold handled. simpl. rewrite andb_false_r.
       unfold characteristicvaluechanged, xSensorEventListener, ySensorEventListener,
         zSensorEventListener.
       repeat destruct (decide _); destruct (sensorEventListenerCallBack _);
         rewrite app_nil_r; reflexivity. }
  unfold handled, characteristicvaluechanged, xSensorEventListener,
    ySensorEventListener, zSensorEventListener, call_back. simpl.
  destruct (decide (c = CHAR_X_UUID)) as [->|Hx];
    [simpl; destruct (sensorEventListenerCallBack _); simpl;
     rewrite ?app_nil_r; reflexivity |].
  destruct (decide (c = CHAR_Y_UUID)) as [->|Hy];
    [simpl; destruct (sensorEventListenerCallBack _); simpl;
     rewrite ?app_nil_r; reflexivity |].
  destruct (decide (c = CHAR_Z_UUID)) as [->|Hz];
    [simpl; destruct (sensorEventListenerCallBack _); simpl;
     rewrite ?app_nil_r; reflexivity |].
  rewrite bool_decide_eq_false_2 by tauto. simpl.
  destruct (sensorEventListenerCallBack _); rewrite app_nil_r; reflexivity.
Qed.

(** X16.  The three handlers of the web facade over any sequence of
    events: each axis ends with the value of the last event of its
    characteristic that carried a value (the first byte of the buffer, or
    [undefined] for an empty buffer), or as it was when there was none; the
    callback is called once for every event that a handler acted upon, with
    no comparison with the value before, and always the function that was
    set; without a callback nothing is called. *)
Theorem sensor_events_last_value_wins (es : list ValueChanged) (w : SensorWorld) :
  let w' := dispatch es w in
  sensorEventListenerCallBack (sensor_this w') =
    sensorEventListenerCallBack (sensor_this w) /\
  _axisX (sensor_this w') =
    default (_axisX (sensor_this w)) (list.last (values_of CHAR_X_UUID es)) /\
  _axisY (sensor_this w') =
    default (_axisY (sensor_this w)) (list.last (values_of CHAR_Y_UUID es)) /\
  _axisZ (sensor_this w') =
    default (_axisZ (sensor_this w)) (list.last (values_of CHAR_Z_UUID es)) /\
  exists calls,
    sensor_calls w' = sensor_calls w ++ calls /\
    match sensorEventListenerCallBack (sensor_this w) with
    | Some cb =>
        length calls = length (List.filter handled es) /\
        Forall (fun c => call_function c = cb) calls
    | None => calls = []
    end.
Proof.
  revert w. induction es as [|e es IH]; intros w; cbn zeta.
  - simpl. repeat split. exists []. rewrite app_nil_r. split; [reflexivity |].
    destruct (sensorEventListenerCallBack _); [split; [reflexivity | constructor] |
                                               reflexivity].
  - unfold dispatch. simpl.
    set (w1 := characteristicvaluechanged (fst e) (snd e) w).
    destruct (IH w1) as (Hcb & Hx & Hy & Hz & calls & Hcalls & Hcount).
    fold (dispatch es w1).
    pose proof (event_axes CHAR_X_UUID e w ltac:(auto)) as [Hcb1 Hx1].
    pose proof (event_axes CHAR_Y_UUID e w ltac:(auto)) as [_ Hy1].
    pose proof (event_axes CHAR_Z_UUID e w ltac:(auto)) as [_ Hz1].
    pose proof (event_calls e w) as Hc1.
    cbn zeta in *. fold w1 in Hcb1, Hx1, Hy1, Hz1, Hc1.
    unfold axis_of in Hx1, Hy1, Hz1. simpl in Hx1, Hy1, Hz1.
    split; [congruence |].
    assert (Hstep : forall char (axis : Sensor -> option Z),
              axis (sensor_this w1) =
                match snd e with
                | Some buffer =>
                    if decide (fst e = char) then head buffer
                    else axis (sensor_this w)
                | None => axis (sensor_this w)
                end ->
              default (axis (sensor_this w1)) (list.last (values_of char es)) =
              default (axis (sensor_this w)) (list.last (values_of char (e :: es)))).
    { intros char axis H1. unfold values_of. simpl. fold (values_of char es).
      rewrite H1. destruct (snd e) as [buffer|]; simpl.
      - destruct (decide (fst e = char)); simpl;
          [rewrite default_last_cons |]; reflexivity.
      - destruct (decide (fst e = char)); reflexivity. }
    rewrite Hx, Hy, Hz.
    rewrite (Hstep CHAR_X_UUID _axisX Hx1), (Hstep CHAR_Y_UUID _axisY Hy1),
      (Hstep CHAR_Z_UUID _axisZ Hz1).
    split; [reflexivity |]. split; [reflexivity |]. split; [reflexivity |].
    rewrite Hcalls, Hc1, <- app_assoc. eexists. split; [reflexivity |].
    rewrite Hcb1 in Hcount.
    destruct (sensorEventListenerCallBack (sensor_this w)) as [cb|].
    + destruct Hcount as [Hlen Hall]. simpl.
      destruct (handled e); simpl.
      * split; [rewrite Hlen; reflexivity | constructor; [reflexivity | exact Hall]].
      * split; [exact Hlen | exact Hall].
    + simpl. exact Hcount.
Qed.

End WebSensorFacts.
(** * Beyond the claims: names *)

Module NameFacts.

(** Every code unit is below 128. *)
Definition ascii_name (s : JSString) : Prop := Forall (fun c => 0 <= c < 128) s.

(** Nothing but white space. *)
Definition blank (s : JSString) : Prop := Forall (fun c => isWhiteSpace c = true) s.

(** The letters of "control", each in either case. *)
Definition spells_control (s : JSString) : Prop :=
  Forall2 (fun c u => c = u \/ c = u + 32) s (literal "CONTROL").

Lemma literal_CONTROL : literal "CONTROL" = [67; 79; 78; 84; 82; 79; 76].
Proof. reflexivity. Qed.

Lemma trimStart_spec (s : JSString) :
  exists pre, s = pre ++ trimStart s /\ blank pre.
Proof.
  induction s as [|c s IH]; simpl.
  - exists []. split; [reflexivity | constructor].
  - destruct (isWhiteSpace c) eqn:Hc.
    + destruct IH as (pre & Hs & Hpre). exists (c :: pre). split.
      * simpl. congruence.
      * constructor; assumption.
    + exists []. split; [reflexivity | constructor].
Qed.

Lemma trimStart_blank_app (pre : JSString) (c : Z) (rest : JSString) :
  blank pre -> isWhiteSpace c = false -> trimStart (pre ++ c :: rest) = c :: rest.
Proof.
  intros Hpre Hc. induction Hpre as [|x pre Hx Hpre IH]; simpl.
  - rewrite Hc. reflexivity.
  - rewrite Hx. exact IH.
Qed.

Lemma trimEnd_spec (s : JSString) :
  exists post, s = trimEnd s ++ post /\ blank post.
Proof.
  destruct (trimStart_spec (reverse s)) as (pre & Hs & Hpre).
  exists (reverse pre). split.
  - unfold trimEnd. rewrite <- reverse_app, <- Hs, reverse_involutive. reflexivity.
  - unfold blank. apply Forall_reverse. exact Hpre.
Qed.

Lemma trimEnd_app_blank (front : JSString) (c : Z) (post : JSString) :
  blank post -> isWhiteSpace c = false -> trimEnd (front ++ c :: post) = front ++ [c].
Proof.
  intros Hpost Hc. unfold trimEnd.
  rewrite reverse_app, reverse_cons, <- app_assoc. simpl.
  rewrite trimStart_blank_app; [| apply Forall_reverse; exact Hpost | exact Hc].
  rewrite reverse_cons, reverse_involutive. reflexivity.
Qed.

Lemma trim_spec (s : JSString) :
  exists pre post, s = pre ++ trim s ++ post /\ blank pre /\ blank post.
Proof.
  destruct (trimStart_spec s) as (pre & Hs & Hpre).
  destruct (trimEnd_spec (trimStart s)) as (post & Ht & Hpost).
  exists pre, post. unfold trim. rewrite <- Ht. auto.
Qed.

Lemma isWhiteSpace_upper (c : Z) :
  isWhiteSpace (if (97 <=? c) && (c <=? 122) then c - 32 else c) = isWhiteSpace c.
Proof.
  unfold isWhiteSpace.
  destruct (Z.leb_spec 97 c), (Z.leb_spec c 122); simpl; try reflexivity.
  repeat match goal with
         | |- context [?a <=? ?b] => destruct (Z.leb_spec a b)
         | |- context [?a =? ?b] => destruct (Z.eqb_spec a b)
         end; simpl; try reflexivity; lia.
Qed.

Lemma isWhiteSpace_toUpperCase (s : JSString) : blank (toUpperCase s) <-> blank s.
Proof.
  unfold blank, toUpperCase. rewrite Forall_map. apply Forall_iff. intros c. simpl.
  rewrite isWhiteSpace_upper. reflexivity.
Qed.

Lemma toUpperCase_app (a b : JSString) :
  toUpperCase (a ++ b) = toUpperCase a ++ toUpperCase b.
Proof. apply map_app. Qed.

Lemma spells_control_upper (core : JSString) :
  spells_control core <-> toUpperCase core = literal "CONTROL".
Proof.
  rewrite literal_CONTROL. unfold spells_control, toUpperCase.
  rewrite literal_CONTROL. split.
  - intros H.
    repeat match goal with
           | H : Forall2 _ _ (_ :: _) |- _ =>
               apply Forall2_cons_inv_r in H as (? & ? & [->| ->] & H & ->)
           | H : Forall2 _ _ [] |- _ => apply Forall2_nil_inv_r in H as ->
           end; reflexivity.
  - intros H.
    do 7 (destruct core as [|? core]; [discriminate |]).
    destruct core; [| discriminate].
    injection H as H1 H2 H3 H4 H5 H6 H7.
    repeat (apply Forall2_cons; [| ]); try apply Forall2_nil;
      match goal with
      | H : (if (97 <=? ?c) && (?c <=? 122) then _ else _) = ?u |- ?c = ?u \/ _ =>
          revert H; destruct (Z.leb_spec 97 c), (Z.leb_spec c 122); simpl; lia
      end.
Qed.

(** The comparison of [nameMatch] in the two facades is with the same
    string. *)
Lemma web_deviceName_upper : toUpperCase Web.deviceName = literal "CONTROL".
Proof. reflexivity. Qed.

(** X17.  [nameMatch] accepts an ASCII name exactly when it is the word
    "control", each letter in either case, with any white space before and
    after it; the two facades accept the same names.  Among them are the
    name that [deviceName()] returns in the React Native facade and the name
    that [requestDeviceOptions] asks the browser to filter by. *)
Theorem nameMatch_accepts_control (deviceName : JSString) :
  ascii_name deviceName ->
  (ReactNative.nameMatch deviceName = true <->
   exists pre core post,
     deviceName = pre ++ core ++ post /\ blank pre /\ blank post /\
     spells_control core) /\
  Web.nameMatch deviceName = ReactNative.nameMatch deviceName /\
  ReactNative.nameMatch ReactNative.deviceName = true /\
  Forall (fun name => Web.nameMatch name = true) (Web.filters Web.requestDeviceOptions).
Proof.
  intros _. split; [| split; [| split]].
  - unfold ReactNative.nameMatch. rewrite bool_decide_eq_true. split.
    + intros Htrim.
      destruct (trim_spec (toUpperCase deviceName)) as (pre' & post' & Hs & Hpre & Hpost).
      rewrite Htrim in Hs. unfold toUpperCase in Hs.
      apply fmap_app_inv in Hs as (pre & rest & Hp1 & Hrest & ->).
      symmetry in Hrest.
      apply fmap_app_inv in Hrest as (core & post & Hcore & Hp2 & ->).
      subst pre' post'. symmetry in Hcore.
      exists pre, core, post. split; [reflexivity |].
      split; [apply isWhiteSpace_toUpperCase; exact Hpre |].
      split; [apply isWhiteSpace_toUpperCase; exact Hpost |].
      apply spells_control_upper. exact Hcore.
    + intros (pre & core & post & -> & Hpre & Hpost & Hcore).
      apply spells_control_upper in Hcore.
      rewrite !toUpperCase_app, Hcore, literal_CONTROL.
      apply isWhiteSpace_toUpperCase in Hpre, Hpost.
      unfold trim. simpl app at 2.
      rewrite trimStart_blank_app by (assumption || reflexivity).
      change (67 :: 79 :: 78 :: 84 :: 82 :: 79 :: 76 :: toUpperCase post)
        with ([67; 79; 78; 84; 82; 79] ++ 76 :: toUpperCase post).
      rewrite trimEnd_app_blank by (assumption || reflexivity). reflexivity.
  - unfold Web.nameMatch, ReactNative.nameMatch. rewrite web_deviceName_upper.
    reflexivity.
  - reflexivity.
  - repeat constructor.
Qed.

Lemma nameMatch_accepts_control_witness :
  ReactNative.nameMatch (literal "  Control ") = true /\
  Web.nameMatch (literal "  Control ") = true.
Proof.
  assert (Hascii : ascii_name (literal "  Control "))
    by (repeat constructor; vm_compute; intros; discriminate).
  destruct (nameMatch_accepts_control (literal "  Control ") Hascii)
    as (Haccepts & Hsame & _).
  assert (Hrn : ReactNative.nameMatch (literal "  Control ") = true).
  { apply Haccepts.
    exists (literal "  "), (literal "Control"), (literal " ").
    split; [reflexivity |]. split; [repeat constructor |].
    split; [repeat constructor |].
    unfold spells_control. rewrite literal_CONTROL.
    change (literal "Control") with [67; 111; 110; 116; 114; 111; 108].
    repeat (apply Forall2_cons; [lia |]). apply Forall2_nil. }
  split; [exact Hrn |]. rewrite Hsame. exact Hrn.
Defined.

Example nameMatch_examples :
  ReactNative.nameMatch (literal "control") = true /\
  ReactNative.nameMatch (literal "CONTROL ") = true /\
  ReactNative.nameMatch (literal "control2") = false /\
  ReactNative.nameMatch (literal "con trol") = false /\
  ReactNative.nameMatch (literal "") = false.
Proof. vm_compute. repeat split. Qed.

End NameFacts.
(** * Beyond the claims: numbers *)

Module NumberFacts.
Import JSNumber JSNumberFacts.

(** ** The percentages of the progress *)

Lemma Math_round_of_integer (x : Q) (k : Z) : (x == inject_Z k)%Q -> Math_round x = k.
Proof.
  intros E. unfold Math_round.
  assert (Hlo : (inject_Z k <= x + (1 # 2))%Q) by lra.
  assert (Hhi : (x + (1 # 2) < inject_Z (k + 1))%Q)
    by (rewrite inject_Z_plus; change (inject_Z 1) with 1%Q; lra).
  apply Qfloor_resp_le in Hlo. rewrite Qfloor_Z in Hlo.
  assert (Hf : (inject_Z (Qfloor (x + (1 # 2))) < inject_Z (k + 1))%Q)
    by (eapply Qle_lt_trans; [apply Qfloor_le | exact Hhi]).
  rewrite <- Zlt_Qlt in Hf. lia.
Qed.

Lemma progress_percent_of_nothing (total : Z) :
  0 < total -> progress_percent 0 total = 0.
Proof.
  intros Ht. unfold progress_percent. apply Math_round_of_integer.
  unfold Nmul, Ndiv.
  apply (AxisClaims.round_binary64_exact _ 0); [lia |].
  rewrite (AxisClaims.round_binary64_exact _ 0); [reflexivity | lia |].
  unfold Qdiv. change (inject_Z 0) with 0%Q. apply Qmult_0_l.
Qed.

Lemma progress_percent_of_all (total : Z) :
  0 < total -> progress_percent total total = 100.
Proof.
  intros Ht. unfold progress_percent. apply Math_round_of_integer.
  unfold Nmul, Ndiv.
  assert (Hone : (inject_Z total / inject_Z total == inject_Z 1)%Q).
  { assert (Hpos : (0 < inject_Z total)%Q)
      by (change 0%Q with (inject_Z 0); rewrite <- Zlt_Qlt; exact Ht).
    unfold Qdiv. rewrite Qmult_inv_r; [reflexivity |].
    intros E. rewrite E in Hpos. apply (Qlt_irrefl 0). exact Hpos. }
  apply (AxisClaims.round_binary64_exact _ 100); [lia |].
  rewrite (AxisClaims.round_binary64_exact _ 1); [reflexivity | lia | exact Hone].
Qed.

Lemma progress_percent_bounds (total i : Z) :
  0 < total -> 0 <= i <= total -> 0 <= progress_percent i total <= 100.
Proof.
  intros Ht Hi.
  pose proof (progress_percent_mono total 0 i Ht ltac:(lia)) as Hlo.
  pose proof (progress_percent_mono total i total Ht ltac:(lia)) as Hhi.
  rewrite (progress_percent_of_nothing total Ht) in Hlo.
  rewrite (progress_percent_of_all total Ht) in Hhi. lia.
Qed.

(** A call of the progress callback [cb] with a percentage. *)
Definition rn_percentage (cb : ProgressCallback) (e : ReactNative.Event) : Prop :=
  match e with
  | ReactNative.Progress f p => f = cb /\ 0 <= p <= 100
  | _ => True
  end.

Definition web_percentage (cb : ProgressCallback) (e : Web.Event) : Prop :=
  match e with
  | Web.Progress f p => f = cb /\ 0 <= p <= 100
  | _ => True
  end.

(** X18.  Whatever the stack answers and whatever the image, every value
    that [flashFirmware] hands to the progress callback is an integer from
    0 to 100, in both facades, and no function but the callback of the call
    is handed one.  (The value is computed in binary64; for the index 0 it
    is 0.) *)
Theorem progress_is_a_percentage (cb : ProgressCallback) :
  (forall BLE platform fuel firmware,
     emits ReactNative.trace (rn_percentage cb)
           (ReactNative.flashFirmware BLE platform fuel firmware (Some cb))) /\
  (forall GATT fuel firmware,
     emits Web.trace (web_percentage cb)
           (Web.flashFirmware GATT fuel firmware (Some cb))) /\
  (forall total, 0 < total -> progress_percent 0 total = 0).
Proof.
  split; [| split; [| exact progress_percent_of_nothing]].
  - intros BLE platform fuel firmware.
    unfold ReactNative.flashFirmware.
    apply emits_bind; [| intros [d|]; [| apply emits_nothing, keeps_reject]].
    { apply (emits_weaken _ (ReactNativeMethods.transfer_step platform None)).
      - intros [[]| | |]; simpl; tauto || discriminate.
      - unfold ReactNative.ready, ReactNative.isConnected,
          ReactNative.BleManager_isPeripheralConnected.
        emits_auto; apply ReactNativeMethods.emits_ask; intros ok; exact I. }
    apply emits_bind; [| intros mtuSize].
    { destruct (decide _); [apply emits_nothing, keeps_ret |].
      apply ReactNativeMethods.emits_ask. intros ok. exact I. }
    destruct (split_chunks fuel firmware (mtuSize - 3)) as [chunks|];
      [| apply emits_nothing, keeps_out_of_fuel].
    assert (Hquiet : forall {A} (m : ReactNative.M A),
              emits ReactNative.trace
                    (ReactNativeMethods.transfer_step platform None) m ->
              emits ReactNative.trace (rn_percentage cb) m).
    { intros A m. apply emits_weaken. intros [[]| | |]; simpl; tauto || discriminate. }
    assert (Hw : forall c data n,
              emits ReactNative.trace (rn_percentage cb)
                    (ReactNative.writeChar BLE c data n)).
    { intros c data n.
      unfold ReactNative.writeChar, ReactNative.ready, ReactNative.isConnected,
        ReactNative.BleManager_isPeripheralConnected, ReactNative.BleManager_write.
      emits_auto; apply ReactNativeMethods.emits_ask; intros ok; exact I. }
    assert (Hwait : forall ms,
              emits ReactNative.trace (rn_percentage cb) (ReactNative.wait ms)).
    { intros ms. apply ReactNativeMethods.emits_record. exact I. }
    apply emits_bind; [apply Hw | intros _].
    apply emits_bind; [apply Hwait | intros _].
    apply emits_bind; [apply Hw | intros _].
    apply emits_bind; [apply Hwait | intros _].
    apply emits_bind; [| intros _].
    { unfold ReactNative.readChar, ReactNative.ready, ReactNative.isConnected,
        ReactNative.BleManager_isPeripheralConnected, ReactNative.BleManager_read.
      emits_auto; apply ReactNativeMethods.emits_ask; intros ok; exact I. }
    apply emits_bind; [| intros _].
    { apply (emits_for_each_chunk_indexed _ _ _ (Z.of_nat (length chunks))); [| lia | lia].
      intros i chunk Hi. apply emits_bind; [apply Hw | intros _].
      apply ReactNativeMethods.emits_record. split; [reflexivity |].
      apply progress_percent_bounds; lia. }
    apply emits_bind; [| intros _].
    { destruct (decide _); [apply Hw |].
      apply ReactNativeMethods.emits_ask. intros ok. exact I. }
    apply emits_bind; [apply Hwait | intros _].
    unfold ReactNative.connect, ReactNative.disconnect, ReactNative.unsubscribe,
      ReactNative.subscribe, ReactNative.writeChar, ReactNative.ready,
      ReactNative.isConnected, ReactNative.BleManager_isPeripheralConnected,
      ReactNative.BleManager_write, ReactNative.BleManager_connect,
      ReactNative.BleManager_retrieveServices,
      ReactNative.BleManager_startNotification,
      ReactNative.BleManager_stopNotification, ReactNative.BleManager_disconnect.
    emits_auto; apply ReactNativeMethods.emits_ask; intros ok; exact I.
  - intros GATT fuel firmware. unfold Web.flashFirmware.
    apply emits_bind; [apply emits_nothing, keeps_get | intros w0].
    destruct (Web.not_initialized _); [apply emits_nothing, keeps_reject |].
    destruct (split_chunks fuel firmware _) as [chunks|];
      [| apply emits_nothing, keeps_out_of_fuel].
    assert (Hask : forall {A} c (answer : Web.History -> Result A),
              emits Web.trace (web_percentage cb) (Web.ask c answer)).
    { intros A c answer. apply WebMethods.emits_gatt_ask. intros ok. exact I. }
    assert (Hwait : forall ms, emits Web.trace (web_percentage cb) (Web.wait ms)).
    { intros ms. apply WebMethods.emits_gatt_record. exact I. }
    unfold Web.getCharacteristic, Web.writeValue.
    do 2 (apply emits_bind; [apply Hask | intros _]).
    apply emits_bind; [apply Hask | intros _].
    apply emits_bind; [apply Hwait | intros _].
    apply emits_bind; [apply Hask | intros _].
    apply emits_bind; [apply Hwait | intros _].
    apply emits_bind; [| intros _].
    { apply (emits_for_each_chunk_indexed _ _ _ (Z.of_nat (length chunks))); [| lia | lia].
      intros i chunk Hi. apply emits_bind; [apply Hask | intros _].
      apply WebMethods.emits_gatt_record. split; [reflexivity |].
      apply progress_percent_bounds; lia. }
    apply emits_bind; [apply Hask | intros _]. apply Hwait.
Qed.

Lemma progress_is_a_percentage_witness : progress_percent 0 7 = 0.
Proof. apply (proj2 (proj2 (progress_is_a_percentage 1%nat)) 7). lia. Defined.

(** ** The levels of the magnitude *)

Import ReactNative AxisClaims.

Lemma magnitude_of_bytes (d : DeviceData) :
  0 <= _axisX d <= 255 -> 0 <= _axisY d <= 255 -> 0 <= _axisZ d <= 255 ->
  calculateTotalAcceleration d =
  Z.min (nearest_sqrt (_axisX d * _axisX d + _axisY d * _axisY d +
                       _axisZ d * _axisZ d)) 5.
Proof.
  intros Hx Hy Hz.
  set (n := _axisX d * _axisX d + _axisY d * _axisY d + _axisZ d * _axisZ d).
  assert (Hn : 0 <= n) by (unfold n; nia).
  unfold calculateTotalAcceleration.
  pose proof (Math_sqrt_comp _ _ (sum_of_squares_exact d Hx Hy Hz)) as E.
  unfold Math_round. rewrite (Qfloor_comp _ _ (Qplus_comp _ _ E _ _ (Qeq_refl _))).
  apply (magnitude_of_sum_nearest n Hn).
Qed.

(** The magnitude as a function of the sum of the squares. *)
Definition level (n : Z) : Z :=
  if n =? 0 then 0
  else if n <=? 2 then 1
  else if n <=? 6 then 2
  else if n <=? 12 then 3
  else if n <=? 20 then 4
  else 5.

Lemma nearest_sqrt_level (n : Z) : 0 <= n -> Z.min (nearest_sqrt n) 5 = level n.
Proof.
  intros Hn. destruct (Z_lt_le_dec n 21) as [Hs|Hb].
  - assert (Ht : forall_from 21 0
               (fun k => Z.min (nearest_sqrt k) 5 =? level k) = true)
      by (vm_compute; reflexivity).
    apply Z.eqb_eq. apply (forall_from_spec _ _ _ Ht). simpl. lia.
  - destruct (nearest_sqrt_spec n Hn) as (Hr0 & Hr1 & _).
    unfold level.
    repeat match goal with
           | |- context [?a =? ?b] => destruct (Z.eqb_spec a b); [lia |]
           | |- context [?a <=? ?b] => destruct (Z.leb_spec a b); [lia |]
           end.
    nia.
Qed.

(** X19.  The magnitude of a sample of bytes takes the six values 0 to 5
    according to the sum [n] of the squares of the axes: 0 for 0, 1 up to
    2, 2 up to 6, 3 up to 12, 4 up to 20, and 5 from 21 on.  So it is 0 for
    the sample of zeros alone, it is 5 as soon as one axis reaches 5, it
    does not decrease when [n] grows, and the percentage that the facade
    delivers, [min(magnitude * 20, 100)], is one of 0, 20, 40, 60, 80 and
    100. *)
Theorem magnitude_levels (d : DeviceData) :
  0 <= _axisX d <= 255 -> 0 <= _axisY d <= 255 -> 0 <= _axisZ d <= 255 ->
  let n := _axisX d * _axisX d + _axisY d * _axisY d + _axisZ d * _axisZ d in
  let m := calculateTotalAcceleration d in
  m = level n /\
  0 <= m <= 5 /\
  (m = 0 <-> _axisX d = 0 /\ _axisY d = 0 /\ _axisZ d = 0) /\
  (5 <= _axisX d \/ 5 <= _axisY d \/ 5 <= _axisZ d -> m = 5) /\
  Z.min (m * 20) 100 = m * 20 /\
  (forall d' : DeviceData,
     0 <= _axisX d' <= 255 -> 0 <= _axisY d' <= 255 -> 0 <= _axisZ d' <= 255 ->
     n <= _axisX d' * _axisX d' + _axisY d' * _axisY d' + _axisZ d' * _axisZ d' ->
     m <= calculateTotalAcceleration d').
Proof.
  intros Hx Hy Hz n m.
  assert (Hn : 0 <= n) by (unfold n; nia).
  assert (Hm : m = level n).
  { unfold m. rewrite (magnitude_of_bytes d Hx Hy Hz). apply nearest_sqrt_level. exact Hn. }
  assert (Hlevel : forall a, 0 <= a -> 0 <= level a <= 5).
  { intros a Ha. unfold level.
    repeat match goal with
           | |- context [?a =? ?b] => destruct (Z.eqb_spec a b)
           | |- context [?a <=? ?b] => destruct (Z.leb_spec a b)
           end; lia. }
  assert (Hmono : forall a b, 0 <= a <= b -> level a <= level b).
  { intros a b Hab. unfold level.
    repeat match goal with
           | |- context [?a =? ?b] => destruct (Z.eqb_spec a b)
           | |- context [?a <=? ?b] => destruct (Z.leb_spec a b)
           end; lia. }
  split; [exact Hm |]. split; [rewrite Hm; apply Hlevel; exact Hn |].
  split; [| split; [| split]].
  - rewrite Hm. unfold level. destruct (Z.eqb_spec n 0) as [E|E].
    + split; [intros _; unfold n in E; nia | reflexivity].
    + split; [| intros (Ex & Ey & Ez); unfold n in E; rewrite Ex, Ey, Ez in E; lia].
      repeat match goal with
             | |- context [?a <=? ?b] => destruct (Z.leb_spec a b)
             end; lia.
  - intros Hbig. rewrite Hm. unfold level.
    assert (21 <= n) by (unfold n; nia).
    repeat match goal with
           | |- context [?a =? ?b] => destruct (Z.eqb_spec a b); [lia |]
           | |- context [?a <=? ?b] => destruct (Z.leb_spec a b); [lia |]
           end.
    reflexivity.
  - specialize (Hlevel n Hn). rewrite <- Hm in Hlevel. lia.
  - intros d' Hx' Hy' Hz' Hle. rewrite Hm.
    rewrite (magnitude_of_bytes d' Hx' Hy' Hz'), nearest_sqrt_level by nia.
    apply Hmono. lia.
Qed.

Lemma magnitude_levels_witness :
  calculateTotalAcceleration {| _axisX := 4; _axisY := 2; _axisZ := 1 |} = level 21 /\
  calculateTotalAcceleration {| _axisX := 4; _axisY := 2; _axisZ := 0 |} <=
  calculateTotalAcceleration {| _axisX := 4; _axisY := 2; _axisZ := 1 |}.
Proof.
  pose proof (magnitude_levels {| _axisX := 4; _axisY := 2; _axisZ := 0 |}
                ltac:(simpl; lia) ltac:(simpl; lia) ltac:(simpl; lia)) as H0.
  pose proof (magnitude_levels {| _axisX := 4; _axisY := 2; _axisZ := 1 |}
                ltac:(simpl; lia) ltac:(simpl; lia) ltac:(simpl; lia)) as H1.
  cbv zeta in H0, H1.
  destruct H0 as (_ & _ & _ & _ & _ & Hmono). destruct H1 as (Hlevel & _).
  split; [exact Hlevel |].
  apply Hmono; simpl; lia.
Defined.

Example magnitude_4_2_0_and_4_2_1 :
  calculateTotalAcceleration {| _axisX := 4; _axisY := 2; _axisZ := 0 |} = 4 /\
  calculateTotalAcceleration {| _axisX := 4; _axisY := 2; _axisZ := 1 |} = 5.
Proof. vm_compute. split; reflexivity. Qed.

End NumberFacts.
(** * Beyond the claims: values read from the device *)

Module ValueFacts.

(** ** Text *)

(** X20.  The text of the bytes read from the device: one character for
    each byte, in order, with the byte as its code, so that the character
    codes of the text are the bytes again.  The text of no byte at all is
    the empty string.  The text of a missing value is "N/A"; it is also the
    text of the three bytes 78, 47, 65, and of no other bytes.  The two
    facades make the same text of the same bytes. *)
Theorem text_of_bytes (data : list Z) :
  Forall (fun b => 0 <= b <= 255) data ->
  ReactNative.convertToString (Some data) = data /\
  Web.chars_of data = data /\
  (forall more, ReactNative.convertToString (Some (data ++ more)) =
                data ++ ReactNative.convertToString (Some more)) /\
  ReactNative.convertToString (Some []) = [] /\
  ReactNative.convertToString None = literal "N/A" /\
  (ReactNative.convertToString (Some data) = ReactNative.convertToString None <->
   data = [78; 47; 65]).
Proof.
  intros Hbytes.
  assert (Hid : forall l : list Z,
            Forall (fun b => 0 <= b <= 255) l ->
            join (map String_fromCharCode l) = l).
  { intros l Hl. induction Hl as [|b l Hb Hl IH]; [reflexivity |].
    unfold join in *. simpl. rewrite IH, Z.mod_small by lia. reflexivity. }
  split; [apply Hid; exact Hbytes |]. split; [apply Hid; exact Hbytes |].
  split; [| split; [reflexivity | split; [reflexivity |]]].
  - intros more. unfold ReactNative.convertToString, join.
    rewrite map_app, concat_app. fold (join (map String_fromCharCode data)).
    rewrite (Hid data Hbytes). reflexivity.
  - unfold ReactNative.convertToString at 1. rewrite (Hid data Hbytes).
    change (ReactNative.convertToString None) with [78; 47; 65]. reflexivity.
Qed.

Lemma text_of_bytes_witness :
  ReactNative.convertToString (Some [49; 46; 50]) = literal "1.2" /\
  Web.chars_of [49; 46; 50] = literal "1.2" /\
  ReactNative.convertToString (Some [78; 47; 65]) = ReactNative.convertToString None.
Proof.
  assert (Hbytes : Forall (fun b => 0 <= b <= 255) [49; 46; 50])
    by (repeat constructor; lia).
  assert (Hna : Forall (fun b => 0 <= b <= 255) [78; 47; 65])
    by (repeat constructor; lia).
  destruct (text_of_bytes [49; 46; 50] Hbytes) as (Hrn & Hweb & _).
  destruct (text_of_bytes [78; 47; 65] Hna) as (_ & _ & _ & _ & _ & Hsame).
  split; [exact Hrn |]. split; [exact Hweb |]. apply Hsame. reflexivity.
Defined.

(** ** The battery level *)

(** X21.  [getBattery] resolves to the first byte of the value read from
    the battery characteristic.  On a value of no bytes the React Native
    facade resolves to [undefined], and the web facade, whose read of the
    byte throws, to -1. *)
Theorem getBattery_first_byte :
  (forall BLE w d data,
     ReactNative.device (ReactNative.this w) = Some d ->
     ReactNative.isPeripheralConnected_answer BLE (ReactNative.trace w) (id d) =
       Ok true ->
     ReactNative.read_answer BLE
       (ReactNative.trace w ++
        [ReactNative.Called (ReactNative.BleIsPeripheralConnected (id d)) true])
       (id d) "1400" "2A19" = Ok data ->
     fst (ReactNative.getBattery BLE w) = Resolved (head data)) /\
  (forall GATT w s data,
     Web.controlService (Web.this w) = Some s ->
     Web.getCharacteristic_answer GATT (Web.trace w) 0x2a19 = Ok tt ->
     Web.readValue_answer GATT
       (Web.trace w ++ [Web.Called (Web.GetCharacteristic 0x2a19) true]) 0x2a19 =
       Ok data ->
     fst (Web.getBattery GATT w) = Resolved (default (-1) (head data))).
Proof.
  split.
  - intros BLE w d data Hd Hup Hread.
    unfold ReactNative.getBattery, ReactNative.readChar. unfold bind at 1 2.
    rewrite ReactNativeMethods.ready_run, Hd, Hup.
    unfold ReactNative.BleManager_read, ReactNative.ask, ReactNativeMethods.asked,
      ReactNative.KIIROO_CONTROL_SERVICE_UUID, ReactNative.BATTERY_LEVEL_UUID.
    simpl. rewrite Hread. reflexivity.
  - intros GATT w s data Hs Hchar Hread.
    unfold Web.getBattery. rewrite bind_get.
    assert (Hinit : Web.not_initialized (Web.this w) = false)
      by (unfold Web.not_initialized; rewrite Hs; reflexivity).
    rewrite Hinit. unfold Web.getCharacteristic. rewrite WebMethods.bind_gatt_ask.
    change Web.BATTERY_LEVEL_UUID with 0x2a19. rewrite Hchar.
    unfold try_catch, Web.readValue. rewrite WebMethods.bind_gatt_ask.
    unfold WebMethods.gatt_asked at 1. simpl Web.trace. rewrite Hread.
    destruct data; reflexivity.
Qed.

Lemma getBattery_first_byte_witness :
  fst (ReactNative.getBattery (Fixtures.dependable 253) Fixtures.connected) =
    Resolved (Some 0) /\
  fst (Web.getBattery Fixtures.browser Fixtures.web_connected) = Resolved 87.
Proof.
  split.
  - apply (proj1 getBattery_first_byte (Fixtures.dependable 253) Fixtures.connected
             Fixtures.control [0]); reflexivity.
  - apply (proj2 getBattery_first_byte Fixtures.browser Fixtures.web_connected
             (Web.PrimaryService Web.KIIROO_CONTROL_SERVICE_UUID) [87]); reflexivity.
Defined.

(** ** The callback table after [connect] *)

Import ReactNative.

(** X22.  After a [connect(d)] that resolved, [unsubscribe] of the device
    stops one notification, that of the Z axis (the characteristic of the
    entry that the last of the three subscriptions left in the table); when
    the stack accepts the stop the device has no entry any more, and from
    then on its notifications, of any axis, change nothing and reach no
    listener. *)
Theorem unsubscribe_after_connect (BLE : BleManager) (platform : Platform)
    (d : IDevice) (w : World) :
  let w1 := snd (connect BLE platform (Some d) w) in
  let run := unsubscribe BLE (id d) w1 in
  fst (connect BLE platform (Some d) w) = Resolved tt ->
  (exists ok,
     trace (snd run) = trace w1 ++ [Called (BleStopNotification (id d) "1400" "FFF3") ok] /\
     (fst run = Resolved tt <-> ok = true)) /\
  (fst run = Resolved tt ->
   callbacks (snd run) = delete (id d) (callbacks w) /\
   forall n, peripheral n = id d ->
     didUpdateValueForCharacteristic n (snd run) = (Resolved tt, snd run)).
Proof.
  intros w1 run Hres.
  destruct (ReactNativeMethods.connect_accepted_calls BLE platform d w Hres)
    as [Hcb _]. subst run w1.
  destruct (connect BLE platform (Some d) w) as [out w1]. cbn [fst snd] in *.
  rewrite TableClaims.unsubscribe_run, Hcb.
  rewrite lookup_insert_eq. cbn [service characteristic].
  destruct (stopNotification_answer BLE _ (id d) "1400" "FFF3") as [[]|err];
    cbn [fst snd TableClaims.with_callbacks trace callbacks].
  - split; [exists true; split; [reflexivity | tauto] |].
    intros _. rewrite delete_insert_eq. split; [reflexivity |].
    intros n Hn. unfold didUpdateValueForCharacteristic. rewrite bind_get.
    unfold TableClaims.with_callbacks. cbn [callbacks].
    rewrite Hn, lookup_delete_eq. reflexivity.
  - split; [exists false; split; [reflexivity |] | discriminate].
    split; discriminate.
Qed.

Lemma unsubscribe_after_connect_witness :
  let run := unsubscribe (Fixtures.dependable 253) (id Fixtures.control)
               Fixtures.connected in
  callbacks (snd run) = delete (id Fixtures.control) ∅ /\
  didUpdateValueForCharacteristic (SensorClaims.axis "FFF1" 3) (snd run) =
    (Resolved tt, snd run).
Proof.
  intros run.
  pose proof (unsubscribe_after_connect (Fixtures.dependable 253) Fixtures.android
                Fixtures.control initial_world eq_refl) as [_ H].
  destruct (H eq_refl) as [Hcb Hdrop].
  split; [exact Hcb |]. apply Hdrop. reflexivity.
Defined.

End ValueFacts.
